(** * Chess rules engine: a shallow embedding of [game_logic.py]

    The Python module keeps a [State] object (board, counters, king caches,
    game-over fields) whose [Figure]s validate a move on a throw-away copy of
    the state and then replay it on the state itself.  The embedding follows
    the module function by function.

    - Integers (coordinates, colours, counters) are [Z].
    - The 8x8 board is a list of rows, [board !! (y-1)] then [!! (x-1)],
      read and written with stdpp's list lookup and insert.
    - Python exceptions are the [inl] side of [result]; a raising call keeps
      every mutation done before the [raise].
    - [copy.copy] is shallow.  [State.get_copy] therefore leaves the copy's
      [moves] attribute bound to the very list object of the state it was
      copied from, while [board] is rebuilt and the scalar fields are copied
      by value.  That one list object is the second component of [World]; it
      is threaded through every computation, whichever state object the
      computation runs on.
    - A [Figure] standing on the board of a state always has that state as
      its [_state] back-reference ([board_from_text], [get_copy],
      [Figure._make_move] and [transform_to_queen] keep it so), hence the
      back-reference is the state component of the monad. *)

From Stdlib Require Import ZArith String Ascii Lia.
From stdpp Require Import base tactics option list list_numbers.

Local Open Scope Z_scope.

(** ** Exceptions and the two monads *)

Inductive exn : Type :=
  | ValueError (msg : string)
  | IndexError
  | KeyError
  | AttributeError.

Definition result (A : Type) : Type := (exn + A)%type.

(** Sequencing: the continuation runs only if the first part did not
    raise. *)
Class Bind (M : Type -> Type) : Type :=
  bind : forall {A B : Type}, M A -> (A -> M B) -> M B.

Notation "'let*' x ':=' m 'in' k" := (bind m (fun x => k))
  (at level 10, x pattern, m at level 100, k at level 200, only parsing).

#[global] Instance result_bind : Bind result := fun _ _ m f =>
  match m with
  | inl e => inl e
  | inr a => f a
  end.

Definition is_ok {A} (r : result A) : bool :=
  match r with inr _ => true | inl _ => false end.

(** [sign] *)
Definition sign (number : Z) : Z :=
  if 0 <? number then 1
  else if number <? 0 then -1
  else 0.

(** Python's [range(a, b)]. *)
Definition range (a b : Z) : list Z := seqZ a (b - a).

(** ** Cell, Move, EnumeratedMove *)

Module Cell.
Record t : Type := mk { x : Z; y : Z }.
End Cell.
Abbreviation Cell := Cell.t.

(** [Cell.__init__] *)
Definition Cell_init (x y : Z) : result Cell :=
  if negb ((1 <=? x) && (x <=? 8)) || negb ((1 <=? y) && (y <=? 8))
  then inl (ValueError "Cell must lie within the chess board.")
  else inr (Cell.mk x y).

(** [Cell.__eq__] *)
Definition Cell_eq (self other : Cell) : bool :=
  (Cell.x self =? Cell.x other) && (Cell.y self =? Cell.y other).

Record Move : Type := mkMove { cell_from : Cell; cell_to : Cell }.

(** [EnumeratedMove] extends [Move] with the ply number. *)
Record EnumeratedMove : Type :=
  mkEnumeratedMove { move_of : Move; move_number : Z }.

(** ** Figures *)

Inductive Kind : Type := King | Queen | Bishop | Knight | Rook | Pawn.

Definition Kind_eqb (a b : Kind) : bool :=
  match a, b with
  | King, King | Queen, Queen | Bishop, Bishop
  | Knight, Knight | Rook, Rook | Pawn, Pawn => true
  | _, _ => false
  end.

Module Figure.
Record t : Type := mk {
    kind : Kind;                      (* the class of the object *)
    _current_position : Cell;
    _color : Z;
    moves : list EnumeratedMove;
    number_of_moves : Z
}.
End Figure.
Abbreviation Figure := Figure.t.

(** [Figure.__init__] *)
Definition Figure_init (k : Kind) (current_position : Cell) (color : Z)
  : result Figure :=
  if negb ((color =? -1) || (color =? 1))
  then inl (ValueError "Color must be either 1 or -1.")
  else inr (Figure.mk k current_position color [] 0).

(** [Figure.last_move]; indexing an empty list raises. *)
Definition Figure_last_move (self : Figure) : result (option EnumeratedMove) :=
  if 0 <? Figure.number_of_moves self then
    match Figure.moves self !! Z.to_nat (Figure.number_of_moves self - 1) with
    | Some m => inr (Some m)
    | None => inl IndexError
    end
  else inr None.

(** [Figure.is_initial_position] *)
Definition Figure_is_initial_position (self : Figure) : bool :=
  Figure.number_of_moves self =? 0.

(** ** State *)

Definition Board : Type := list (list (option Figure)).

Module State.
Record t : Type := mk {
    is_game_over : bool;
    winning_side : Z;
    _white_king_position : Cell;
    _black_king_position : Cell;
    board : Board;
    number_of_moves : Z;
    _is_original : bool
}.
End State.
Abbreviation State := State.t.

(** The state object a computation runs on, and the list object that the
    [moves] attribute of that state and of all its copies refers to. *)
Definition World : Type := (State * list EnumeratedMove)%type.

Definition M (A : Type) : Type := World -> result A * World.

Definition ret {A} (a : A) : M A := fun w => (inr a, w).
#[global] Instance M_bind : Bind M := fun _ _ m f w =>
  match m w with
  | (inl e, w') => (inl e, w')
  | (inr a, w') => f a w'
  end.

Definition raise {A} (e : exn) : M A := fun w => (inl e, w).
Definition lift {A} (r : result A) : M A := fun w => (r, w).
Definition get_self : M State := fun w => (inr (fst w), w).
Definition put_self (s : State) : M unit := fun w => (inr tt, (s, snd w)).

(** [state.moves.append(move)], on the shared list object. *)
Definition moves_append (move : EnumeratedMove) : M unit :=
  fun w => (inr tt, (fst w, snd w ++ [move])).

(** Run [m] with [c] as the state object (a copy made by [get_copy]): the
    caller's own state object is untouched, the [moves] list is the same
    object for both.  The outcome and the final copy are handed back. *)
Definition run_on {A} (c : State) (m : M A) : M (result A * State) :=
  fun w =>
    let '(r, (c', h')) := m (c, snd w) in
    (inr (r, c'), (fst w, h')).

(** Board cells.  Every [Cell] is range-checked when it is built, so the
    indices below are within 0..7. *)
Definition Board_get (b : Board) (cell : Cell) : option Figure :=
  match b !! Z.to_nat (Cell.y cell - 1) with
  | Some row =>
      match row !! Z.to_nat (Cell.x cell - 1) with
      | Some o => o
      | None => None
      end
  | None => None
  end.

Definition Board_set (b : Board) (cell : Cell) (o : option Figure) : Board :=
  alter (fun row => <[Z.to_nat (Cell.x cell - 1) := o]> row)
        (Z.to_nat (Cell.y cell - 1)) b.

Definition set_board (s : State) (b : Board) : State :=
  State.mk (State.is_game_over s) (State.winning_side s)
           (State._white_king_position s) (State._black_king_position s)
           b (State.number_of_moves s) (State._is_original s).

(** [State.get_by_cell] *)
Definition State_get_by_cell (self : State) (cell : Cell) : option Figure :=
  Board_get (State.board self) cell.

(** [self.board[cell.y - 1][cell.x - 1] = o] *)
Definition State_board_set (self : State) (cell : Cell) (o : option Figure)
  : State :=
  set_board self (Board_set (State.board self) cell o).

(** [State.get_king_position_by_color] *)
Definition State_get_king_position_by_color (self : State) (color : Z)
  : result Cell :=
  if negb ((color =? -1) || (color =? 1))
  then inl (ValueError "Color must be either 1 or -1.")
  else if color =? 1 then inr (State._white_king_position self)
  else inr (State._black_king_position self).

(** [State.change_king_position_by_color] *)
Definition State_change_king_position_by_color
  (self : State) (cell : Cell) (color : Z) : result State :=
  if negb ((color =? -1) || (color =? 1))
  then inl (ValueError "Color must be either 1 or -1.")
  else if color =? 1 then
    inr (State.mk (State.is_game_over self) (State.winning_side self)
           cell (State._black_king_position self)
           (State.board self) (State.number_of_moves self)
           (State._is_original self))
  else
    inr (State.mk (State.is_game_over self) (State.winning_side self)
           (State._white_king_position self) cell
           (State.board self) (State.number_of_moves self)
           (State._is_original self)).

(** [State.whose_move] *)
Definition State_whose_move (self : State) : Z :=
  if State.number_of_moves self mod 2 =? 0 then 1 else -1.

(** [State.get_copy]: scalar fields by value, [_is_original] cleared, a
    fresh 8x8 board filled with shallow copies of the figures. *)
Definition State_get_copy (self : State) : State :=
  State.mk (State.is_game_over self) (State.winning_side self)
    (State._white_king_position self) (State._black_king_position self)
    ((fun y => (fun x => State_get_by_cell self (Cell.mk (x + 1) (y + 1)))
                 <$> range 0 8) <$> range 0 8)
    (State.number_of_moves self)
    false.

(** ** Geometric attack tests ([_is_cell_under_attack] of each class) *)

(** The loop shared by the straight-line tests:
    [for v in range(..): if get_by_cell(Cell(x, y)) is not None: return False]
    followed by [return True]. *)
Fixpoint line_clear (self : State) (coords : list (Z * Z)) : result bool :=
  match coords with
  | [] => inr true
  | (x, y) :: rest =>
      let* c := Cell_init x y in
      match State_get_by_cell self c with
      | Some _ => inr false
      | None => line_clear self rest
      end
  end.

(** The [while True] walk of Bishop and Queen along [(vx, vy)].  Each round
    builds [Cell(x, y)], which raises once the walk leaves the board, so the
    Python loop makes at most eight rounds from a board cell;
    [diagonal_walk_ok] and [diagonal_clear_ok] show that nine rounds are
    never used up on a diagonal between two board cells. *)
Fixpoint diagonal_walk (fuel : nat) (self : State) (vx vy x y : Z)
  (cell : Cell) : result bool :=
  match fuel with
  | O => inl (ValueError "Cell must lie within the chess board.")
  | S fuel' =>
      let x := x + vx in
      let y := y + vy in
      let* c := Cell_init x y in
      if Cell_eq c cell then inr true
      else match State_get_by_cell self c with
           | Some _ => inr false
           | None => diagonal_walk fuel' self vx vy x y cell
           end
  end.

Definition diagonal_clear (self : State) (pos cell : Cell) : result bool :=
  diagonal_walk 9 self
    (sign (Cell.x cell - Cell.x pos)) (sign (Cell.y cell - Cell.y pos))
    (Cell.x pos) (Cell.y pos) cell.

Definition vertical_clear (self : State) (pos cell : Cell) : result bool :=
  let y_from := Z.min (Cell.y pos) (Cell.y cell) in
  let y_to := Z.max (Cell.y pos) (Cell.y cell) in
  line_clear self ((fun y => (Cell.x cell, y)) <$> range (y_from + 1) y_to).

Definition horizontal_clear (self : State) (pos cell : Cell) : result bool :=
  let x_from := Z.min (Cell.x pos) (Cell.x cell) in
  let x_to := Z.max (Cell.x pos) (Cell.x cell) in
  line_clear self ((fun x => (x, Cell.y cell)) <$> range (x_from + 1) x_to).

Definition King__is_cell_under_attack (self : Figure) (cell : Cell) : bool :=
  let pos := Figure._current_position self in
  if Cell_eq pos cell then false
  else (Z.abs (Cell.x pos - Cell.x cell) <=? 1)
       && (Z.abs (Cell.y pos - Cell.y cell) <=? 1).

Definition Queen__is_cell_under_attack (st : State) (self : Figure)
  (cell : Cell) : result bool :=
  let pos := Figure._current_position self in
  if Cell_eq pos cell then inr false
  else if Z.abs (Cell.x pos - Cell.x cell) =? Z.abs (Cell.y pos - Cell.y cell)
  then diagonal_clear st pos cell
  else if Cell.x pos =? Cell.x cell then vertical_clear st pos cell
  else if Cell.y pos =? Cell.y cell then horizontal_clear st pos cell
  else inr false.

Definition Bishop__is_cell_under_attack (st : State) (self : Figure)
  (cell : Cell) : result bool :=
  let pos := Figure._current_position self in
  if Cell_eq pos cell then inr false
  else if negb (Z.abs (Cell.x pos - Cell.x cell)
                =? Z.abs (Cell.y pos - Cell.y cell))
  then inr false
  else diagonal_clear st pos cell.

(** [sorted([a, b]) == [1, 2]] *)
Definition Knight__is_cell_under_attack (self : Figure) (cell : Cell) : bool :=
  let pos := Figure._current_position self in
  let a := Z.abs (Cell.x pos - Cell.x cell) in
  let b := Z.abs (Cell.y pos - Cell.y cell) in
  (Z.min a b =? 1) && (Z.max a b =? 2).

Definition Rook__is_cell_under_attack (st : State) (self : Figure)
  (cell : Cell) : result bool :=
  let pos := Figure._current_position self in
  if Cell_eq pos cell then inr false
  else if Cell.x pos =? Cell.x cell then vertical_clear st pos cell
  else if Cell.y pos =? Cell.y cell then horizontal_clear st pos cell
  else inr false.

Definition Pawn__is_cell_under_attack (self : Figure) (cell : Cell) : bool :=
  let pos := Figure._current_position self in
  (Z.abs (Cell.x pos - Cell.x cell) =? 1)
  && (Cell.y pos =? Cell.y cell + Figure._color self).

(** Method dispatch on the class of the figure. *)
Definition Figure__is_cell_under_attack (st : State) (self : Figure)
  (cell : Cell) : result bool :=
  match Figure.kind self with
  | King => inr (King__is_cell_under_attack self cell)
  | Queen => Queen__is_cell_under_attack st self cell
  | Bishop => Bishop__is_cell_under_attack st self cell
  | Knight => inr (Knight__is_cell_under_attack self cell)
  | Rook => Rook__is_cell_under_attack st self cell
  | Pawn => inr (Pawn__is_cell_under_attack self cell)
  end.

(** [for y in range(1, 9): for x in range(1, 9)], as [(x, y)] pairs. *)
Definition all_cells : list (Z * Z) :=
  concat ((fun y => (fun x => (x, y)) <$> range 1 9) <$> range 1 9).

Fixpoint attack_scan (self : State) (cell : Cell) (color : Z)
  (coords : list (Z * Z)) : result bool :=
  match coords with
  | [] => inr false
  | (x, y) :: rest =>
      let* c := Cell_init x y in
      match State_get_by_cell self c with
      | None => attack_scan self cell color rest
      | Some figure =>
          if negb (Figure._color figure =? color)
          then attack_scan self cell color rest
          else
            let* hit := Figure__is_cell_under_attack self figure cell in
            if hit then inr true else attack_scan self cell color rest
      end
  end.

(** [State._is_cell_under_attack]; [color] is the attacker's colour. *)
Definition State__is_cell_under_attack (self : State) (cell : Cell) (color : Z)
  : result bool :=
  if negb ((color =? -1) || (color =? 1))
  then inl (ValueError "Color must be either 1 or -1.")
  else attack_scan self cell color all_cells.

(** [State._is_king_in_check] *)
Definition State__is_king_in_check (self : State) (color : Z) : result bool :=
  if negb ((color =? -1) || (color =? 1))
  then inl (ValueError "Color must be either 1 or -1.")
  else
    let* king_position := State_get_king_position_by_color self color in
    State__is_cell_under_attack self king_position (color * -1).

(** ** Moving figures *)

Definition set_number_of_moves (s : State) (n : Z) : State :=
  State.mk (State.is_game_over s) (State.winning_side s)
           (State._white_king_position s) (State._black_king_position s)
           (State.board s) n (State._is_original s).

(** [Figure._add_move], called on the fresh [figure_copy]; the updated
    figure object is handed back. *)
Definition Figure__add_move (self : Figure) (move : EnumeratedMove) : M Figure :=
  let self' :=
    Figure.mk (Figure.kind self) (Figure._current_position self)
      (Figure._color self) (Figure.moves self ++ [move])
      (Figure.number_of_moves self + 1) in
  let* _ := moves_append move in
  let* s := get_self in
  let* _ := put_self (set_number_of_moves s (State.number_of_moves s + 1)) in
  ret self'.

(** [Figure._make_move]: "Makes move without checking correctness". *)
Definition Figure__make_move (self : Figure) (cell : Cell) : M unit :=
  let figure_copy :=
    Figure.mk (Figure.kind self) cell (Figure._color self)
      (Figure.moves self) (Figure.number_of_moves self) in
  let* s := get_self in
  let* figure_copy :=
    Figure__add_move figure_copy
      (mkEnumeratedMove (mkMove (Figure._current_position self) cell)
                        (State.number_of_moves s + 1)) in
  let* s := get_self in
  let* _ := put_self (State_board_set s cell (Some figure_copy)) in
  let* s := get_self in
  put_self (State_board_set s (Figure._current_position self) None).

(** [State._make_move] *)
Definition State__make_move (move : Move) : M unit :=
  let* s := get_self in
  match State_get_by_cell s (cell_from move) with
  | None => raise (ValueError "From cell has not figure on it.")
  | Some figure => Figure__make_move figure (cell_to move)
  end.

(** [Figure._make_move_on_copied]: the unchecked move is played on a copy,
    which is returned. *)
Definition Figure__make_move_on_copied (self : Figure) (cell : Cell) : M State :=
  let* s := get_self in
  let* (r, state_copy) :=
    run_on (State_get_copy s)
           (State__make_move (mkMove (Figure._current_position self) cell)) in
  match r with
  | inl e => raise e
  | inr _ => ret state_copy
  end.

(** [Pawn.transform_to_queen], as a function of the state it acts on. *)
Definition Pawn_transform_to_queen (st : State) (cell : Cell) : result State :=
  match State_get_by_cell st cell with
  | None => inl AttributeError
  | Some pawn =>
      let* queen :=
        Figure_init Queen (Figure._current_position pawn) (Figure._color pawn) in
      let queen :=
        Figure.mk (Figure.kind queen) (Figure._current_position queen)
          (Figure._color queen) (Figure.moves pawn)
          (Figure.number_of_moves pawn) in
      inr (State_board_set st (Figure._current_position pawn) (Some queen))
  end.

(** [state_copy.get_by_cell(cell).transform_to_queen(cell)]: the receiver
    must be a Pawn object. *)
Definition transform_to_queen_at (st : State) (cell : Cell) : result State :=
  match State_get_by_cell st cell with
  | None => inl AttributeError
  | Some receiver =>
      if Kind_eqb (Figure.kind receiver) Pawn
      then Pawn_transform_to_queen st cell
      else inl AttributeError
  end.

(** The body shared by [Queen.make_move], [Bishop.make_move],
    [Knight.make_move] and [Rook.make_move]; they differ in the message. *)
Definition pattern_make_move (msg : string) (self : Figure) (cell : Cell)
  : M unit :=
  let* s := get_self in
  let* covered := lift (Figure__is_cell_under_attack s self cell) in
  if negb covered then raise (ValueError msg)
  else
    let* state_copy := Figure__make_move_on_copied self cell in
    let* in_check :=
      lift (State__is_king_in_check state_copy (Figure._color self)) in
    if in_check
    then raise (ValueError "You will be in check, you cannot make such move.")
    else Figure__make_move self cell.

Definition Queen_make_move : Figure -> Cell -> M unit :=
  pattern_make_move "Queens don't move like that.".
Definition Bishop_make_move : Figure -> Cell -> M unit :=
  pattern_make_move "Bishops don't move like that.".
Definition Knight_make_move : Figure -> Cell -> M unit :=
  pattern_make_move "Knights don't move like that.".
Definition Rook_make_move : Figure -> Cell -> M unit :=
  pattern_make_move "Rooks don't move like that.".

(** A method called on a copy that the caller holds in a local variable: an
    exception of the call leaves the caller as well. *)
Definition on_copy {A} (c : State) (m : M A) : M (A * State) :=
  let* (r, c') := run_on c m in
  match r with
  | inl e => raise e
  | inr a => ret (a, c')
  end.

(** The three board writes that relocate the rook when castling; [figure] is
    the shallow copy of the rook taken at the start of [King.make_move].  The
    second write sets an attribute of whatever the first one stored, and
    raises on [None] with the first write done. *)
Definition relocate_rook (figure : Figure) (rook_new_position : Cell)
  : M unit :=
  let* s := get_self in
  let* _ :=
    put_self (State_board_set s rook_new_position
                (State_get_by_cell s (Figure._current_position figure))) in
  let* s := get_self in
  match State_get_by_cell s rook_new_position with
  | None => raise AttributeError
  | Some rook =>
      let* _ :=
        put_self (State_board_set s rook_new_position
                    (Some (Figure.mk (Figure.kind rook) rook_new_position
                             (Figure._color rook) (Figure.moves rook)
                             (Figure.number_of_moves rook)))) in
      let* s := get_self in
      put_self (State_board_set s (Figure._current_position figure) None)
  end.

(** The guard of the castling branch: [figure is not None and
    isinstance(figure, Rook) and figure.is_initial_position() and
    self.is_initial_position()]. *)
Definition castling_rook (self : Figure) (figure : option Figure)
  : option Figure :=
  match figure with
  | Some figure =>
      if Kind_eqb (Figure.kind figure) Rook
         && Figure_is_initial_position figure
         && Figure_is_initial_position self
      then Some figure
      else None
  | None => None
  end.

Definition own_figure (self : Figure) (figure : option Figure) : bool :=
  match figure with
  | Some figure => Figure._color figure =? Figure._color self
  | None => false
  end.

(** The castling branch of [King.make_move] (lines 166-193). *)
Definition King_castle (self figure : Figure) (cell : Cell) : M unit :=
  let pos := Figure._current_position self in
  let color := Figure._color self in
  let* s := get_self in
  let x_from := Z.min (Cell.x pos) (Cell.x cell) in
  let x_to := Z.max (Cell.x pos) (Cell.x cell) in
  let* free :=
    lift (line_clear s ((fun x => (x, Cell.y cell)) <$> range (x_from + 1) x_to)) in
  if negb free
  then raise (ValueError
    "You cannot make castling while there are figures between your rook and king.")
  else
  let* in_check := lift (State__is_king_in_check s color) in
  if in_check
  then raise (ValueError "Your king in check, you cannot make castling")
  else
  let* rook_new_position :=
    lift (Cell_init (Cell.x pos + sign (Cell.x cell - Cell.x pos)) (Cell.y cell)) in
  let* king_new_position :=
    lift (Cell_init (Cell.x pos + 2 * sign (Cell.x cell - Cell.x pos))
                    (Cell.y cell)) in
  let* attacked :=
    lift (State__is_cell_under_attack s rook_new_position (color * -1)) in
  if attacked
  then raise (ValueError
    "Cell on king's path in under attack, you cannot make castling in this situation.")
  else
  let* state_copy := Figure__make_move_on_copied self king_new_position in
  let* state_copy :=
    lift (State_change_king_position_by_color state_copy king_new_position color) in
  let* (_, state_copy) :=
    on_copy state_copy (relocate_rook figure rook_new_position) in
  let* in_check := lift (State__is_king_in_check state_copy color) in
  if in_check
  then raise (ValueError "You will be in check, you cannot make such move.")
  else
  let* _ := Figure__make_move self king_new_position in
  let* s := get_self in
  let* s := lift (State_change_king_position_by_color s king_new_position color) in
  let* _ := put_self s in
  relocate_rook figure rook_new_position.

(** The ordinary king step of [King.make_move] (lines 195-205). *)
Definition King_step (self : Figure) (figure : option Figure) (cell : Cell)
  : M unit :=
  let color := Figure._color self in
  if negb (King__is_cell_under_attack self cell)
  then raise (ValueError "Kings don't move like that.")
  else if own_figure self figure
  then raise (ValueError "You cannot beat your own figure.")
  else
    let* state_copy := Figure__make_move_on_copied self cell in
    let* state_copy :=
      lift (State_change_king_position_by_color state_copy cell color) in
    let* in_check := lift (State__is_king_in_check state_copy color) in
    if in_check
    then raise (ValueError "You will be in check, you cannot make such move.")
    else
      let* _ := Figure__make_move self cell in
      let* s := get_self in
      let* s := lift (State_change_king_position_by_color s cell color) in
      put_self s.

(** [King.make_move] *)
Definition King_make_move (self : Figure) (cell : Cell) : M unit :=
  let* s := get_self in
  let figure := State_get_by_cell s cell in
  match castling_rook self figure with
  | Some rook => King_castle self rook cell
  | None => King_step self figure cell
  end.

Definition is_transformation (self : Figure) (cell : Cell) : bool :=
  ((Cell.y cell =? 8) && (Figure._color self =? 1))
  || ((Cell.y cell =? 1) && (Figure._color self =? -1)).

(** The tail shared by the forward branch and the capture branch of
    [Pawn.make_move], in three parts.  First the move is played on a copy
    (with promotion) and the copy is tested for check. *)
Definition Pawn_simulate (self : Figure) (cell : Cell) : M bool :=
  let* state_copy := Figure__make_move_on_copied self cell in
  let* state_copy :=
    if is_transformation self cell
    then lift (transform_to_queen_at state_copy cell)
    else ret state_copy in
  lift (State__is_king_in_check state_copy (Figure._color self)).

(** "all tests passed": the move is played on the state itself (with
    promotion). *)
Definition Pawn_commit (self : Figure) (cell : Cell) : M unit :=
  let* _ := Figure__make_move self cell in
  if is_transformation self cell
  then
    let* s := get_self in
    let* s := lift (Pawn_transform_to_queen s cell) in
    put_self s
  else ret tt.

Definition Pawn_simulate_and_move (self : Figure) (cell : Cell) : M unit :=
  let* in_check := Pawn_simulate self cell in
  if in_check
  then raise (ValueError "You will be in check, you cannot make such move.")
  else Pawn_commit self cell.

(** The condition under which the en-passant branch raises; [or] evaluates
    left to right and stops at the first true disjunct. *)
Definition not_en_passant (st : State) (self : Figure) (figure : option Figure)
  : result bool :=
  match figure with
  | None => inr true
  | Some figure =>
      if Figure._color figure =? Figure._color self then inr true
      else if negb (Kind_eqb (Figure.kind figure) Pawn) then inr true
      else if negb (Figure.number_of_moves figure =? 1) then inr true
      else
        let* last := Figure_last_move figure in
        match last with
        | None => inl AttributeError
        | Some last => inr (negb (State.number_of_moves st =? move_number last))
        end
  end.

(** The en-passant branch of [Pawn.make_move] (lines 431-441). *)
Definition Pawn_en_passant (self : Figure) (cell : Cell) : M unit :=
  let pos := Figure._current_position self in
  let* s := get_self in
  let* behind := lift (Cell_init (Cell.x cell) (Cell.y pos)) in
  let figure := State_get_by_cell s behind in
  let* refused := lift (not_en_passant s self figure) in
  match refused, figure with
  | false, Some figure =>
      let* state_copy := Figure__make_move_on_copied self cell in
      let state_copy :=
        State_board_set state_copy (Figure._current_position figure) None in
      let* in_check :=
        lift (State__is_king_in_check state_copy (Figure._color self)) in
      if in_check
      then raise (ValueError "You will be in check, you cannot make such move.")
      else
        let* _ := Figure__make_move self cell in
        let* s := get_self in
        put_self (State_board_set s (Figure._current_position figure) None)
  | _, _ =>
      raise (ValueError
        "You cannot make such move, it's not En passant situation.")
  end.

(** [Pawn.make_move] *)
Definition Pawn_make_move (self : Figure) (cell : Cell) : M unit :=
  let pos := Figure._current_position self in
  let color := Figure._color self in
  let* s := get_self in
  if (Cell.x pos =? Cell.x cell)
     && ((Cell.y pos + color =? Cell.y cell)
         || (Figure_is_initial_position self
             && (Cell.y pos + 2 * color =? Cell.y cell)))
  then
    match State_get_by_cell s cell with
    | Some _ => raise (ValueError "This field is already occupied.")
    | None => Pawn_simulate_and_move self cell
    end
  else if (Z.abs (Cell.x pos - Cell.x cell) =? 1)
          && (Cell.y pos + color =? Cell.y cell)
  then
    match State_get_by_cell s cell with
    | Some figure =>
        if Figure._color figure =? color
        then raise (ValueError "You cannot beat your own figures.")
        else Pawn_simulate_and_move self cell
    | None => Pawn_en_passant self cell
    end
  else raise (ValueError "Pawns don't move like that.").

(** [figure.make_move(cell)], dispatched on the class. *)
Definition Figure_make_move (self : Figure) (cell : Cell) : M unit :=
  match Figure.kind self with
  | King => King_make_move self cell
  | Queen => Queen_make_move self cell
  | Bishop => Bishop_make_move self cell
  | Knight => Knight_make_move self cell
  | Rook => Rook_make_move self cell
  | Pawn => Pawn_make_move self cell
  end.

(** [COLORS] *)
Definition COLORS (color : Z) : result string :=
  if color =? 1 then inr "white"%string
  else if color =? -1 then inr "black"%string
  else inl KeyError.

(** ** Move enumeration and the game-over test *)

(** [State.make_move] calls [_check_on_game_over], which enumerates moves by
    calling [State.make_move] on copies.  A copy has [_is_original] cleared,
    so the nested call never reaches [_check_on_game_over] again: the
    recursion is two levels deep.  [State_make_move_with] is the body of
    [State.make_move] with the game-over test as a parameter. *)
Definition State_make_move_with (check_on_game_over : M unit) (move : Move)
  : M unit :=
  let* s := get_self in
  match State_get_by_cell s (cell_from move) with
  | None => raise (ValueError "From cell has no figure on it.")
  | Some figure =>
      if negb (Figure._color figure =? State_whose_move s)
      then
        let* name := lift (COLORS (Figure._color figure)) in
        raise (ValueError ("It's not " ++ name ++ " turn."))
      else
        let* _ := Figure_make_move figure (cell_to move) in
        let* s := get_self in
        if State._is_original s then check_on_game_over else ret tt
  end.

(** [State.make_move] as it runs on a copy. *)
Definition State_make_move_on_copy : Move -> M unit :=
  State_make_move_with (ret tt).

(** One round of the loops of the [get_possible_moves] methods:
    [state_copy = self._state.get_copy()], then [try:] the move on the copy,
    [except: continue].  [Cell(x, y)] is built inside the [try]. *)
Definition try_candidate (self : Figure) (xy : Z * Z) : M (option Cell) :=
  let* s := get_self in
  let state_copy := State_get_copy s in
  match Cell_init (fst xy) (snd xy) with
  | inl _ => ret None
  | inr target =>
      let* (r, _) :=
        run_on state_copy
          (State_make_move_on_copy
             (mkMove (Figure._current_position self) target)) in
      ret (if is_ok r then Some target else None)
  end.

Fixpoint try_candidates (self : Figure) (candidates : list (Z * Z))
  : M (list Cell) :=
  match candidates with
  | [] => ret []
  | xy :: rest =>
      let* found := try_candidate self xy in
      let* others := try_candidates self rest in
      ret (match found with Some c => c :: others | None => others end)
  end.

Definition Knight_candidates (self : Figure) : list (Z * Z) :=
  let x := Cell.x (Figure._current_position self) in
  let y := Cell.y (Figure._current_position self) in
  [ (x - 1, y + 2); (x - 1, y - 2); (x + 1, y + 2); (x + 1, y - 2);
    (x + 2, y - 1); (x - 2, y - 1); (x + 2, y + 1); (x - 2, y + 1) ].

Definition Pawn_candidates (self : Figure) : list (Z * Z) :=
  let x := Cell.x (Figure._current_position self) in
  let y := Cell.y (Figure._current_position self) in
  [ (x, y + Figure._color self);
    (x - 1, y + Figure._color self);
    (x + 1, y + Figure._color self) ].

(** [figure.get_possible_moves()]: [Knight] and [Pawn] override the method
    of [Figure]. *)
Definition Figure_get_possible_moves (self : Figure) : M (list Cell) :=
  match Figure.kind self with
  | Knight => try_candidates self (Knight_candidates self)
  | Pawn => try_candidates self (Pawn_candidates self)
  | _ => try_candidates self all_cells
  end.

(** [State.get_possible_moves] *)
Definition State_get_possible_moves (cell : Cell) : M (list Cell) :=
  let* s := get_self in
  if State.is_game_over s then ret []
  else match State_get_by_cell s cell with
       | Some figure => Figure_get_possible_moves figure
       | None => ret []
       end.

Fixpoint possible_moves_scan (color : Z) (coords : list (Z * Z)) : M bool :=
  match coords with
  | [] => ret false
  | (x, y) :: rest =>
      let* c := lift (Cell_init x y) in
      let* s := get_self in
      match State_get_by_cell s c with
      | None => possible_moves_scan color rest
      | Some figure =>
          if negb (Figure._color figure =? color)
          then possible_moves_scan color rest
          else
            let* found := Figure_get_possible_moves figure in
            if negb (Z.of_nat (length found) =? 0) then ret true
            else possible_moves_scan color rest
      end
  end.

(** [State._is_there_possible_moves_by_color] *)
Definition State__is_there_possible_moves_by_color (color : Z) : M bool :=
  if negb ((color =? -1) || (color =? 1))
  then raise (ValueError "Color must be either 1 or -1.")
  else possible_moves_scan color all_cells.

Definition set_game_over (s : State) (winner : Z) : State :=
  State.mk true winner
           (State._white_king_position s) (State._black_king_position s)
           (State.board s) (State.number_of_moves s) (State._is_original s).

(** [State._check_on_game_over] *)
Definition State__check_on_game_over : M unit :=
  let* s := get_self in
  let* possible_moves_presence :=
    State__is_there_possible_moves_by_color (State_whose_move s) in
  let* s := get_self in
  let* is_king_in_check :=
    lift (State__is_king_in_check s (State_whose_move s)) in
  if negb possible_moves_presence
  then
    if is_king_in_check
    then put_self (set_game_over s (State_whose_move s * -1))
    else put_self (set_game_over s 0)
  else ret tt.

(** [State.make_move] *)
Definition State_make_move : Move -> M unit :=
  State_make_move_with State__check_on_game_over.

(** ** Building a state *)

(** [str.isupper] and [str.lower] on one ASCII character. *)
Definition isupper (c : ascii) : bool :=
  ((65 <=? N_of_ascii c) && (N_of_ascii c <=? 90))%N.

Definition lower (c : ascii) : ascii :=
  if isupper c then ascii_of_N (N_of_ascii c + 32) else c.

(** [LETTER_TO_FIGURE] *)
Definition LETTER_TO_FIGURE (letter : ascii) : result Kind :=
  if Ascii.eqb letter "k" then inr King
  else if Ascii.eqb letter "q" then inr Queen
  else if Ascii.eqb letter "b" then inr Bishop
  else if Ascii.eqb letter "h" then inr Knight
  else if Ascii.eqb letter "r" then inr Rook
  else if Ascii.eqb letter "p" then inr Pawn
  else inl KeyError.

(** [_get_figure_by_letter] *)
Definition _get_figure_by_letter (current_position : Cell) (letter : ascii)
  : result Figure :=
  let* figure := LETTER_TO_FIGURE (lower letter) in
  Figure_init figure current_position (if isupper letter then 1 else -1).

(** [text.split('\n')], each line as a list of characters. *)
Fixpoint split_lines (text : string) (line : list ascii) : list (list ascii) :=
  match text with
  | EmptyString => [line]
  | String c rest =>
      if Ascii.eqb c "010" then line :: split_lines rest []
      else split_lines rest (line ++ [c])
  end.

Fixpoint map_result {A B} (f : A -> result B) (l : list A) : result (list B) :=
  match l with
  | [] => inr []
  | a :: l =>
      let* b := f a in
      let* bs := map_result f l in
      inr (b :: bs)
  end.

(** [State.board_from_text]: text line [y] (from the top) fills board row
    [8 - y - 1]. *)
Definition board_from_text (text_board : string) : result Board :=
  let text_board_as_list := split_lines text_board [] in
  let* rows :=
    map_result (fun y =>
      map_result (fun x =>
        match text_board_as_list !! Z.to_nat y with
        | None => inl IndexError
        | Some line =>
            match line !! Z.to_nat x with
            | None => inl IndexError
            | Some letter =>
                if Ascii.eqb letter "." then inr None
                else
                  let* c := Cell_init (x + 1) (8 - y) in
                  let* figure := _get_figure_by_letter c letter in
                  inr (Some figure)
            end
        end) (range 0 8)) (range 0 8) in
  inr (reverse rows).

Definition initial_position : string :=
  "rhbqkbhr" ++ String "010"
  ("pppppppp" ++ String "010"
  ("........" ++ String "010"
  ("........" ++ String "010"
  ("........" ++ String "010"
  ("........" ++ String "010"
  ("PPPPPPPP" ++ String "010"
  ("RHBQKBHR" ++ String "010" ""))))))).

(** [State.__init__]: the new state object and its empty [moves] list. *)
Definition State_init : result World :=
  let* board := board_from_text initial_position in
  inr (State.mk false 0 (Cell.mk 5 1) (Cell.mk 5 8) board 0 true, []).

(** A sequence of [make_move] calls, stopping at the first one that raises. *)
Fixpoint play (moves : list Move) (w : World) : result unit * World :=
  match moves with
  | [] => (inr tt, w)
  | m :: rest =>
      match State_make_move m w with
      | (inr _, w') => play rest w'
      | (inl e, w') => (inl e, w')
      end
  end.

(** [State.board_to_str], one string per rank from rank 8 down to rank 1. *)
Definition basic_letter (k : Kind) : ascii :=
  match k with
  | King => "k" | Queen => "q" | Bishop => "b"
  | Knight => "h" | Rook => "r" | Pawn => "p"
  end%char.

Definition letter (f : Figure) : ascii :=
  if Figure._color f =? 1
  then ascii_of_N (N_of_ascii (basic_letter (Figure.kind f)) - 32)
  else basic_letter (Figure.kind f).

Definition board_to_str (self : State) : list string :=
  (fun y =>
     string_of_list_ascii
       ((fun x => match State_get_by_cell self (Cell.mk x y) with
                  | None => "."%char
                  | Some figure => letter figure
                  end) <$> range 1 9)) <$> reverse (range 1 9).

(** The move from cell [(a, b)] to cell [(c, d)]. *)
Definition mv (a b c d : Z) : Move := mkMove (Cell.mk a b) (Cell.mk c d).

(** The world right after [State()]. *)
Definition new_game : World :=
  match State_init with
  | inr w => w
  | inl _ => (State.mk false 0 (Cell.mk 5 1) (Cell.mk 5 8) [] 0 true, [])
  end.

(** Observables of a world. *)
Definition history (w : World) : list EnumeratedMove := snd w.
Definition ply (w : World) : Z := State.number_of_moves (fst w).
Definition figure_at (w : World) (a b : Z) : option Figure :=
  State_get_by_cell (fst w) (Cell.mk a b).
Definition after (moves : list Move) : World := snd (play moves new_game).

(** 1. e3 f6 2. Qh5+ : black is in check and only g7-g6 answers it. *)
Definition game_check : list Move :=
  [mv 5 2 5 3; mv 6 7 6 6; mv 4 1 8 5].

(** 1. e4 a6 2. e5 a5 3. e6 d6 : the black d-pawn has just advanced one
    square and stands beside the white pawn on e6. *)
Definition game_single_step : list Move :=
  [mv 5 2 5 4; mv 1 7 1 6; mv 5 4 5 5; mv 1 6 1 5; mv 5 5 5 6; mv 4 7 4 6].

(** 1. e4 f6 2. Qf3 Kf7 3. Qf4 Ke6 4. Bc4+ : the bishop checks the king on
    e6 over d5, every flight square is covered or held by a black figure,
    and d7-d5 is the one move that answers the check. *)
Definition game_false_mate : list Move :=
  [mv 5 2 5 4; mv 6 7 6 6; mv 4 1 6 3; mv 5 8 6 7;
   mv 6 3 6 4; mv 6 7 5 6; mv 6 1 3 4].

(** White castles short (the rook lands on f1 with no move recorded), clears
    the squares around f1 and g1 and walks the king to g3, while black
    shuffles the queen's knight; black is to move with the king still on e8. *)
Definition game_castled_rook : list Move :=
  [mv 5 2 5 4; mv 2 8 3 6; mv 7 1 6 3; mv 3 6 2 8; mv 6 1 3 4; mv 2 8 3 6;
   mv 5 1 8 1; mv 3 6 2 8; mv 4 2 4 3; mv 2 8 3 6; mv 6 3 4 4; mv 3 6 2 8;
   mv 6 2 6 4; mv 2 8 3 6; mv 7 2 7 4; mv 3 6 2 8; mv 8 2 8 3; mv 2 8 3 6;
   mv 4 1 4 2; mv 3 6 2 8; mv 7 1 7 2; mv 2 8 3 6; mv 7 2 7 3].

(** 1. Nf3 a6 : the knight stands in front of the pawn on f2. *)
Definition game_blocked_pawn : list Move :=
  [mv 7 1 6 3; mv 1 7 1 6].

(** ** Well-formed states *)

Definition in_board (x y : Z) : Prop := 1 <= x <= 8 /\ 1 <= y <= 8.

Definition valid_cell (c : Cell) : Prop := in_board (Cell.x c) (Cell.y c).

(** An 8x8 grid in which every figure records the cell it stands on. *)
Definition wf_board (b : Board) : Prop :=
  length b = 8%nat /\
  Forall (fun row => length row = 8%nat) b /\
  forall (c : Cell) (f : Figure),
    valid_cell c -> Board_get b c = Some f -> Figure._current_position f = c.

Definition wf_state (s : State) : Prop :=
  wf_board (State.board s) /\
  valid_cell (State._white_king_position s) /\
  valid_cell (State._black_king_position s).

(** The figures found on the board of [s] carry a position on the board. *)
Definition figures_on_board (s : State) : Prop :=
  forall (c : Cell) (f : Figure),
    State_get_by_cell s c = Some f -> valid_cell (Figure._current_position f).

(** Executable form of [wf_state]. *)
Definition in_boardb (x y : Z) : bool :=
  (1 <=? x) && (x <=? 8) && (1 <=? y) && (y <=? 8).

Definition placedb (b : Board) (xy : Z * Z) : bool :=
  match Board_get b (Cell.mk (fst xy) (snd xy)) with
  | Some f => Cell_eq (Figure._current_position f) (Cell.mk (fst xy) (snd xy))
  | None => true
  end.

Definition wf_boardb (b : Board) : bool :=
  (length b =? 8)%nat
  && forallb (fun row => (length row =? 8)%nat) b
  && forallb (placedb b) all_cells.

Definition wf_stateb (s : State) : bool :=
  wf_boardb (State.board s)
  && in_boardb (Cell.x (State._white_king_position s))
               (Cell.y (State._white_king_position s))
  && in_boardb (Cell.x (State._black_king_position s))
               (Cell.y (State._black_king_position s)).

(** The state left by [Figure._make_move]. *)
Definition moved_figure (s : State) (self : Figure) (cell : Cell) : Figure :=
  Figure.mk (Figure.kind self) cell (Figure._color self)
    (Figure.moves self ++
       [mkEnumeratedMove (mkMove (Figure._current_position self) cell)
          (State.number_of_moves s + 1)])
    (Figure.number_of_moves self + 1).

Definition moved_state (s : State) (self : Figure) (cell : Cell) : State :=
  State_board_set
    (State_board_set (set_number_of_moves s (State.number_of_moves s + 1))
       cell (Some (moved_figure s self cell)))
    (Figure._current_position self) None.

(** ** The shared [moves] list

    [m] only ever appends to the list object, whatever state object it runs
    on and whether it returns or raises. *)
Definition grows {A} (m : M A) : Prop :=
  forall w : World, exists ext, snd (snd (m w)) = snd w ++ ext.

(** [s] with [_is_original] cleared: what [get_copy] returns for a state
    whose board is an 8x8 grid ([State_get_copy_eq]). *)
Definition as_copy (s : State) : State :=
  State.mk (State.is_game_over s) (State.winning_side s)
    (State._white_king_position s) (State._black_king_position s)
    (State.board s) (State.number_of_moves s) false.

(** ** Sound states

    Besides standing on the cell it records, every figure of a sound state
    has a colour among 1 and -1 and as many recorded moves as its
    [number_of_moves] says. *)
Definition sound_figure (f : Figure) : Prop :=
  (Figure._color f = -1 \/ Figure._color f = 1) /\
  Figure.number_of_moves f = Z.of_nat (length (Figure.moves f)).

Definition sound_state (s : State) : Prop :=
  wf_state s /\
  forall (c : Cell) (f : Figure),
    valid_cell c -> State_get_by_cell s c = Some f -> sound_figure f.

(** Executable form of [sound_state]. *)
Definition sound_figureb (f : Figure) : bool :=
  ((Figure._color f =? -1) || (Figure._color f =? 1))
  && (Figure.number_of_moves f =? Z.of_nat (length (Figure.moves f))).

Definition sound_cellb (s : State) (xy : Z * Z) : bool :=
  match State_get_by_cell s (Cell.mk (fst xy) (snd xy)) with
  | Some f => sound_figureb f
  | None => true
  end.

Definition sound_stateb (s : State) : bool :=
  wf_stateb s && forallb (sound_cellb s) all_cells.

(** [s'] differs from [s] by updates of the board or of a king cache. *)
Definition same_game (s s' : State) : Prop :=
  State.number_of_moves s' = State.number_of_moves s /\
  State._is_original s' = State._is_original s /\
  State.is_game_over s' = State.is_game_over s /\
  State.winning_side s' = State.winning_side s.

(** The effect of one accepted [figure.make_move] on the state object. *)
Definition committed (s s' : State) : Prop :=
  sound_state s' /\
  State.number_of_moves s' = State.number_of_moves s + 1 /\
  State._is_original s' = State._is_original s /\
  State.is_game_over s' = State.is_game_over s /\
  State.winning_side s' = State.winning_side s.

(** What a [make_move] method of a figure does to the world [(s, h)]: it
    raises nothing but [ValueError], a rejection leaves the state object as
    it was, an acceptance commits one move; the shared list is extended in
    both cases, by two entries at least when the move is accepted. *)
Definition move_outcome (s : State) (h : list EnumeratedMove)
  (r : result unit * World) : Prop :=
  exists ext,
    snd (snd r) = h ++ ext /\
    match fst r with
    | inl e => (exists msg, e = ValueError msg) /\ fst (snd r) = s
    | inr _ => committed s (fst (snd r)) /\ (2 <= length ext)%nat
    end.

(** A [Move] between two cells of the board, as [Cell.__init__] builds
    them. *)
Definition valid_move (m : Move) : Prop :=
  valid_cell (cell_from m) /\ valid_cell (cell_to m).

(** What [State.make_move] does to the world [(s, h)]. *)
Definition make_move_outcome (s : State) (h : list EnumeratedMove)
  (r : result unit * World) : Prop :=
  exists ext,
    snd (snd r) = h ++ ext /\
    match fst r with
    | inl e => (exists msg, e = ValueError msg) /\ fst (snd r) = s
    | inr _ =>
        sound_state (fst (snd r)) /\
        State.number_of_moves (fst (snd r)) = State.number_of_moves s + 1 /\
        State._is_original (fst (snd r)) = State._is_original s /\
        (State.is_game_over s = true ->
         State.is_game_over (fst (snd r)) = true) /\
        (2 <= length ext)%nat
    end.

(** ** Independence of [_is_original] and of the [moves] list

    [reflag g s] is [s] with [_is_original] replaced by [g] of it:
    [reflag (fun _ => false) s] is the copy of [s]. *)
Definition reflag (g : bool -> bool) (s : State) : State :=
  State.mk (State.is_game_over s) (State.winning_side s)
    (State._white_king_position s) (State._black_king_position s)
    (State.board s) (State.number_of_moves s) (g (State._is_original s)).

(** [m1] run on [reflag g s] with any list does what [m2] does on [s] with
    any other list: same result or exception, same final state up to the
    flag. *)
Definition tracks {A} (g : bool -> bool) (s : State) (m1 m2 : M A) : Prop :=
  forall h1 h2 : list EnumeratedMove,
    fst (m1 (reflag g s, h1)) = fst (m2 (s, h2)) /\
    fst (snd (m1 (reflag g s, h1))) = reflag g (fst (snd (m2 (s, h2)))).

(** Whether [State.make_move] accepts [move] on [s].  The list the call is
    started with does not matter ([State_make_move_ignores_history]). *)
Definition accepts (s : State) (move : Move) : bool :=
  is_ok (fst (State_make_move move (s, []))).

(** A move that the enumeration finds: accepted by [make_move], and not the
    two-square advance of a pawn. *)
Definition enumerated_move (s : State) (c d : Cell) : Prop :=
  valid_cell c /\ valid_cell d /\
  accepts s (mkMove c d) = true /\
  forall f, State_get_by_cell s c = Some f -> Figure.kind f = Pawn ->
    Cell.y d <> Cell.y c + 2 * Figure._color f.


(** The figure that stands on [cell] once [self] has moved there, of class
    [k]: a pawn stays a pawn unless it is promoted. *)
Definition landed (k : Kind) (s : State) (self : Figure) (cell : Cell)
  : Figure :=
  Figure.mk k cell (Figure._color self)
    (Figure.moves self ++
       [mkEnumeratedMove (mkMove (Figure._current_position self) cell)
          (State.number_of_moves s + 1)])
    (Figure.number_of_moves self + 1).

(** The state object after an accepted forward move or capture of the pawn
    [self]: [_make_move], then [transform_to_queen] on the last rank. *)
Definition Pawn_committed (s : State) (self : Figure) (cell : Cell) : State :=
  if is_transformation self cell
  then State_board_set (moved_state s self cell) cell
         (Some (landed Queen s self cell))
  else moved_state s self cell.

(** 1. a4 b5 2. axb5 Na6 3. b6 h6 4. b7 h5 : the white pawn on b7 has the
    empty cell b8 in front of it. *)
Definition game_promotion : list Move :=
  [mv 1 2 1 4; mv 2 7 2 5; mv 1 4 2 5; mv 2 8 1 6;
   mv 2 5 2 6; mv 8 7 8 6; mv 2 6 2 7; mv 8 6 8 5].

(** 1. e4 a6 2. e5 d5 : the black d-pawn has just advanced two squares and
    stands beside the white pawn on e5. *)
Definition game_double_step : list Move :=
  [mv 5 2 5 4; mv 1 7 1 6; mv 5 4 5 5; mv 4 7 4 5].

(** [s] with the king cache of [color] set to [cell], as
    [change_king_position_by_color] leaves it for a colour among 1, -1. *)
Definition with_king (s : State) (cell : Cell) (color : Z) : State :=
  if color =? 1 then
    State.mk (State.is_game_over s) (State.winning_side s)
      cell (State._black_king_position s)
      (State.board s) (State.number_of_moves s) (State._is_original s)
  else
    State.mk (State.is_game_over s) (State.winning_side s)
      (State._white_king_position s) cell
      (State.board s) (State.number_of_moves s) (State._is_original s).

(** 1. e4 e5 2. Nf3 Nc6 3. Bc4 Bc5 : white may castle short. *)
Definition game_before_castling : list Move :=
  [mv 5 2 5 4; mv 5 7 5 5; mv 7 1 6 3; mv 2 8 3 6; mv 6 1 3 4; mv 6 8 3 5].

(** The state object after an accepted castling of the king [self] with the
    figure [rook]: king to [kn], cache updated, rook (or whatever stands on
    its cell by then) to [rn]. *)
Definition castled (s : State) (self rook : Figure) (kn rn : Cell) : State :=
  let t := with_king (moved_state s self kn) kn (Figure._color self) in
  match State_get_by_cell t (Figure._current_position rook) with
  | Some x =>
      State_board_set
        (State_board_set t rn
           (Some (Figure.mk (Figure.kind x) rn (Figure._color x)
                    (Figure.moves x) (Figure.number_of_moves x))))
        (Figure._current_position rook) None
  | None => t
  end.



(** [State.last_move]: the entry of the [moves] list at index
    [number_of_moves - 1]. *)
Definition State_last_move : M (option EnumeratedMove) :=
  fun w =>
    if 0 <? State.number_of_moves (fst w) then
      match snd w !! Z.to_nat (State.number_of_moves (fst w) - 1) with
      | Some m => (inr (Some m), w)
      | None => (inl IndexError, w)
      end
    else (inr None, w).

(** The string [State.board_to_str] returns: the lines of [board_to_str]
    joined by newlines. *)
Definition State_board_to_str (self : State) : string :=
  String.concat (String "010" EmptyString) (board_to_str self).

(** The figure [_get_figure_by_letter] builds on [cell] for the letter of
    [f]: same class and colour, no move recorded. *)
Definition fresh_figure (cell : Cell) (f : Figure) : Figure :=
  Figure.mk (Figure.kind f) cell (Figure._color f) [] 0.

(** ** Moves given as text

    A Python [str] is modelled by [string], read as a sequence of code
    points below 256; the library functions below are given on that
    domain. *)

(** Lower-case hexadecimal digit. *)
Definition hex_digit (n : N) : ascii :=
  if (n <? 10)%N then ascii_of_N (48 + n) else ascii_of_N (87 + n).

(** [repr] of a one-character string. *)
Definition repr_char (c : ascii) : string :=
  let n := N_of_ascii c in
  if (n =? 39)%N then String "034" (String c (String "034" EmptyString))
  else if (n =? 92)%N then "'\\'"
  else if (n =? 9)%N then "'\t'"
  else if (n =? 10)%N then "'\n'"
  else if (n =? 13)%N then "'\r'"
  else if (n <? 32)%N || ((127 <=? n)%N && (n <=? 160)%N) || (n =? 173)%N
  then String "'" (String "\" (String "x"
         (String (hex_digit (n / 16)) (String (hex_digit (n mod 16))
            (String "'" EmptyString)))))
  else String "'" (String c (String "'" EmptyString)).

(** [int] of a one-character string. *)
Definition int_char (c : ascii) : result Z :=
  let n := N_of_ascii c in
  if (48 <=? n)%N && (n <=? 57)%N then inr (Z.of_N n - 48)
  else inl (ValueError
              ("invalid literal for int() with base 10: " ++ repr_char c)).

(** [Cell.from_abbreviation] *)
Definition Cell_from_abbreviation (abbreviation : string) : result Cell :=
  if negb (String.length abbreviation =? 2)%nat
  then inl (ValueError "Incorrect abbreviation.")
  else
    match abbreviation with
    | String c0 (String c1 _) =>
        let* rank := int_char c1 in
        Cell_init (Z.of_N (N_of_ascii c0) - 97 + 1) rank
    | _ => inl IndexError
    end.

(** [str.isspace] on one character. *)
Definition isspace (c : ascii) : bool :=
  let n := N_of_ascii c in
  ((9 <=? n) && (n <=? 13) || (28 <=? n) && (n <=? 32)
   || (n =? 133) || (n =? 160))%N.

(** [text.split()]: the maximal runs of characters that are not
    whitespace; [word] is the run read so far. *)
Fixpoint split_whitespace (text : string) (word : string) : list string :=
  match text with
  | EmptyString =>
      match word with EmptyString => [] | _ => [word] end
  | String c rest =>
      if isspace c then
        match word with
        | EmptyString => split_whitespace rest EmptyString
        | _ => word :: split_whitespace rest EmptyString
        end
      else split_whitespace rest (word ++ String c EmptyString)
  end.

(** [l[i]] for an index [i] that is not negative. *)
Definition list_index {A} (l : list A) (i : nat) : result A :=
  match l !! i with
  | Some a => inr a
  | None => inl IndexError
  end.

(** [State.make_move_by_abbreviation] *)
Definition State_make_move_by_abbreviation (abbreviation : string) : M unit :=
  let abbreviation_cells := split_whitespace abbreviation EmptyString in
  let* first := lift (list_index abbreviation_cells 0) in
  let* cell_from := lift (Cell_from_abbreviation first) in
  let* second := lift (list_index abbreviation_cells 1) in
  let* cell_to := lift (Cell_from_abbreviation second) in
  State_make_move (mkMove cell_from cell_to).

(** The two-character name of a cell: the file as a letter from [a] on,
    the rank as a digit. *)
Definition abbreviation_of (c : Cell) : string :=
  String (ascii_of_N (Z.to_N (96 + Cell.x c)))
    (String (ascii_of_N (Z.to_N (48 + Cell.y c))) EmptyString).

(** * Properties *)

(** Closed facts about concrete games are settled by running the model. *)
Ltac run_model :=
  cbv zeta;
  repeat match goal with |- _ /\ _ => split end;
  vm_compute; reflexivity.

(** Unfolding one sequencing step of either monad. *)
Ltac unbind := unfold bind, result_bind, M_bind; cbn beta iota.

(** ** The board as an 8x8 array *)

Section Boards.

Lemma Cell_init_in_board (x y : Z) :
  in_board x y -> Cell_init x y = inr (Cell.mk x y).
Proof.
  intros [Hx Hy]. unfold Cell_init.
  destruct (Z.leb_spec 1 x), (Z.leb_spec x 8),
           (Z.leb_spec 1 y), (Z.leb_spec y 8); try lia; reflexivity.
Qed.

Lemma Cell_init_inv (x y : Z) (c : Cell) :
  Cell_init x y = inr c -> c = Cell.mk x y /\ in_board x y.
Proof.
  unfold Cell_init, in_board.
  destruct (Z.leb_spec 1 x), (Z.leb_spec x 8),
           (Z.leb_spec 1 y), (Z.leb_spec y 8); simpl; intros E;
    inversion E; split; [reflexivity | lia].
Qed.

Lemma Cell_eq_true (a b : Cell) : Cell_eq a b = true <-> a = b.
Proof.
  unfold Cell_eq. rewrite andb_true_iff, !Z.eqb_eq.
  destruct a, b; simpl. split.
  - intros [-> ->]. reflexivity.
  - intros E. inversion E. auto.
Qed.

Lemma Board_get_set_eq (b : Board) (c : Cell) (o : option Figure) :
  wf_board b -> valid_cell c -> Board_get (Board_set b c o) c = o.
Proof.
  intros (Hlen & Hrows & _) [Hx Hy]. unfold Board_get, Board_set, Board in *.
  rewrite list_lookup_alter_eq.
  destruct (lookup_lt_is_Some_2 b (Z.to_nat (Cell.y c - 1))) as [row Hrow];
    [lia|].
  rewrite Hrow. simpl.
  rewrite list_lookup_insert_eq; [reflexivity|].
  rewrite Forall_lookup in Hrows. rewrite (Hrows _ _ Hrow). lia.
Qed.

Lemma Board_get_set_ne (b : Board) (c c' : Cell) (o : option Figure) :
  valid_cell c -> valid_cell c' -> c <> c' ->
  Board_get (Board_set b c o) c' = Board_get b c'.
Proof.
  intros [Hx Hy] [Hx' Hy'] Hne. unfold Board_get, Board_set, Board in *.
  destruct (decide (Z.to_nat (Cell.y c - 1) = Z.to_nat (Cell.y c' - 1)))
    as [E|E].
  - rewrite E, list_lookup_alter_eq.
    destruct (b !! Z.to_nat (Cell.y c' - 1)) as [row|]; simpl; [|reflexivity].
    rewrite list_lookup_insert_ne; [reflexivity|].
    intros E'. apply Hne. destruct c, c'; simpl in *. f_equal; lia.
  - rewrite list_lookup_alter_ne by exact E. reflexivity.
Qed.

Lemma Board_get_set_cases (b : Board) (c c' : Cell) (o : option Figure) :
  Board_get (Board_set b c o) c' = o \/
  Board_get (Board_set b c o) c' = Board_get b c'.
Proof.
  unfold Board_get, Board_set, Board in *.
  destruct (decide (Z.to_nat (Cell.y c - 1) = Z.to_nat (Cell.y c' - 1)))
    as [E|E].
  - rewrite E, list_lookup_alter_eq.
    destruct (b !! Z.to_nat (Cell.y c' - 1)) as [row|]; simpl; [|auto].
    destruct (decide (Z.to_nat (Cell.x c - 1) = Z.to_nat (Cell.x c' - 1)))
      as [E'|E'].
    + rewrite E'.
      destruct (decide (Z.to_nat (Cell.x c' - 1) < length row)%nat) as [L|L].
      * rewrite list_lookup_insert_eq by exact L. auto.
      * rewrite list_insert_ge by lia. auto.
    + rewrite list_lookup_insert_ne by exact E'. auto.
  - rewrite list_lookup_alter_ne by exact E. auto.
Qed.

Lemma wf_board_set (b : Board) (c : Cell) (o : option Figure) :
  wf_board b -> valid_cell c ->
  (forall f, o = Some f -> Figure._current_position f = c) ->
  wf_board (Board_set b c o).
Proof.
  intros Hwf Hc Ho. pose proof Hwf as (Hlen & Hrows & Hfig).
  split; [|split].
  - unfold Board_set, Board in *. rewrite length_alter. exact Hlen.
  - unfold Board_set, Board in *. apply Forall_alter; [exact Hrows|].
    intros row _ Hrow. rewrite length_insert. exact Hrow.
  - intros c' f Hc' Hf. destruct (Cell_eq c c') eqn:E.
    + apply Cell_eq_true in E. subst c'.
      rewrite Board_get_set_eq in Hf by assumption. exact (Ho f Hf).
    + rewrite Board_get_set_ne in Hf; [exact (Hfig c' f Hc' Hf)|assumption..|].
      intros ->. rewrite (proj2 (Cell_eq_true c' c') eq_refl) in E.
      discriminate.
Qed.

(** Every figure stored in a well-formed board stands on a board cell. *)
Lemma wf_board_figures_valid (b : Board) (c : Cell) (f : Figure) :
  wf_board b -> Board_get b c = Some f ->
  valid_cell (Figure._current_position f).
Proof.
  intros (Hlen & Hrows & Hfig) Hf. unfold Board_get, Board in *.
  set (i := Z.to_nat (Cell.y c - 1)) in *.
  set (j := Z.to_nat (Cell.x c - 1)) in *.
  assert (Hget : exists row, b !! i = Some row /\ row !! j = Some (Some f)).
  { destruct (b !! i) as [row|] eqn:Hrow; [|discriminate].
    destruct (row !! j) as [o|] eqn:Ho; [|discriminate]. subst o. eauto. }
  destruct Hget as (row & Hrow & Hj).
  assert (Hi : (i < 8)%nat).
  { rewrite <- Hlen. apply lookup_lt_is_Some. eauto. }
  assert (Hj' : (j < 8)%nat).
  { rewrite Forall_lookup in Hrows. rewrite <- (Hrows i row Hrow).
    apply lookup_lt_is_Some. eauto. }
  set (c' := Cell.mk (Z.of_nat j + 1) (Z.of_nat i + 1)).
  assert (Hc' : valid_cell c') by (split; simpl; lia).
  rewrite (Hfig c' f Hc'); [exact Hc'|].
  subst c'. cbn [Cell.x Cell.y].
  replace (Z.to_nat (Z.of_nat i + 1 - 1)) with i by lia.
  replace (Z.to_nat (Z.of_nat j + 1 - 1)) with j by lia.
  rewrite Hrow, Hj. reflexivity.
Qed.

End Boards.

Lemma all_cells_in_board :
  Forall (fun xy => in_board (fst xy) (snd xy)) all_cells.
Proof.
  apply Forall_forall. intros [x y] Hin. unfold all_cells in Hin.
  apply list_elem_of_In, in_concat in Hin. destruct Hin as (row & Hrow & Hxy).
  apply list_elem_of_In in Hrow, Hxy.
  apply list_elem_of_fmap in Hrow. destruct Hrow as (y' & -> & Hy).
  apply list_elem_of_fmap in Hxy. destruct Hxy as (x' & E & Hx).
  inversion E; subst. unfold range in *.
  apply elem_of_seqZ in Hx, Hy. split; simpl; lia.
Qed.

Lemma all_cells_complete (x y : Z) : in_board x y -> In (x, y) all_cells.
Proof.
  intros [Hx Hy]. unfold all_cells. apply in_concat.
  exists ((fun x' => (x', y)) <$> range 1 9). split.
  - apply list_elem_of_In, list_elem_of_fmap. exists y. split; [reflexivity|].
    unfold range. apply elem_of_seqZ. lia.
  - apply list_elem_of_In, list_elem_of_fmap. exists x. split; [reflexivity|].
    unfold range. apply elem_of_seqZ. lia.
Qed.

Lemma in_boardb_sound (x y : Z) : in_boardb x y = true -> in_board x y.
Proof.
  unfold in_boardb, in_board. rewrite !andb_true_iff, !Z.leb_le. tauto.
Qed.

Lemma wf_boardb_sound (b : Board) : wf_boardb b = true -> wf_board b.
Proof.
  unfold wf_boardb. rewrite !andb_true_iff, Nat.eqb_eq, !forallb_forall.
  intros [[Hlen Hrows] Hplaced]. split; [exact Hlen|]. split.
  - apply Forall_forall. intros row Hin.
    apply list_elem_of_In, Hrows in Hin. apply Nat.eqb_eq. exact Hin.
  - intros [x y] f Hc Hf.
    specialize (Hplaced (x, y) (all_cells_complete x y Hc)).
    unfold placedb in Hplaced. simpl in Hplaced. rewrite Hf in Hplaced.
    apply Cell_eq_true. exact Hplaced.
Qed.

Lemma wf_stateb_sound (s : State) : wf_stateb s = true -> wf_state s.
Proof.
  unfold wf_stateb. rewrite !andb_true_iff. intros [[Hb Hw] Hk].
  split; [apply wf_boardb_sound; exact Hb|].
  split; apply in_boardb_sound; assumption.
Qed.

(** ** The attack tests never raise on a well-formed state *)

Section NoRaise.

Lemma sign_spec (n : Z) :
  (0 < n /\ sign n = 1) \/ (n < 0 /\ sign n = -1) \/ (n = 0 /\ sign n = 0).
Proof.
  unfold sign. destruct (Z.ltb_spec 0 n), (Z.ltb_spec n 0); lia.
Qed.

Lemma line_clear_ok (s : State) (coords : list (Z * Z)) :
  Forall (fun xy => in_board (fst xy) (snd xy)) coords ->
  exists b, line_clear s coords = inr b.
Proof.
  induction 1 as [|[x y] rest Hxy _ IH]; simpl; [eauto|].
  rewrite (Cell_init_in_board x y Hxy). unbind.
  destruct (State_get_by_cell s _); eauto.
Qed.

Lemma vertical_clear_ok (s : State) (pos cell : Cell) :
  valid_cell pos -> valid_cell cell ->
  exists b, vertical_clear s pos cell = inr b.
Proof.
  intros [_ Hy] [Hx' Hy']. apply line_clear_ok.
  apply Forall_fmap, Forall_forall. intros y Hin. unfold range in Hin.
  apply elem_of_seqZ in Hin. split; simpl; lia.
Qed.

Lemma horizontal_clear_ok (s : State) (pos cell : Cell) :
  valid_cell pos -> valid_cell cell ->
  exists b, horizontal_clear s pos cell = inr b.
Proof.
  intros [Hx _] [Hx' Hy']. apply line_clear_ok.
  apply Forall_fmap, Forall_forall. intros x Hin. unfold range in Hin.
  apply elem_of_seqZ in Hin. split; simpl; lia.
Qed.

(** The walk reaches [cell] within [|dx|] rounds, so it neither leaves the
    board nor runs out of rounds. *)
Lemma diagonal_walk_ok (s : State) (cell : Cell) (fuel : nat) :
  forall x y : Z,
    in_board x y -> valid_cell cell ->
    Z.abs (Cell.x cell - x) = Z.abs (Cell.y cell - y) ->
    Cell.x cell <> x ->
    (Z.abs (Cell.x cell - x) <= Z.of_nat fuel) ->
    exists b,
      diagonal_walk fuel s (sign (Cell.x cell - x)) (sign (Cell.y cell - y))
        x y cell = inr b.
Proof.
  induction fuel as [|fuel IH]; intros x y Hxy Hc Habs Hne Hfuel; [lia|].
  cbn [diagonal_walk].
  set (x1 := x + sign (Cell.x cell - x)).
  set (y1 := y + sign (Cell.y cell - y)).
  assert (H1 : in_board x1 y1).
  { destruct Hxy as [? ?], Hc as [? ?]. subst x1 y1.
    destruct (sign_spec (Cell.x cell - x)) as [[? ->]|[[? ->]|[? ->]]],
             (sign_spec (Cell.y cell - y)) as [[? ->]|[[? ->]|[? ->]]];
      split; lia. }
  rewrite (Cell_init_in_board x1 y1 H1). unbind.
  destruct (Cell_eq (Cell.mk x1 y1) cell) eqn:Heq; [eauto|].
  destruct (State_get_by_cell s (Cell.mk x1 y1)); [eauto|].
  assert (Hx1 : Cell.x cell <> x1).
  { intros E. assert (Cell.y cell = y1).
    { subst x1 y1.
      destruct (sign_spec (Cell.x cell - x)) as [[? Sx]|[[? Sx]|[? Sx]]],
               (sign_spec (Cell.y cell - y)) as [[? Sy]|[[? Sy]|[? Sy]]];
        rewrite Sx in E; rewrite Sy; lia. }
    unfold Cell_eq in Heq. simpl in Heq.
    rewrite andb_false_iff, !Z.eqb_neq in Heq. lia. }
  assert (Sx : sign (Cell.x cell - x1) = sign (Cell.x cell - x)).
  { subst x1.
    destruct (sign_spec (Cell.x cell - x)) as [[? Sx]|[[? Sx]|[? Sx]]];
      rewrite Sx in *;
      destruct (sign_spec (Cell.x cell - (x + 1))) as [[? T]|[[? T]|[? T]]];
      destruct (sign_spec (Cell.x cell - (x + -1))) as [[? U]|[[? U]|[? U]]];
      try rewrite T; try rewrite U; lia. }
  assert (Habs1 : Z.abs (Cell.x cell - x1) = Z.abs (Cell.y cell - y1) /\
                  Z.abs (Cell.x cell - x1) = Z.abs (Cell.x cell - x) - 1).
  { subst x1 y1.
    destruct (sign_spec (Cell.x cell - x)) as [[? Tx]|[[? Tx]|[? Tx]]],
             (sign_spec (Cell.y cell - y)) as [[? Ty]|[[? Ty]|[? Ty]]];
      rewrite Tx, Ty; lia. }
  assert (Sy : sign (Cell.y cell - y1) = sign (Cell.y cell - y)).
  { destruct Habs1 as [Habs1 Hdec]. subst x1 y1.
    destruct (sign_spec (Cell.x cell - x)) as [[? Tx]|[[? Tx]|[? Tx]]],
             (sign_spec (Cell.y cell - y)) as [[? Ty]|[[? Ty]|[? Ty]]];
      rewrite Tx, Ty in *;
      destruct (sign_spec (Cell.y cell - (y + 1))) as [[? T]|[[? T]|[? T]]];
      destruct (sign_spec (Cell.y cell - (y + -1))) as [[? U]|[[? U]|[? U]]];
      try rewrite T; try rewrite U; lia. }
  rewrite <- Sx, <- Sy. apply IH; [exact H1|exact Hc|tauto|exact Hx1|lia].
Qed.

Lemma diagonal_clear_ok (s : State) (pos cell : Cell) :
  valid_cell pos -> valid_cell cell ->
  Cell_eq pos cell = false ->
  Z.abs (Cell.x pos - Cell.x cell) = Z.abs (Cell.y pos - Cell.y cell) ->
  exists b, diagonal_clear s pos cell = inr b.
Proof.
  intros Hp Hc Hne Habs. unfold diagonal_clear.
  unfold Cell_eq in Hne. rewrite andb_false_iff, !Z.eqb_neq in Hne.
  destruct Hp as [? ?], Hc as [? ?].
  apply diagonal_walk_ok; [split; lia | split; lia | lia | lia | lia].
Qed.

Lemma Figure__is_cell_under_attack_ok (s : State) (f : Figure) (cell : Cell) :
  valid_cell (Figure._current_position f) -> valid_cell cell ->
  exists b, Figure__is_cell_under_attack s f cell = inr b.
Proof.
  intros Hp Hc. unfold Figure__is_cell_under_attack.
  destruct (Figure.kind f); eauto.
  - unfold Queen__is_cell_under_attack.
    destruct (Cell_eq _ cell) eqn:Heq; [eauto|].
    destruct (Z.eqb_spec (Z.abs (Cell.x (Figure._current_position f) - Cell.x cell))
                (Z.abs (Cell.y (Figure._current_position f) - Cell.y cell))).
    { apply diagonal_clear_ok; assumption. }
    destruct (_ =? _); [apply vertical_clear_ok; assumption|].
    destruct (_ =? _); [apply horizontal_clear_ok; assumption|eauto].
  - unfold Bishop__is_cell_under_attack.
    destruct (Cell_eq _ cell) eqn:Heq; [eauto|].
    destruct (Z.eqb_spec (Z.abs (Cell.x (Figure._current_position f) - Cell.x cell))
                (Z.abs (Cell.y (Figure._current_position f) - Cell.y cell)));
      simpl; [|eauto].
    apply diagonal_clear_ok; assumption.
  - unfold Rook__is_cell_under_attack.
    destruct (Cell_eq _ cell) eqn:Heq; [eauto|].
    destruct (_ =? _); [apply vertical_clear_ok; assumption|].
    destruct (_ =? _); [apply horizontal_clear_ok; assumption|eauto].
Qed.

Lemma attack_scan_ok (s : State) (cell : Cell) (color : Z)
  (coords : list (Z * Z)) :
  figures_on_board s -> valid_cell cell ->
  Forall (fun xy => in_board (fst xy) (snd xy)) coords ->
  exists b, attack_scan s cell color coords = inr b.
Proof.
  intros Hs Hc. induction 1 as [|[x y] rest Hxy _ IH]; simpl; [eauto|].
  rewrite (Cell_init_in_board x y Hxy). unbind.
  destruct (State_get_by_cell s (Cell.mk x y)) as [f|] eqn:Hf; [|exact IH].
  destruct (negb _); [exact IH|].
  destruct (Figure__is_cell_under_attack_ok s f cell) as [b Hb];
    [eapply Hs; exact Hf | exact Hc |].
  rewrite Hb. destruct b; eauto.
Qed.

Lemma valid_color_cases (color : Z) :
  negb ((color =? -1) || (color =? 1)) = false <-> color = -1 \/ color = 1.
Proof.
  rewrite negb_false_iff, orb_true_iff, !Z.eqb_eq. tauto.
Qed.

Lemma State__is_king_in_check_ok (s : State) (color : Z) :
  wf_state s -> color = -1 \/ color = 1 ->
  exists b, State__is_king_in_check s color = inr b.
Proof.
  intros (Hb & Hwk & Hbk) Hcol.
  assert (Hfig : figures_on_board s)
    by (intros c f; apply wf_board_figures_valid; exact Hb).
  unfold State__is_king_in_check, State_get_king_position_by_color,
    State__is_cell_under_attack.
  rewrite (proj2 (valid_color_cases color) Hcol). unbind.
  assert (Hcol' : negb ((color * -1 =? -1) || (color * -1 =? 1)) = false)
    by (apply valid_color_cases; lia).
  destruct (color =? 1); unbind; rewrite Hcol';
    apply attack_scan_ok; auto using all_cells_in_board.
Qed.

End NoRaise.

(** ** Move enumeration and the game-over test never raise *)

Section Enumeration.

Lemma try_candidate_ok (self : Figure) (xy : Z * Z) (w : World) :
  exists o h', try_candidate self xy w = (inr o, (fst w, h')).
Proof.
  destruct w as [s h]. unfold try_candidate, get_self. unbind. simpl.
  destruct (Cell_init _ _) as [e|target]; [unfold ret; eauto|].
  unfold run_on. simpl.
  destruct (State_make_move_on_copy _ _) as [r [c' h']]. unbind.
  unfold ret. eauto.
Qed.

Lemma try_candidates_ok (self : Figure) (candidates : list (Z * Z)) :
  forall w : World,
    exists l h', try_candidates self candidates w = (inr l, (fst w, h')).
Proof.
  induction candidates as [|xy rest IH]; intros w; simpl.
  - destruct w. unfold ret. simpl. eauto.
  - unbind. destruct (try_candidate_ok self xy w) as (o & h1 & ->).
    destruct (IH (fst w, h1)) as (l & h2 & ->). unfold ret. simpl. eauto.
Qed.

Lemma Figure_get_possible_moves_ok (self : Figure) (w : World) :
  exists l h', Figure_get_possible_moves self w = (inr l, (fst w, h')).
Proof.
  unfold Figure_get_possible_moves.
  destruct (Figure.kind self); apply try_candidates_ok.
Qed.

Lemma possible_moves_scan_ok (color : Z) (coords : list (Z * Z)) :
  Forall (fun xy => in_board (fst xy) (snd xy)) coords ->
  forall w : World,
    exists b h', possible_moves_scan color coords w = (inr b, (fst w, h')).
Proof.
  induction 1 as [|[x y] rest Hxy _ IH]; intros w; simpl.
  - destruct w. unfold ret. simpl. eauto.
  - unbind. unfold lift. rewrite (Cell_init_in_board x y Hxy).
    unfold get_self. cbn beta iota.
    destruct (State_get_by_cell (fst w) (Cell.mk x y)) as [f|]; [|apply IH].
    destruct (negb (Figure._color f =? color)); [apply IH|].
    unbind. destruct (Figure_get_possible_moves_ok f w) as (l & h1 & ->).
    destruct (negb _); [unfold ret; eauto|]. apply (IH (fst w, h1)).
Qed.

Lemma State__check_on_game_over_ok (w : World) :
  wf_state (fst w) ->
  exists s' h',
    State__check_on_game_over w = (inr tt, (s', h')) /\
    State.board s' = State.board (fst w) /\
    State.number_of_moves s' = State.number_of_moves (fst w) /\
    State._white_king_position s' = State._white_king_position (fst w) /\
    State._black_king_position s' = State._black_king_position (fst w) /\
    State._is_original s' = State._is_original (fst w).
Proof.
  intros Hwf. unfold State__check_on_game_over, get_self. unbind.
  unfold State__is_there_possible_moves_by_color.
  assert (Hcol : State_whose_move (fst w) = -1 \/ State_whose_move (fst w) = 1).
  { unfold State_whose_move. destruct (_ =? _); auto. }
  rewrite (proj2 (valid_color_cases _) Hcol).
  destruct (possible_moves_scan_ok (State_whose_move (fst w)) all_cells
              all_cells_in_board w) as (b & h1 & ->).
  cbn [fst snd]. unfold lift.
  destruct (State__is_king_in_check_ok (fst w) (State_whose_move (fst w)) Hwf Hcol)
    as (chk & ->).
  destruct b; simpl; [unfold ret; eauto 10|].
  destruct chk; unfold put_self; simpl; eauto 10.
Qed.

End Enumeration.

(** ** A pawn move that passed its tests *)

Section PawnAdvance.

Lemma Figure__make_move_run (self : Figure) (cell : Cell) (s : State)
  (h : list EnumeratedMove) :
  Figure__make_move self cell (s, h) =
  (inr tt,
   (moved_state s self cell,
    h ++ [mkEnumeratedMove (mkMove (Figure._current_position self) cell)
            (State.number_of_moves s + 1)])).
Proof. reflexivity. Qed.

Lemma wf_state_board_set (s : State) (c : Cell) (o : option Figure) :
  wf_state s -> valid_cell c ->
  (forall f, o = Some f -> Figure._current_position f = c) ->
  wf_state (State_board_set s c o).
Proof.
  intros (Hb & Hw & Hk) Hc Ho. split; [|split; assumption].
  apply wf_board_set; assumption.
Qed.

Lemma wf_moved_state (s : State) (self : Figure) (cell : Cell) :
  wf_state s -> valid_cell cell -> valid_cell (Figure._current_position self) ->
  wf_state (moved_state s self cell).
Proof.
  intros Hwf Hc Hp. unfold moved_state.
  apply wf_state_board_set; [|exact Hp|discriminate].
  apply wf_state_board_set; [exact Hwf|exact Hc|].
  intros f [= <-]. reflexivity.
Qed.

Lemma moved_state_cell (s : State) (self : Figure) (cell : Cell) :
  wf_state s -> valid_cell cell -> valid_cell (Figure._current_position self) ->
  Figure._current_position self <> cell ->
  State_get_by_cell (moved_state s self cell) cell =
    Some (moved_figure s self cell) /\
  State_get_by_cell (moved_state s self cell) (Figure._current_position self) =
    None.
Proof.
  intros (Hb & _) Hc Hp Hne. unfold moved_state, State_get_by_cell. simpl.
  split.
  - rewrite Board_get_set_ne by assumption.
    apply Board_get_set_eq; assumption.
  - apply Board_get_set_eq; [|assumption].
    apply wf_board_set; [assumption..|]. intros f [= <-]. reflexivity.
Qed.

Lemma Pawn_commit_ok (self : Figure) (cell : Cell) (s : State)
  (h : list EnumeratedMove) :
  wf_state s -> valid_cell cell -> valid_cell (Figure._current_position self) ->
  Figure._current_position self <> cell ->
  Figure._color self = -1 \/ Figure._color self = 1 ->
  exists s' h' f,
    Pawn_commit self cell (s, h) = (inr tt, (s', h')) /\
    wf_state s' /\
    State._is_original s' = State._is_original s /\
    State.number_of_moves s' = State.number_of_moves s + 1 /\
    State_get_by_cell s' (Figure._current_position self) = None /\
    State_get_by_cell s' cell = Some f /\
    Figure._color f = Figure._color self /\
    Figure._current_position f = cell /\
    Figure.moves f = Figure.moves (moved_figure s self cell).
Proof.
  intros Hwf Hc Hp Hne Hcol. unfold Pawn_commit. unbind.
  rewrite Figure__make_move_run.
  destruct (moved_state_cell s self cell Hwf Hc Hp Hne) as [Hcell Hpos].
  pose proof (wf_moved_state s self cell Hwf Hc Hp) as Hwf'.
  destruct (is_transformation self cell).
  - unfold get_self, lift. unbind. cbn [fst snd].
    unfold Pawn_transform_to_queen. rewrite Hcell. unbind.
    unfold Figure_init. cbn [moved_figure Figure._color Figure._current_position].
    rewrite (proj2 (valid_color_cases _) Hcol). unbind.
    unfold put_self. cbn [fst snd Figure.kind Figure._color
                           Figure._current_position Figure.moves
                           Figure.number_of_moves].
    eexists _, _, _. split; [reflexivity|].
    split; [apply wf_state_board_set;
              [exact Hwf'|exact Hc|intros f [= <-]; reflexivity]|].
    split; [reflexivity|]. split; [reflexivity|].
    destruct Hwf' as (Hb' & _).
    split.
    { unfold State_get_by_cell in *. cbn [State_board_set set_board State.board].
      rewrite Board_get_set_ne by (auto; congruence). exact Hpos. }
    split.
    { unfold State_get_by_cell. cbn [State_board_set set_board State.board].
      apply Board_get_set_eq; assumption. }
    repeat split.
  - unfold ret. eexists _, _, _. split; [reflexivity|].
    split; [exact Hwf'|]. split; [reflexivity|]. split; [reflexivity|].
    split; [exact Hpos|]. split; [exact Hcell|]. repeat split.
Qed.

Lemma Pawn_simulate_state (self : Figure) (cell : Cell) (w : World) :
  fst (snd (Pawn_simulate self cell w)) = fst w.
Proof.
  destruct w as [s h]. unfold Pawn_simulate, Figure__make_move_on_copied.
  unbind. unfold get_self, run_on. cbn [fst snd].
  destruct (State__make_move _ _) as [[e|[]] [c' h']]; unbind;
    unfold raise, ret; [reflexivity|].
  destruct (is_transformation self cell); unfold lift, ret;
    [destruct (transform_to_queen_at c' cell)|]; reflexivity.
Qed.

End PawnAdvance.

(** ** The [moves] list is append-only *)

Section Grows.

Lemma grows_ret {A} (a : A) : grows (ret a).
Proof. intros w. exists []. simpl. rewrite app_nil_r. reflexivity. Qed.

Lemma grows_raise {A} (e : exn) : grows (@raise A e).
Proof. intros w. exists []. simpl. rewrite app_nil_r. reflexivity. Qed.

Lemma grows_lift {A} (r : result A) : grows (lift r).
Proof. intros w. exists []. simpl. rewrite app_nil_r. reflexivity. Qed.

Lemma grows_get_self : grows get_self.
Proof. intros w. exists []. simpl. rewrite app_nil_r. reflexivity. Qed.

Lemma grows_put_self (s : State) : grows (put_self s).
Proof. intros w. exists []. simpl. rewrite app_nil_r. reflexivity. Qed.

Lemma grows_moves_append (move : EnumeratedMove) : grows (moves_append move).
Proof. intros w. exists [move]. reflexivity. Qed.

Lemma grows_bind {A B} (m : M A) (f : A -> M B) :
  grows m -> (forall a, grows (f a)) -> grows (bind m f).
Proof.
  intros Hm Hf w. unfold bind, M_bind.
  destruct (Hm w) as (ext1 & H1).
  destruct (m w) as [[e|a] w1]; simpl in *; [eauto|].
  destruct (Hf a w1) as (ext2 & H2). rewrite H2, H1, <- app_assoc. eauto.
Qed.

Lemma grows_run_on {A} (c : State) (m : M A) : grows m -> grows (run_on c m).
Proof.
  intros Hm w. unfold run_on. destruct (Hm (c, snd w)) as (ext & H).
  destruct (m (c, snd w)) as [r [c' h']]. simpl in *. eauto.
Qed.

End Grows.

Create HintDb grows.
#[global] Hint Resolve grows_ret grows_raise grows_lift grows_get_self
  grows_put_self grows_moves_append grows_run_on : grows.

(** Structural proof of [grows]: follow the sequencing and the branches. *)
Ltac grows_step :=
  match goal with
  | |- grows (bind _ _) => apply grows_bind; [|intros ?]
  | |- grows (if ?b then _ else _) => destruct b
  | |- grows (match ?x with _ => _ end) => destruct x
  | |- grows (let '(_, _) := ?x in _) => destruct x
  | |- grows _ => solve [eauto with grows]
  end.
Ltac grows_auto := repeat grows_step.

Section GrowsProgram.

Lemma grows_Figure__make_move (self : Figure) (cell : Cell) :
  grows (Figure__make_move self cell).
Proof. unfold Figure__make_move, Figure__add_move. grows_auto. Qed.

Lemma grows_State__make_move (move : Move) : grows (State__make_move move).
Proof.
  unfold State__make_move. grows_auto. apply grows_Figure__make_move.
Qed.

Lemma grows_Figure__make_move_on_copied (self : Figure) (cell : Cell) :
  grows (Figure__make_move_on_copied self cell).
Proof.
  unfold Figure__make_move_on_copied. grows_auto.
  apply grows_run_on, grows_State__make_move.
Qed.

#[local] Hint Resolve grows_Figure__make_move
  grows_Figure__make_move_on_copied : grows.

Lemma grows_pattern_make_move (msg : string) (self : Figure) (cell : Cell) :
  grows (pattern_make_move msg self cell).
Proof. unfold pattern_make_move. grows_auto. Qed.

Lemma grows_on_copy {A} (c : State) (m : M A) : grows m -> grows (on_copy c m).
Proof. intros Hm. unfold on_copy. grows_auto. Qed.

Lemma grows_relocate_rook (figure : Figure) (rook_new_position : Cell) :
  grows (relocate_rook figure rook_new_position).
Proof. unfold relocate_rook. grows_auto. Qed.

#[local] Hint Resolve grows_on_copy grows_relocate_rook : grows.

Lemma grows_King_make_move (self : Figure) (cell : Cell) :
  grows (King_make_move self cell).
Proof.
  unfold King_make_move, King_castle, King_step. grows_auto.
Qed.

Lemma grows_Pawn_make_move (self : Figure) (cell : Cell) :
  grows (Pawn_make_move self cell).
Proof.
  unfold Pawn_make_move, Pawn_simulate_and_move, Pawn_simulate, Pawn_commit,
    Pawn_en_passant.
  grows_auto.
Qed.

Lemma grows_Figure_make_move (self : Figure) (cell : Cell) :
  grows (Figure_make_move self cell).
Proof.
  unfold Figure_make_move, Queen_make_move, Bishop_make_move,
    Knight_make_move, Rook_make_move.
  destruct (Figure.kind self);
    auto using grows_pattern_make_move, grows_King_make_move,
      grows_Pawn_make_move.
Qed.

#[local] Hint Resolve grows_Figure_make_move : grows.

Lemma grows_State_make_move_with (check : M unit) (move : Move) :
  grows check -> grows (State_make_move_with check move).
Proof. intros Hc. unfold State_make_move_with. grows_auto. Qed.

Lemma grows_try_candidates (self : Figure) (candidates : list (Z * Z)) :
  grows (try_candidates self candidates).
Proof.
  induction candidates as [|xy rest IH]; simpl; [grows_auto|].
  apply grows_bind; [|intros o; grows_auto].
  unfold try_candidate. grows_auto.
  apply grows_run_on, grows_State_make_move_with. grows_auto.
Qed.

Lemma grows_Figure_get_possible_moves (self : Figure) :
  grows (Figure_get_possible_moves self).
Proof.
  unfold Figure_get_possible_moves.
  destruct (Figure.kind self); apply grows_try_candidates.
Qed.

#[local] Hint Resolve grows_Figure_get_possible_moves : grows.

Lemma grows_possible_moves_scan (color : Z) (coords : list (Z * Z)) :
  grows (possible_moves_scan color coords).
Proof.
  induction coords as [|[x y] rest IH]; simpl; grows_auto.
Qed.

Lemma grows_State__check_on_game_over : grows State__check_on_game_over.
Proof.
  unfold State__check_on_game_over, State__is_there_possible_moves_by_color.
  grows_auto. apply grows_possible_moves_scan.
Qed.

(** [State.make_move], accepted or rejected, leaves the [moves] list it
    found as a prefix of the list it leaves. *)
Lemma grows_State_make_move (move : Move) : grows (State_make_move move).
Proof.
  apply grows_State_make_move_with, grows_State__check_on_game_over.
Qed.

End GrowsProgram.

(** ** Concrete games *)

Lemma State_init_ok : State_init = inr new_game.
Proof. reflexivity. Qed.

(** What the pawn test computes: the two diagonal squares one rank
    *behind* the pawn, [cell.y = y - color]. *)
Lemma Pawn__is_cell_under_attack_spec (self : Figure) (cell : Cell) :
  Pawn__is_cell_under_attack self cell = true <->
  Z.abs (Cell.x cell - Cell.x (Figure._current_position self)) = 1 /\
  Cell.y cell - Cell.y (Figure._current_position self) = - Figure._color self.
Proof.
  unfold Pawn__is_cell_under_attack.
  rewrite andb_true_iff, !Z.eqb_eq. lia.
Qed.

(** C1 (code defect).  The white pawn on e2 of the starting position: the
    claim asks the test to hold on d3 ([|dx| = 1], [dy = color]); the code
    answers [false] there and [true] on d1, and the board scan accordingly
    reports d3 as not attacked by white and d1 as attacked. *)
Theorem C1_pawn_attack_is_backward :
  exists pawn : Figure,
    figure_at new_game 5 2 = Some pawn /\
    Figure.kind pawn = Pawn /\ Figure._color pawn = 1 /\
    Pawn__is_cell_under_attack pawn (Cell.mk 4 3) = false /\
    Pawn__is_cell_under_attack pawn (Cell.mk 4 1) = true /\
    State__is_cell_under_attack (fst new_game) (Cell.mk 4 3) 1 = inr false /\
    State__is_cell_under_attack (fst new_game) (Cell.mk 4 1) 1 = inr true.
Proof.
  exists (Figure.mk Pawn (Cell.mk 5 2) 1 [] 0). run_model.
Qed.

(** C2 (code defect).  From the starting position the knight b1, the queen
    d1, the bishop c1 and the rook a1 each capture a pawn of their own
    colour: the call returns normally and the capturing figure stands on the
    pawn's cell. *)
Theorem C2_own_figure_captured :
  let captured (m : Move) (k : Kind) :=
    let r := State_make_move m new_game in
    fst r = inr tt /\
    (Figure._color <$> State_get_by_cell (fst new_game) (cell_to m)) = Some 1 /\
    (Figure.kind <$> State_get_by_cell (fst new_game) (cell_to m)) = Some Pawn /\
    (Figure.kind <$> State_get_by_cell (fst (snd r)) (cell_to m)) = Some k /\
    (Figure._color <$> State_get_by_cell (fst (snd r)) (cell_to m)) = Some 1 /\
    State_get_by_cell (fst (snd r)) (cell_from m) = None in
  captured (mv 2 1 4 2) Knight /\
  captured (mv 4 1 4 2) Queen /\
  captured (mv 3 1 4 2) Bishop /\
  captured (mv 1 1 1 2) Rook.
Proof. run_model. Qed.

(** C3 (code defect).  For the pawn on e2 of the starting position the
    enumeration yields e3 only, although [make_move] accepts e2-e4. *)
Theorem C3_double_step_not_enumerated :
  fst (State_get_possible_moves (Cell.mk 5 2) new_game) = inr [Cell.mk 5 3] /\
  fst (State_make_move (mv 5 2 5 4) new_game) = inr tt.
Proof. run_model. Qed.

(** C4 (code defect).  After 1. e3 f6 2. Qh5+ the move a7-a6 is rejected
    once the copy has been played: the state object is as before, but the
    [moves] list, shared with the copy, has gained the rejected move. *)
Theorem C4_rejected_move_is_recorded :
  let w := after game_check in
  let r := State_make_move (mv 1 7 1 6) w in
  fst r = inl (ValueError "You will be in check, you cannot make such move.") /\
  fst (snd r) = fst w /\
  history (snd r) = history w ++ [mkEnumeratedMove (mv 1 7 1 6) 4] /\
  history (snd r) <> history w.
Proof.
  cbv zeta. split; [vm_compute; reflexivity|].
  split; [vm_compute; reflexivity|].
  assert (H : history (snd (State_make_move (mv 1 7 1 6) (after game_check))) =
              history (after game_check) ++ [mkEnumeratedMove (mv 1 7 1 6) 4])
    by (vm_compute; reflexivity).
  split; [exact H|].
  rewrite H. generalize (history (after game_check)).
  intros l E. apply (f_equal length) in E.
  rewrite length_app in E. simpl in E. lia.
Qed.

(** C5 (code defect).  1. e4 from the starting position is accepted; the
    pawn's own history gains one entry, the ply counter goes from 0 to 1 and
    the turn passes to black, but the [moves] list of the state gains four
    entries: the move played on the copy, the move itself, and two left by
    the game-over test. *)
Theorem C5_global_history_overfilled :
  let r := State_make_move (mv 5 2 5 4) new_game in
  let e4 := mkEnumeratedMove (mv 5 2 5 4) 1 in
  let a6 := mkEnumeratedMove (mv 1 7 1 6) 2 in
  fst r = inr tt /\
  (Figure.moves <$> figure_at new_game 5 2) = Some [] /\
  (Figure.moves <$> figure_at (snd r) 5 4) = Some [e4] /\
  ply new_game = 0 /\ ply (snd r) = 1 /\
  State_whose_move (fst new_game) = 1 /\
  State_whose_move (fst (snd r)) = -1 /\
  history new_game = [] /\
  history (snd r) = [e4; e4; a6; a6].
Proof. run_model. Qed.

(** C6 (code defect).  After [game_castled_rook] the black king, never
    moved, is sent onto the white rook on f1, which has no recorded move
    since it got there by castling.  The castling branch runs although the
    rook is white: the call returns normally, the black king lands on g1 and
    the white rook is gone. *)
Theorem C6_castling_with_enemy_rook :
  let w := after game_castled_rook in
  let r := State_make_move (mv 5 8 6 1) w in
  fst (play game_castled_rook new_game) = inr tt /\
  (Figure.kind <$> figure_at w 5 8) = Some King /\
  (Figure._color <$> figure_at w 5 8) = Some (-1) /\
  (Figure.kind <$> figure_at w 6 1) = Some Rook /\
  (Figure._color <$> figure_at w 6 1) = Some 1 /\
  fst r = inr tt /\
  (Figure.kind <$> figure_at (snd r) 7 1) = Some King /\
  (Figure._color <$> figure_at (snd r) 7 1) = Some (-1) /\
  figure_at (snd r) 6 1 = None /\
  figure_at (snd r) 5 8 = None /\
  State._black_king_position (fst (snd r)) = Cell.mk 7 1.
Proof. run_model. Qed.

(** C7 (code defect).  After [game_single_step] the black pawn on d6 has
    made one move, a one-square advance, on the preceding ply.  The white
    pawn on e6 nevertheless takes it "en passant": e6-d7 is accepted and the
    pawn on d6 is removed. *)
Theorem C7_en_passant_after_single_step :
  let w := after game_single_step in
  let r := State_make_move (mv 5 6 4 7) w in
  fst (play game_single_step new_game) = inr tt /\
  (Figure.moves <$> figure_at w 4 6) = Some [mkEnumeratedMove (mv 4 7 4 6) 6] /\
  figure_at w 4 7 = None /\
  fst r = inr tt /\
  figure_at (snd r) 4 6 = None /\
  (Figure.kind <$> figure_at (snd r) 4 7) = Some Pawn /\
  (Figure._color <$> figure_at (snd r) 4 7) = Some 1.
Proof. run_model. Qed.

(** C8 (code defect).  After [game_false_mate] black, to move, has the
    legal move d7-d5, yet the game-over test of the last committed move has
    set [is_game_over] and declared white the winner. *)
Theorem C8_game_over_with_legal_move :
  let w := after game_false_mate in
  fst (play game_false_mate new_game) = inr tt /\
  State_whose_move (fst w) = -1 /\
  fst (State_make_move (mv 4 7 4 5) w) = inr tt /\
  State.is_game_over (fst w) = true /\
  State.winning_side (fst w) = 1.
Proof. run_model. Qed.

(** C9 (code defect).  In the state reached by [game_false_mate] the game
    is over, and [make_move] still accepts d7-d5: the pawn moves and the ply
    counter goes from 7 to 8. *)
Theorem C9_move_accepted_after_game_over :
  let w := after game_false_mate in
  let r := State_make_move (mv 4 7 4 5) w in
  State.is_game_over (fst w) = true /\
  fst r = inr tt /\
  board_to_str (fst (snd r)) <> board_to_str (fst w) /\
  ply w = 7 /\ ply (snd r) = 8.
Proof.
  cbv zeta. split; [vm_compute; reflexivity|].
  split; [vm_compute; reflexivity|].
  split; [|split; vm_compute; reflexivity].
  vm_compute. discriminate.
Qed.

(** C10.  A pawn that has not moved yet, of the side to move, goes two
    squares forward whenever the destination cell is empty and the move
    played on the copy does not leave its king attacked: [make_move] returns
    normally, the pawn's cell is empty afterwards, a figure of its colour
    stands on the destination and the ply counter has grown by one.  Nothing
    is asked of the intermediate cell: whatever [blocker] stands there, the
    pawn passes over it. *)
Theorem C10_double_step_jumps_over_figure
  (w : World) (pawn : Figure) (cell : Cell) (blocker : option Figure) :
  let s := fst w in
  let pos := Figure._current_position pawn in
  let color := Figure._color pawn in
  wf_state s ->
  valid_cell cell ->
  State_get_by_cell s pos = Some pawn ->
  Figure.kind pawn = Pawn ->
  color = State_whose_move s ->
  Figure.number_of_moves pawn = 0 ->
  Cell.x cell = Cell.x pos ->
  Cell.y cell = Cell.y pos + 2 * color ->
  State_get_by_cell s (Cell.mk (Cell.x pos) (Cell.y pos + color)) = blocker ->
  State_get_by_cell s cell = None ->
  fst (Pawn_simulate pawn cell w) = inr false ->
  exists (w' : World) (f : Figure),
    State_make_move (mkMove pos cell) w = (inr tt, w') /\
    State_get_by_cell (fst w') pos = None /\
    State_get_by_cell (fst w') cell = Some f /\
    Figure._color f = color /\
    State.number_of_moves (fst w') = State.number_of_moves s + 1.
Proof.
  intros s pos color Hwf Hcell Hget Hkind Hturn Hinit Hx Hy _ Hfree Hsim.
  assert (Hcol : color = -1 \/ color = 1).
  { rewrite Hturn. unfold State_whose_move. destruct (_ =? _); auto. }
  assert (Hpos : valid_cell pos).
  { destruct Hwf as (Hb & _). exact (wf_board_figures_valid _ _ _ Hb Hget). }
  assert (Hne : pos <> cell).
  { intros E. rewrite <- E in Hy. lia. }
  unfold State_make_move, State_make_move_with, get_self. unbind.
  cbn [cell_from cell_to]. fold s. rewrite Hget.
  fold color. rewrite <- Hturn, Z.eqb_refl. cbn [negb]. unbind.
  unfold Figure_make_move. rewrite Hkind.
  unfold Pawn_make_move, get_self. unbind. fold pos color.
  replace ((Cell.x pos =? Cell.x cell)
           && ((Cell.y pos + color =? Cell.y cell)
               || Figure_is_initial_position pawn
                  && (Cell.y pos + 2 * color =? Cell.y cell))) with true.
  2:{ unfold Figure_is_initial_position. rewrite Hinit, Hx, Hy, !Z.eqb_refl.
      rewrite orb_true_r. reflexivity. }
  cbn [fst]. fold s. rewrite Hfree.
  unfold Pawn_simulate_and_move. unbind.
  pose proof (Pawn_simulate_state pawn cell w) as Hst.
  destruct (Pawn_simulate pawn cell w) as [r [s1 h1]].
  cbn [fst snd] in Hsim, Hst. subst r s1. cbn beta iota.
  fold s.
  destruct (Pawn_commit_ok pawn cell s h1 Hwf Hcell Hpos Hne Hcol)
    as (s' & h' & f & -> & Hwf' & Horig & Hn & Hp' & Hc' & Hfc & _).
  cbn [fst snd].
  destruct (State._is_original s').
  - destruct (State__check_on_game_over_ok (s', h') Hwf')
      as (s2 & h2 & -> & Hb & Hn2 & _).
    exists (s2, h2), f. cbn [fst snd] in *. unfold State_get_by_cell in *.
    rewrite Hb, Hn2. auto.
  - unfold ret. exists (s', h'), f. auto.
Qed.

(** After 1. Nf3 a6 the white knight stands on f3, and f2-f4 is accepted. *)
Lemma C10_witness :
  figure_at (after game_blocked_pawn) 6 3 =
    Some (Figure.mk Knight (Cell.mk 6 3) 1
            [mkEnumeratedMove (mv 7 1 6 3) 1] 1) /\
  exists (w' : World) (f : Figure),
    State_make_move (mv 6 2 6 4) (after game_blocked_pawn) = (inr tt, w') /\
    State_get_by_cell (fst w') (Cell.mk 6 2) = None /\
    State_get_by_cell (fst w') (Cell.mk 6 4) = Some f /\
    Figure._color f = 1 /\
    State.number_of_moves (fst w') =
      State.number_of_moves (fst (after game_blocked_pawn)) + 1.
Proof.
  split; [vm_compute; reflexivity|].
  apply (C10_double_step_jumps_over_figure
           (after game_blocked_pawn)
           (Figure.mk Pawn (Cell.mk 6 2) 1 [] 0) (Cell.mk 6 4)
           (Some (Figure.mk Knight (Cell.mk 6 3) 1
                    [mkEnumeratedMove (mv 7 1 6 3) 1] 1))).
  - apply wf_stateb_sound. vm_compute. reflexivity.
  - split; simpl; lia.
  - vm_compute. reflexivity.
  - reflexivity.
  - vm_compute. reflexivity.
  - reflexivity.
  - reflexivity.
  - reflexivity.
  - vm_compute. reflexivity.
  - vm_compute. reflexivity.
  - vm_compute. reflexivity.
Defined.

(** * Further properties of the engine *)

(** ** The attack tests *)

(** X1.  The eight cells [Knight.get_possible_moves] tries are exactly the
    cells the knight's attack test accepts, so the restricted candidate list
    leaves out no cell a knight could move to. *)
Theorem Knight_candidates_cover (self : Figure) (cell : Cell) :
  Knight__is_cell_under_attack self cell = true <->
  In (Cell.x cell, Cell.y cell) (Knight_candidates self).
Proof.
  unfold Knight__is_cell_under_attack, Knight_candidates. cbn [In].
  rewrite andb_true_iff, !Z.eqb_eq, !pair_equal_spec.
  generalize (Cell.x (Figure._current_position self))
             (Cell.y (Figure._current_position self))
             (Cell.x cell) (Cell.y cell).
  intros x y cx cy. split.
  - intros [Hmin Hmax].
    assert (Hx : cx = x - 2 \/ cx = x - 1 \/ cx = x + 1 \/ cx = x + 2) by lia.
    assert (Hy : cy = y - 2 \/ cy = y - 1 \/ cy = y + 1 \/ cy = y + 2) by lia.
    destruct Hx as [-> | [-> | [-> | ->]]], Hy as [-> | [-> | [-> | ->]]];
      first [lia | tauto].
  - intros H. repeat destruct H as [[<- <-]|H]; [lia..|contradiction].
Qed.

(** X2.  Between two board cells the queen's test never raises and is the
    disjunction of the bishop's test and the rook's test for a figure on the
    same cell. *)
Theorem Queen_as_bishop_or_rook (s : State) (f : Figure) (cell : Cell) :
  valid_cell (Figure._current_position f) -> valid_cell cell ->
  exists bb br : bool,
    Bishop__is_cell_under_attack s f cell = inr bb /\
    Rook__is_cell_under_attack s f cell = inr br /\
    Queen__is_cell_under_attack s f cell = inr (bb || br).
Proof.
  intros Hp Hc.
  unfold Bishop__is_cell_under_attack, Rook__is_cell_under_attack,
    Queen__is_cell_under_attack.
  set (pos := Figure._current_position f) in *.
  destruct (Cell_eq pos cell) eqn:Heq; [exists false, false; auto|].
  assert (Hne : pos <> cell).
  { intros E. apply Cell_eq_true in E. congruence. }
  destruct (Z.eqb_spec (Z.abs (Cell.x pos - Cell.x cell))
              (Z.abs (Cell.y pos - Cell.y cell))) as [Habs|Habs]; cbn [negb].
  - destruct (diagonal_clear_ok s pos cell Hp Hc Heq Habs) as [b Hb].
    exists b, false. rewrite Hb, orb_false_r.
    assert (Hx : Cell.x pos <> Cell.x cell).
    { intros E. apply Hne. destruct pos, cell; simpl in *. f_equal; lia. }
    assert (Hy : Cell.y pos <> Cell.y cell) by lia.
    apply Z.eqb_neq in Hx, Hy. rewrite Hx, Hy. auto.
  - exists false. cbn [orb].
    destruct (Cell.x pos =? Cell.x cell).
    { destruct (vertical_clear_ok s pos cell Hp Hc) as [b Hb]. eauto. }
    destruct (Cell.y pos =? Cell.y cell).
    { destruct (horizontal_clear_ok s pos cell Hp Hc) as [b Hb]. eauto. }
    eauto.
Qed.

Lemma Queen_as_bishop_or_rook_witness :
  let queen := Figure.mk Queen (Cell.mk 4 1) 1 [] 0 in
  exists bb br : bool,
    Bishop__is_cell_under_attack (fst new_game) queen (Cell.mk 4 2) = inr bb /\
    Rook__is_cell_under_attack (fst new_game) queen (Cell.mk 4 2) = inr br /\
    Queen__is_cell_under_attack (fst new_game) queen (Cell.mk 4 2)
      = inr (bb || br).
Proof.
  apply (Queen_as_bishop_or_rook (fst new_game)
           (Figure.mk Queen (Cell.mk 4 1) 1 [] 0) (Cell.mk 4 2));
    split; simpl; lia.
Defined.

Lemma line_clear_spec (s : State) (coords : list (Z * Z)) :
  Forall (fun xy => in_board (fst xy) (snd xy)) coords ->
  exists b, line_clear s coords = inr b /\
    (b = true <->
     forall xy, In xy coords ->
       State_get_by_cell s (Cell.mk (fst xy) (snd xy)) = None).
Proof.
  induction 1 as [|[x y] rest Hxy _ IH]; simpl.
  - exists true. split; [reflexivity|]. split; [intros _ ? []|reflexivity].
  - rewrite (Cell_init_in_board x y Hxy). unbind.
    destruct (State_get_by_cell s (Cell.mk x y)) as [f|] eqn:Hf.
    + exists false. split; [reflexivity|]. split; [discriminate|].
      intros H. specialize (H (x, y) (or_introl eq_refl)). simpl in H.
      congruence.
    + destruct IH as (b & -> & Hb). exists b. split; [reflexivity|].
      rewrite Hb. split.
      * intros H xy [<-|Hin]; [exact Hf|auto].
      * intros H xy Hin. apply H. right. exact Hin.
Qed.

Lemma diagonal_walk_spec (s : State) (cell : Cell) (vx vy : Z) (fuel : nat) :
  vx = -1 \/ vx = 1 -> vy = -1 \/ vy = 1 -> valid_cell cell ->
  forall n x y : Z,
    in_board x y -> 0 < n <= Z.of_nat fuel ->
    Cell.x cell = x + n * vx -> Cell.y cell = y + n * vy ->
    exists b, diagonal_walk fuel s vx vy x y cell = inr b /\
      (b = true <->
       forall k, 0 < k < n ->
         State_get_by_cell s (Cell.mk (x + k * vx) (y + k * vy)) = None).
Proof.
  intros Hvx Hvy Hc. induction fuel as [|fuel IH];
    intros n x y Hxy Hn Hcx Hcy; [lia|].
  cbn [diagonal_walk].
  assert (H1 : in_board (x + vx) (y + vy)).
  { destruct Hxy as [? ?], Hc as [? ?]. split; nia. }
  rewrite (Cell_init_in_board _ _ H1). unbind.
  destruct (Cell_eq (Cell.mk (x + vx) (y + vy)) cell) eqn:Heq.
  - exists true. split; [reflexivity|]. split; [|reflexivity]. intros _ k Hk.
    apply Cell_eq_true in Heq. rewrite <- Heq in Hcx. simpl in Hcx.
    assert (n = 1) by nia. lia.
  - assert (Hn2 : 1 < n).
    { destruct (Z.eq_dec n 1) as [->|]; [|lia].
      assert (E : Cell.mk (x + vx) (y + vy) = cell).
      { destruct cell; simpl in *. f_equal; lia. }
      apply Cell_eq_true in E. congruence. }
    destruct (State_get_by_cell s (Cell.mk (x + vx) (y + vy))) as [f|] eqn:Hf.
    + exists false. split; [reflexivity|]. split; [discriminate|].
      intros H. specialize (H 1 ltac:(lia)).
      rewrite !Z.mul_1_l in H. congruence.
    + destruct (IH (n - 1) (x + vx) (y + vy) H1 ltac:(lia) ltac:(lia)
                  ltac:(lia)) as (b & -> & Hb).
      exists b. split; [reflexivity|]. rewrite Hb. split.
      * intros H k Hk. destruct (Z.eq_dec k 1) as [->|Hk1].
        { rewrite !Z.mul_1_l. exact Hf. }
        specialize (H (k - 1) ltac:(lia)).
        replace (x + vx + (k - 1) * vx) with (x + k * vx) in H by lia.
        replace (y + vy + (k - 1) * vy) with (y + k * vy) in H by lia.
        exact H.
      * intros H k Hk. specialize (H (k + 1) ltac:(lia)).
        replace (x + (k + 1) * vx) with (x + vx + k * vx) in H by lia.
        replace (y + (k + 1) * vy) with (y + vy + k * vy) in H by lia.
        exact H.
Qed.

(** X4.  The [while True] walk of [Bishop._is_cell_under_attack] between two
    board cells never raises and never leaves the board; it answers [True]
    exactly when the cells differ, lie on a common diagonal and every cell
    strictly between them is empty. *)
Theorem Bishop_attack_spec (s : State) (f : Figure) (cell : Cell) :
  let pos := Figure._current_position f in
  let dx := Cell.x cell - Cell.x pos in
  let dy := Cell.y cell - Cell.y pos in
  valid_cell pos -> valid_cell cell ->
  exists b, Bishop__is_cell_under_attack s f cell = inr b /\
    (b = true <->
     pos <> cell /\ Z.abs dx = Z.abs dy /\
     forall k, 0 < k < Z.abs dx ->
       State_get_by_cell s
         (Cell.mk (Cell.x pos + k * sign dx) (Cell.y pos + k * sign dy)) = None).
Proof.
  intros pos dx dy Hp Hc. unfold Bishop__is_cell_under_attack. fold pos.
  destruct (Cell_eq pos cell) eqn:Heq.
  { exists false. split; [reflexivity|]. split; [discriminate|].
    apply Cell_eq_true in Heq. tauto. }
  assert (Hne : pos <> cell).
  { intros E. apply Cell_eq_true in E. congruence. }
  destruct (Z.eqb_spec (Z.abs (Cell.x pos - Cell.x cell))
              (Z.abs (Cell.y pos - Cell.y cell))) as [Habs|Habs]; cbn [negb].
  2:{ exists false. split; [reflexivity|]. split; [discriminate|].
      intros (_ & H & _). subst dx dy. lia. }
  assert (Hdx : dx <> 0).
  { intros E. apply Hne. subst dx dy. destruct pos, cell; simpl in *.
    f_equal; lia. }
  assert (Hdy : dy <> 0) by (subst dx dy; lia).
  unfold diagonal_clear. fold dx dy.
  destruct (diagonal_walk_spec s cell (sign dx) (sign dy) 9) with
    (n := Z.abs dx) (x := Cell.x pos) (y := Cell.y pos) as (b & Hb & Hspec).
  - destruct (sign_spec dx) as [[? ->]|[[? ->]|[? ?]]]; auto; lia.
  - destruct (sign_spec dy) as [[? ->]|[[? ->]|[? ?]]]; auto; lia.
  - exact Hc.
  - exact Hp.
  - destruct Hp as [? ?], Hc as [? ?]. subst dx dy. lia.
  - destruct (sign_spec dx) as [[? ->]|[[? ->]|[? ?]]]; subst dx; lia.
  - destruct (sign_spec dy) as [[? ->]|[[? ->]|[? ?]]]; subst dx dy; lia.
  - exists b. split; [exact Hb|]. rewrite Hspec.
    split; [intros H; split; [exact Hne|split; [subst dx dy; lia|exact H]]|].
    intros (_ & _ & H). exact H.
Qed.

(** X3.  [Rook._is_cell_under_attack] between two board cells never raises;
    it answers [True] exactly when the cells differ, share a file or a rank,
    and every cell strictly between them is empty. *)
Theorem Rook_attack_spec (s : State) (f : Figure) (cell : Cell) :
  let pos := Figure._current_position f in
  valid_cell pos -> valid_cell cell ->
  exists b, Rook__is_cell_under_attack s f cell = inr b /\
    (b = true <->
     pos <> cell /\
     ((Cell.x pos = Cell.x cell /\
       forall y, Z.min (Cell.y pos) (Cell.y cell) < y
                 < Z.max (Cell.y pos) (Cell.y cell) ->
         State_get_by_cell s (Cell.mk (Cell.x cell) y) = None) \/
      (Cell.y pos = Cell.y cell /\
       forall x, Z.min (Cell.x pos) (Cell.x cell) < x
                 < Z.max (Cell.x pos) (Cell.x cell) ->
         State_get_by_cell s (Cell.mk x (Cell.y cell)) = None))).
Proof.
  intros pos Hp Hc. unfold Rook__is_cell_under_attack. fold pos.
  destruct (Cell_eq pos cell) eqn:Heq.
  { exists false. split; [reflexivity|]. split; [discriminate|].
    apply Cell_eq_true in Heq. tauto. }
  assert (Hne : pos <> cell).
  { intros E. apply Cell_eq_true in E. congruence. }
  assert (Hxy : Cell.x pos <> Cell.x cell \/ Cell.y pos <> Cell.y cell).
  { destruct (Z.eq_dec (Cell.x pos) (Cell.x cell)) as [Ex|]; [|auto].
    right. intros Ey. apply Hne. destruct pos, cell; simpl in *. congruence. }
  destruct (Z.eqb_spec (Cell.x pos) (Cell.x cell)) as [Ex|Ex].
  - unfold vertical_clear.
    destruct (line_clear_spec s
      ((fun y => (Cell.x cell, y)) <$>
         range (Z.min (Cell.y pos) (Cell.y cell) + 1)
               (Z.max (Cell.y pos) (Cell.y cell)))) as (b & Hb & Hspec).
    { apply Forall_fmap, Forall_forall. intros y Hin. unfold range in Hin.
      apply elem_of_seqZ in Hin. destruct Hp as [? ?], Hc as [? ?].
      split; simpl; lia. }
    exists b. split; [exact Hb|]. rewrite Hspec. split.
    + intros H. split; [exact Hne|]. left. split; [exact Ex|].
      intros y Hy. apply (H (Cell.x cell, y)).
      apply list_elem_of_In, list_elem_of_fmap. exists y. split; [reflexivity|].
      unfold range. apply elem_of_seqZ. lia.
    + intros (_ & [[_ H]|[Ey _]]); [|lia].
      intros xy Hin. apply list_elem_of_In, list_elem_of_fmap in Hin.
      destruct Hin as (y & -> & Hy). unfold range in Hy.
      apply elem_of_seqZ in Hy. simpl. apply H. lia.
  - destruct (Z.eqb_spec (Cell.y pos) (Cell.y cell)) as [Ey|Ey].
    + unfold horizontal_clear.
      destruct (line_clear_spec s
        ((fun x => (x, Cell.y cell)) <$>
           range (Z.min (Cell.x pos) (Cell.x cell) + 1)
                 (Z.max (Cell.x pos) (Cell.x cell)))) as (b & Hb & Hspec).
      { apply Forall_fmap, Forall_forall. intros x Hin. unfold range in Hin.
        apply elem_of_seqZ in Hin. destruct Hp as [? ?], Hc as [? ?].
        split; simpl; lia. }
      exists b. split; [exact Hb|]. rewrite Hspec. split.
      * intros H. split; [exact Hne|]. right. split; [exact Ey|].
        intros x Hx. apply (H (x, Cell.y cell)).
        apply list_elem_of_In, list_elem_of_fmap. exists x.
        split; [reflexivity|]. unfold range. apply elem_of_seqZ. lia.
      * intros (_ & [[E _]|[_ H]]); [lia|].
        intros xy Hin. apply list_elem_of_In, list_elem_of_fmap in Hin.
        destruct Hin as (x & -> & Hx). unfold range in Hx.
        apply elem_of_seqZ in Hx. simpl. apply H. lia.
    + exists false. split; [reflexivity|]. split; [discriminate|].
      intros (_ & [[E _]|[E _]]); lia.
Qed.

Lemma Rook_attack_spec_witness :
  let s := fst new_game in
  let rook := Figure.mk Rook (Cell.mk 1 1) 1 [] 0 in
  let cell := Cell.mk 1 4 in
  exists b, Rook__is_cell_under_attack s rook cell = inr b /\
    (b = true <->
     Cell.mk 1 1 <> cell /\
     ((1 = Cell.x cell /\
       forall y, Z.min 1 (Cell.y cell) < y < Z.max 1 (Cell.y cell) ->
         State_get_by_cell s (Cell.mk (Cell.x cell) y) = None) \/
      (1 = Cell.y cell /\
       forall x, Z.min 1 (Cell.x cell) < x < Z.max 1 (Cell.x cell) ->
         State_get_by_cell s (Cell.mk x (Cell.y cell)) = None))).
Proof.
  apply (Rook_attack_spec (fst new_game)
           (Figure.mk Rook (Cell.mk 1 1) 1 [] 0) (Cell.mk 1 4));
    split; simpl; lia.
Defined.

Lemma Bishop_attack_spec_witness :
  let s := fst new_game in
  let bishop := Figure.mk Bishop (Cell.mk 3 1) 1 [] 0 in
  let cell := Cell.mk 6 4 in
  exists b, Bishop__is_cell_under_attack s bishop cell = inr b /\
    (b = true <->
     Cell.mk 3 1 <> cell /\
     Z.abs (Cell.x cell - 3) = Z.abs (Cell.y cell - 1) /\
     forall k, 0 < k < Z.abs (Cell.x cell - 3) ->
       State_get_by_cell s
         (Cell.mk (3 + k * sign (Cell.x cell - 3))
                  (1 + k * sign (Cell.y cell - 1))) = None).
Proof.
  apply (Bishop_attack_spec (fst new_game)
           (Figure.mk Bishop (Cell.mk 3 1) 1 [] 0) (Cell.mk 6 4));
    split; simpl; lia.
Defined.

Lemma attack_scan_spec (s : State) (cell : Cell) (color : Z)
  (coords : list (Z * Z)) :
  figures_on_board s -> valid_cell cell ->
  Forall (fun xy => in_board (fst xy) (snd xy)) coords ->
  exists b, attack_scan s cell color coords = inr b /\
    (b = true <->
     exists xy f, In xy coords /\
       State_get_by_cell s (Cell.mk (fst xy) (snd xy)) = Some f /\
       Figure._color f = color /\
       Figure__is_cell_under_attack s f cell = inr true).
Proof.
  intros Hs Hc. induction 1 as [|[x y] rest Hxy _ IH]; simpl.
  - exists false. split; [reflexivity|]. split; [discriminate|].
    intros (? & ? & [] & _).
  - rewrite (Cell_init_in_board x y Hxy). unbind.
    destruct IH as (b & IHb & IHspec).
    assert (Hskip :
      (forall f, State_get_by_cell s (Cell.mk x y) = Some f ->
         Figure._color f = color ->
         Figure__is_cell_under_attack s f cell <> inr true) ->
      exists b, attack_scan s cell color rest = inr b /\
        (b = true <->
         exists xy f, ((x, y) = xy \/ In xy rest) /\
           State_get_by_cell s (Cell.mk (fst xy) (snd xy)) = Some f /\
           Figure._color f = color /\
           Figure__is_cell_under_attack s f cell = inr true)).
    { intros Hno. exists b. split; [exact IHb|]. rewrite IHspec. split.
      - intros (xy & f & Hin & H). exists xy, f. tauto.
      - intros (xy & f & [<-|Hin] & Hf & Hcol & Hatt).
        + exfalso. exact (Hno f Hf Hcol Hatt).
        + exists xy, f. tauto. }
    destruct (State_get_by_cell s (Cell.mk x y)) as [f|] eqn:Hf.
    2:{ apply Hskip. discriminate. }
    destruct (Z.eqb_spec (Figure._color f) color) as [Hcol|Hcol]; cbn [negb].
    2:{ apply Hskip. intros f' [= <-] ?. contradiction. }
    destruct (Figure__is_cell_under_attack_ok s f cell) as [hit Hhit];
      [eapply Hs; exact Hf | exact Hc |].
    rewrite Hhit. destruct hit.
    + exists true. split; [reflexivity|]. split; [|reflexivity].
      intros _. exists (x, y), f. auto.
    + apply Hskip. intros f' [= <-] _. congruence.
Qed.

(** X5.  On a well-formed state [State._is_cell_under_attack] raises
    [ValueError] for a colour other than 1 and -1, and otherwise returns
    normally, with [True] exactly when some figure of the attacking colour on
    the board passes its own attack test for the cell. *)
Theorem State__is_cell_under_attack_spec (s : State) (cell : Cell) (color : Z) :
  wf_state s -> valid_cell cell ->
  (color <> -1 -> color <> 1 ->
   State__is_cell_under_attack s cell color =
     inl (ValueError "Color must be either 1 or -1.")) /\
  (color = -1 \/ color = 1 ->
   exists b, State__is_cell_under_attack s cell color = inr b /\
     (b = true <->
      exists c f, valid_cell c /\
        State_get_by_cell s c = Some f /\
        Figure._color f = color /\
        Figure__is_cell_under_attack s f cell = inr true)).
Proof.
  intros (Hb & _) Hc. unfold State__is_cell_under_attack. split.
  - intros H1 H2. apply Z.eqb_neq in H1, H2. rewrite H1, H2. reflexivity.
  - intros Hcol. rewrite (proj2 (valid_color_cases color) Hcol).
    assert (Hfig : figures_on_board s)
      by (intros c f; apply wf_board_figures_valid; exact Hb).
    destruct (attack_scan_spec s cell color all_cells Hfig Hc
                all_cells_in_board) as (b & Hscan & Hspec).
    exists b. split; [exact Hscan|]. rewrite Hspec. split.
    + intros ([x y] & f & Hin & Hf & H). exists (Cell.mk x y), f.
      split; [|tauto].
      pose proof all_cells_in_board as Hall. rewrite Forall_forall in Hall.
      apply list_elem_of_In in Hin. exact (Hall _ Hin).
    + intros (c & f & Hv & Hf & H). exists (Cell.x c, Cell.y c), f.
      split; [apply all_cells_complete; exact Hv|].
      destruct c; simpl. tauto.
Qed.

Lemma State__is_cell_under_attack_spec_witness :
  let s := fst new_game in
  let cell := Cell.mk 5 3 in
  (1 <> -1 -> 1 <> 1 ->
   State__is_cell_under_attack s cell 1 =
     inl (ValueError "Color must be either 1 or -1.")) /\
  (1 = -1 \/ 1 = 1 ->
   exists b, State__is_cell_under_attack s cell 1 = inr b /\
     (b = true <->
      exists c f, valid_cell c /\
        State_get_by_cell s c = Some f /\
        Figure._color f = 1 /\
        Figure__is_cell_under_attack s f cell = inr true)).
Proof.
  apply (State__is_cell_under_attack_spec (fst new_game) (Cell.mk 5 3) 1).
  - apply wf_stateb_sound. vm_compute. reflexivity.
  - split; simpl; lia.
Defined.

(** ** Copies and unchecked moves *)

Section Copies.

Lemma lookup_fmap_range {A} (f : Z -> A) (n : Z) (i : nat) :
  (f <$> range 0 n) !! i =
  if decide (Z.of_nat i < n) then Some (f (Z.of_nat i)) else None.
Proof.
  unfold range. rewrite list_lookup_fmap, Z.sub_0_r. case_decide.
  - rewrite lookup_seqZ_lt by lia. reflexivity.
  - rewrite lookup_seqZ_ge by lia. reflexivity.
Qed.

Lemma State_get_copy_eq (s : State) :
  wf_board (State.board s) -> State_get_copy s = as_copy s.
Proof.
  intros (Hlen & Hrows & _). unfold State_get_copy, as_copy. f_equal.
  unfold State_get_by_cell, Board_get, Board in *.
  set (b := State.board s) in *.
  apply list_eq. intros i. rewrite lookup_fmap_range. case_decide.
  - destruct (lookup_lt_is_Some_2 b i) as [row Hrow]; [lia|].
    rewrite Hrow. f_equal.
    assert (Hr : length row = 8%nat)
      by (rewrite Forall_lookup in Hrows; exact (Hrows i row Hrow)).
    apply list_eq. intros j. rewrite lookup_fmap_range. cbn [Cell.x Cell.y].
    replace (Z.to_nat (Z.of_nat i + 1 - 1)) with i by lia. rewrite Hrow.
    case_decide.
    + replace (Z.to_nat (Z.of_nat j + 1 - 1)) with j by lia.
      destruct (lookup_lt_is_Some_2 row j) as [o Ho]; [lia|].
      rewrite Ho. reflexivity.
    + symmetry. apply lookup_ge_None. lia.
  - symmetry. apply lookup_ge_None. lia.
Qed.

Lemma Figure__make_move_on_copied_run (self : Figure) (cell : Cell)
  (s : State) (h : list EnumeratedMove) :
  wf_state s ->
  State_get_by_cell s (Figure._current_position self) = Some self ->
  Figure__make_move_on_copied self cell (s, h) =
  (inr (moved_state (as_copy s) self cell),
   (s, h ++ [mkEnumeratedMove (mkMove (Figure._current_position self) cell)
               (State.number_of_moves s + 1)])).
Proof.
  intros (Hb & _) Hget.
  unfold Figure__make_move_on_copied, run_on, State__make_move.
  unbind. unfold get_self. cbn [fst snd cell_from cell_to].
  rewrite (State_get_copy_eq s Hb).
  change (State_get_by_cell (as_copy s) (Figure._current_position self))
    with (State_get_by_cell s (Figure._current_position self)).
  rewrite Hget. reflexivity.
Qed.

Lemma moved_state_frame (s : State) (self : Figure) (cell c : Cell) :
  valid_cell cell -> valid_cell (Figure._current_position self) ->
  valid_cell c -> c <> Figure._current_position self -> c <> cell ->
  State_get_by_cell (moved_state s self cell) c = State_get_by_cell s c.
Proof.
  intros Hc Hp Hv Hn1 Hn2. unfold moved_state, State_get_by_cell. simpl.
  rewrite !Board_get_set_ne by auto. reflexivity.
Qed.

Lemma moved_state_source (s : State) (self : Figure) (cell : Cell) :
  wf_state s -> valid_cell cell -> valid_cell (Figure._current_position self) ->
  State_get_by_cell (moved_state s self cell) (Figure._current_position self)
    = None.
Proof.
  intros (Hb & _) Hc Hp. unfold moved_state, State_get_by_cell. simpl.
  apply Board_get_set_eq; [|assumption].
  apply wf_board_set; [assumption..|]. intros f [= <-]. reflexivity.
Qed.

End Copies.

(** X6.  On a state whose board is an 8x8 grid [State.get_copy] returns a
    state with the same board contents, counters, king caches and game-over
    fields, and with [_is_original] cleared. *)
Theorem State_get_copy_spec (s : State) :
  wf_board (State.board s) ->
  State_get_copy s =
    State.mk (State.is_game_over s) (State.winning_side s)
      (State._white_king_position s) (State._black_king_position s)
      (State.board s) (State.number_of_moves s) false.
Proof. exact (State_get_copy_eq s). Qed.

Lemma State_get_copy_spec_witness :
  let s := fst new_game in
  State_get_copy s =
    State.mk (State.is_game_over s) (State.winning_side s)
      (State._white_king_position s) (State._black_king_position s)
      (State.board s) (State.number_of_moves s) false.
Proof.
  apply (State_get_copy_spec (fst new_game)).
  apply wf_boardb_sound. vm_compute. reflexivity.
Defined.

(** X7.  [State._make_move] on a well-formed state: with no figure on the
    source cell it raises [ValueError] and changes nothing; otherwise it
    never raises, appends one [EnumeratedMove] numbered with the next ply to
    the [moves] list, adds one to the ply counter, empties the source cell,
    puts the figure (new position, one more recorded move) on the target cell
    when that is another cell, and leaves every other cell, the king caches
    and the game-over fields as they were. *)
Theorem State__make_move_spec (s : State) (h : list EnumeratedMove)
  (source target : Cell) :
  wf_state s -> valid_cell source -> valid_cell target ->
  let move := mkEnumeratedMove (mkMove source target)
                (State.number_of_moves s + 1) in
  match State_get_by_cell s source with
  | None =>
      State__make_move (mkMove source target) (s, h) =
        (inl (ValueError "From cell has not figure on it."), (s, h))
  | Some figure =>
      exists s',
        State__make_move (mkMove source target) (s, h) =
          (inr tt, (s', h ++ [move])) /\
        State.number_of_moves s' = State.number_of_moves s + 1 /\
        State_get_by_cell s' source = None /\
        (source <> target ->
         State_get_by_cell s' target =
           Some (Figure.mk (Figure.kind figure) target (Figure._color figure)
                   (Figure.moves figure ++ [move])
                   (Figure.number_of_moves figure + 1))) /\
        (forall c, valid_cell c -> c <> source -> c <> target ->
           State_get_by_cell s' c = State_get_by_cell s c) /\
        State._white_king_position s' = State._white_king_position s /\
        State._black_king_position s' = State._black_king_position s /\
        State.is_game_over s' = State.is_game_over s /\
        State.winning_side s' = State.winning_side s /\
        State._is_original s' = State._is_original s
  end.
Proof.
  intros Hwf Hs Ht move. unfold State__make_move, get_self. unbind.
  cbn [fst cell_from cell_to].
  destruct (State_get_by_cell s source) as [figure|] eqn:Hget; [|reflexivity].
  assert (Hpos : Figure._current_position figure = source).
  { destruct Hwf as ((_ & _ & Hfig) & _). exact (Hfig source figure Hs Hget). }
  rewrite Figure__make_move_run, Hpos. fold move.
  exists (moved_state s figure target). split; [reflexivity|].
  split; [reflexivity|].
  split; [rewrite <- Hpos; apply moved_state_source; congruence|].
  split.
  { intros Hne.
    destruct (moved_state_cell s figure target Hwf Ht) as [Hcell _];
      [congruence..|].
    rewrite Hcell. unfold moved_figure. rewrite Hpos. reflexivity. }
  split.
  { intros c Hc Hn1 Hn2. apply moved_state_frame; congruence. }
  repeat split.
Qed.

Lemma State__make_move_spec_witness :
  let s := fst new_game in
  let h := snd new_game in
  let source := Cell.mk 5 2 in
  let target := Cell.mk 5 4 in
  let move := mkEnumeratedMove (mkMove source target)
                (State.number_of_moves s + 1) in
  match State_get_by_cell s source with
  | None =>
      State__make_move (mkMove source target) (s, h) =
        (inl (ValueError "From cell has not figure on it."), (s, h))
  | Some figure =>
      exists s',
        State__make_move (mkMove source target) (s, h) =
          (inr tt, (s', h ++ [move])) /\
        State.number_of_moves s' = State.number_of_moves s + 1 /\
        State_get_by_cell s' source = None /\
        (source <> target ->
         State_get_by_cell s' target =
           Some (Figure.mk (Figure.kind figure) target (Figure._color figure)
                   (Figure.moves figure ++ [move])
                   (Figure.number_of_moves figure + 1))) /\
        (forall c, valid_cell c -> c <> source -> c <> target ->
           State_get_by_cell s' c = State_get_by_cell s c) /\
        State._white_king_position s' = State._white_king_position s /\
        State._black_king_position s' = State._black_king_position s /\
        State.is_game_over s' = State.is_game_over s /\
        State.winning_side s' = State.winning_side s /\
        State._is_original s' = State._is_original s
  end.
Proof.
  apply (State__make_move_spec (fst new_game) (snd new_game)
           (Cell.mk 5 2) (Cell.mk 5 4)).
  - apply wf_stateb_sound. vm_compute. reflexivity.
  - split; simpl; lia.
  - split; simpl; lia.
Defined.

(** ** Sound states are kept by the moves *)

Ltac mrun :=
  unbind; unfold get_self, put_self, lift, ret, raise; cbn beta iota;
  cbn [fst snd].

Section Sound.

Lemma sound_stateb_sound (s : State) : sound_stateb s = true -> sound_state s.
Proof.
  unfold sound_stateb. rewrite andb_true_iff. intros [Hwf Hall].
  split; [apply wf_stateb_sound; exact Hwf|].
  intros c f Hc Hf. rewrite forallb_forall in Hall.
  specialize (Hall (Cell.x c, Cell.y c) (all_cells_complete _ _ Hc)).
  unfold sound_cellb in Hall. cbn [fst snd] in Hall.
  destruct c as [x y]. cbn [Cell.x Cell.y] in Hall. rewrite Hf in Hall.
  unfold sound_figureb in Hall.
  rewrite andb_true_iff, orb_true_iff, !Z.eqb_eq in Hall. exact Hall.
Qed.

Lemma sound_state_board_set (s : State) (c : Cell) (o : option Figure) :
  sound_state s -> valid_cell c ->
  (forall f, o = Some f -> Figure._current_position f = c /\ sound_figure f) ->
  sound_state (State_board_set s c o).
Proof.
  intros (Hwf & Hfig) Hc Ho. split.
  - apply wf_state_board_set; [assumption..|]. intros f Hf.
    exact (proj1 (Ho f Hf)).
  - intros c' f Hc'. unfold State_get_by_cell. cbn [State_board_set set_board State.board].
    destruct (Board_get_set_cases (State.board s) c c' o) as [-> | ->].
    + intros Hf. exact (proj2 (Ho f Hf)).
    + apply Hfig. exact Hc'.
Qed.

Lemma sound_state_get (s : State) (c : Cell) (f : Figure) :
  sound_state s -> valid_cell c -> State_get_by_cell s c = Some f ->
  Figure._current_position f = c /\ sound_figure f.
Proof.
  intros (((_ & _ & Hpos) & _) & Hfig) Hc Hf. split; [exact (Hpos c f Hc Hf)|].
  exact (Hfig c f Hc Hf).
Qed.

Lemma sound_as_copy (s : State) : sound_state s -> sound_state (as_copy s).
Proof. intros H. exact H. Qed.

Lemma sound_moved_figure (s : State) (self : Figure) (cell : Cell) :
  sound_figure self -> sound_figure (moved_figure s self cell).
Proof.
  intros [Hcol Hn]. split; [exact Hcol|]. cbn [moved_figure Figure.moves
    Figure.number_of_moves]. rewrite length_app. simpl. lia.
Qed.

Lemma sound_moved_state (s : State) (self : Figure) (cell : Cell) :
  sound_state s -> valid_cell cell ->
  valid_cell (Figure._current_position self) -> sound_figure self ->
  sound_state (moved_state s self cell).
Proof.
  intros Hs Hc Hp Hself. unfold moved_state.
  apply sound_state_board_set; [|exact Hp|discriminate].
  apply sound_state_board_set; [exact Hs|exact Hc|].
  intros f [= <-]. split; [reflexivity|].
  apply sound_moved_figure. exact Hself.
Qed.

End Sound.

Section Outcomes.

Lemma outcome_reject0 (s : State) (h : list EnumeratedMove) (msg : string) :
  move_outcome s h (inl (ValueError msg), (s, h)).
Proof. exists []. simpl. rewrite app_nil_r. eauto. Qed.

Lemma outcome_reject1 (s : State) (h : list EnumeratedMove) (msg : string)
  (x : EnumeratedMove) :
  move_outcome s h (inl (ValueError msg), (s, h ++ [x])).
Proof. exists [x]. simpl. eauto. Qed.

Lemma outcome_commit (s s' : State) (h : list EnumeratedMove)
  (x y : EnumeratedMove) :
  committed s s' -> move_outcome s h (inr tt, (s', (h ++ [x]) ++ [y])).
Proof.
  intros Hc. exists [x; y]. simpl. rewrite <- app_assoc. simpl. auto.
Qed.

Lemma committed_moved_state (s : State) (self : Figure) (cell : Cell) :
  sound_state s -> valid_cell cell ->
  valid_cell (Figure._current_position self) -> sound_figure self ->
  committed s (moved_state s self cell).
Proof.
  intros Hs Hc Hp Hself. split; [|repeat split].
  apply sound_moved_state; assumption.
Qed.

Lemma committed_same_game (s s1 s2 : State) :
  committed s s1 -> same_game s1 s2 -> sound_state s2 -> committed s s2.
Proof.
  intros (_ & Hn & Ho & Hg & Hw) (Hn' & Ho' & Hg' & Hw') Hs.
  split; [exact Hs|]. repeat split; congruence.
Qed.

Lemma State_change_king_position_by_color_run (s : State) (cell : Cell)
  (color : Z) :
  color = -1 \/ color = 1 ->
  exists s',
    State_change_king_position_by_color s cell color = inr s' /\
    State.board s' = State.board s /\
    same_game s s' /\
    (sound_state s -> valid_cell cell -> sound_state s').
Proof.
  intros Hcol. unfold State_change_king_position_by_color.
  rewrite (proj2 (valid_color_cases color) Hcol).
  destruct (color =? 1); eexists; (split; [reflexivity|]);
    (split; [reflexivity|]); (split; [repeat split|]);
    intros ((Hb & Hw & Hk) & Hfig) Hc;
    (split; [split; [exact Hb|split; assumption]|exact Hfig]).
Qed.

(** The check test on a sound state answers, and never raises. *)
Lemma State__is_king_in_check_sound (s : State) (color : Z) :
  sound_state s -> color = -1 \/ color = 1 ->
  exists b, State__is_king_in_check s color = inr b.
Proof. intros [Hwf _]. apply State__is_king_in_check_ok. exact Hwf. Qed.

Lemma pattern_make_move_outcome (msg : string) (self : Figure) (cell : Cell)
  (s : State) (h : list EnumeratedMove) :
  sound_state s -> valid_cell cell ->
  valid_cell (Figure._current_position self) ->
  State_get_by_cell s (Figure._current_position self) = Some self ->
  move_outcome s h (pattern_make_move msg self cell (s, h)).
Proof.
  intros Hs Hc Hp Hget.
  destruct (sound_state_get s _ self Hs Hp Hget) as [_ Hself].
  unfold pattern_make_move. mrun.
  destruct (Figure__is_cell_under_attack_ok s self cell Hp Hc) as [b ->].
  destruct b; cbn [negb]; [|apply outcome_reject0].
  unbind. rewrite Figure__make_move_on_copied_run by (try exact (proj1 Hs); assumption).
  mrun.
  destruct (State__is_king_in_check_sound
              (moved_state (as_copy s) self cell) (Figure._color self))
    as [chk ->]; [|exact (proj1 Hself)|].
  { apply sound_moved_state; assumption. }
  destruct chk; [apply outcome_reject1|].
  rewrite Figure__make_move_run.
  apply outcome_commit, committed_moved_state; assumption.
Qed.

Lemma King_step_outcome (self : Figure) (figure : option Figure) (cell : Cell)
  (s : State) (h : list EnumeratedMove) :
  sound_state s -> valid_cell cell ->
  valid_cell (Figure._current_position self) ->
  State_get_by_cell s (Figure._current_position self) = Some self ->
  move_outcome s h (King_step self figure cell (s, h)).
Proof.
  intros Hs Hc Hp Hget.
  destruct (sound_state_get s _ self Hs Hp Hget) as [_ Hself].
  pose proof (proj1 Hself) as Hcol.
  unfold King_step.
  destruct (King__is_cell_under_attack self cell); cbn [negb];
    [|apply outcome_reject0].
  destruct (own_figure self figure); [apply outcome_reject0|].
  unbind. rewrite Figure__make_move_on_copied_run by (try exact (proj1 Hs); assumption).
  mrun.
  destruct (State_change_king_position_by_color_run
              (moved_state (as_copy s) self cell) cell _ Hcol)
    as (c1 & -> & _ & _ & Hsound1).
  destruct (State__is_king_in_check_sound c1 (Figure._color self))
    as [chk ->]; [|exact Hcol|].
  { apply Hsound1; [|exact Hc]. apply sound_moved_state; assumption. }
  destruct chk; [apply outcome_reject1|].
  rewrite Figure__make_move_run. mrun.
  destruct (State_change_king_position_by_color_run
              (moved_state s self cell) cell _ Hcol)
    as (s1 & -> & _ & Hsame & Hsound).
  apply outcome_commit.
  apply (committed_same_game s (moved_state s self cell) s1);
    [apply committed_moved_state; assumption|exact Hsame|].
  apply Hsound; [|exact Hc]. apply sound_moved_state; assumption.
Qed.

End Outcomes.

Section Castling.

Lemma Board_set_set (b : Board) (c : Cell) (o1 o2 : option Figure) :
  Board_set (Board_set b c o1) c o2 = Board_set b c o2.
Proof.
  unfold Board_set, Board in *. rewrite list_alter_alter_eq.
  apply list_alter_ext; [|reflexivity]. intros row _. simpl.
  apply list_insert_insert_eq.
Qed.

Lemma State_board_set_set (s : State) (c : Cell) (o1 o2 : option Figure) :
  State_board_set (State_board_set s c o1) c o2 = State_board_set s c o2.
Proof.
  unfold State_board_set, set_board. cbn [State.board State.is_game_over
    State.winning_side State._white_king_position State._black_king_position
    State.number_of_moves State._is_original].
  rewrite Board_set_set. reflexivity.
Qed.

Lemma Cell_init_error (x y : Z) (e : exn) :
  Cell_init x y = inl e ->
  e = ValueError "Cell must lie within the chess board.".
Proof.
  unfold Cell_init. destruct (_ || _); [|discriminate]. intros [= <-].
  reflexivity.
Qed.

Lemma Cell_init_cases (x y : Z) :
  (in_board x y /\ Cell_init x y = inr (Cell.mk x y)) \/
  Cell_init x y = inl (ValueError "Cell must lie within the chess board.").
Proof.
  destruct (Cell_init x y) as [e|c] eqn:E.
  - right. rewrite (Cell_init_error x y e E). reflexivity.
  - left. destruct (Cell_init_inv x y c E) as [-> H]. auto.
Qed.

Lemma State__is_cell_under_attack_sound (s : State) (cell : Cell) (color : Z) :
  sound_state s -> valid_cell cell -> color = -1 \/ color = 1 ->
  exists b, State__is_cell_under_attack s cell color = inr b.
Proof.
  intros ((Hb & _) & _) Hc Hcol. unfold State__is_cell_under_attack.
  rewrite (proj2 (valid_color_cases color) Hcol).
  apply attack_scan_ok; [|exact Hc|exact all_cells_in_board].
  intros c f. apply wf_board_figures_valid. exact Hb.
Qed.

Lemma relocate_rook_run (figure x : Figure) (rn : Cell) (t : State)
  (h : list EnumeratedMove) :
  sound_state t -> valid_cell rn ->
  valid_cell (Figure._current_position figure) ->
  State_get_by_cell t (Figure._current_position figure) = Some x ->
  exists t',
    relocate_rook figure rn (t, h) = (inr tt, (t', h)) /\
    sound_state t' /\ same_game t t' /\
    State._white_king_position t' = State._white_king_position t /\
    State._black_king_position t' = State._black_king_position t.
Proof.
  intros Hs Hrn Hf Hx. unfold relocate_rook. mrun. rewrite Hx.
  destruct (sound_state_get t _ x Hs Hf Hx) as [_ Hsx].
  assert (Hb : wf_board (State.board t)) by exact (proj1 (proj1 Hs)).
  unfold State_get_by_cell at 1.
  cbn [State_board_set set_board State.board].
  rewrite Board_get_set_eq by assumption. mrun.
  eexists. split; [reflexivity|].
  split; [|repeat split].
  rewrite State_board_set_set.
  apply sound_state_board_set; [|exact Hf|discriminate].
  apply sound_state_board_set; [exact Hs|exact Hrn|].
  intros f [= <-]. split; [reflexivity|exact Hsx].
Qed.

Lemma moved_state_occupied (s : State) (self figure : Figure) (kn cell : Cell) :
  wf_state s -> valid_cell kn -> valid_cell cell ->
  valid_cell (Figure._current_position self) ->
  cell <> Figure._current_position self ->
  State_get_by_cell s cell = Some figure ->
  exists x, State_get_by_cell (moved_state s self kn) cell = Some x.
Proof.
  intros Hwf Hkn Hc Hp Hne Hget.
  destruct (Cell_eq cell kn) eqn:E;
    [apply Cell_eq_true in E; subst cell
    |assert (Hne' : cell <> kn)
       by (intros E'; apply Cell_eq_true in E'; congruence)].
  - destruct (moved_state_cell s self kn Hwf Hkn Hp) as [H _]; [congruence|].
    eauto.
  - rewrite moved_state_frame by assumption. eauto.
Qed.

Lemma King_castle_outcome (self figure : Figure) (cell : Cell)
  (s : State) (h : list EnumeratedMove) :
  sound_state s -> valid_cell cell ->
  valid_cell (Figure._current_position self) ->
  State_get_by_cell s (Figure._current_position self) = Some self ->
  State_get_by_cell s cell = Some figure ->
  Figure.kind self <> Figure.kind figure ->
  move_outcome s h (King_castle self figure cell (s, h)).
Proof.
  intros Hs Hc Hp Hget Hfig Hkind.
  destruct (sound_state_get s _ self Hs Hp Hget) as [_ Hself].
  destruct (sound_state_get s _ figure Hs Hc Hfig) as [Hfpos _].
  pose proof (proj1 Hself) as Hcol.
  assert (Hne : cell <> Figure._current_position self).
  { intros E. rewrite E in Hfig. congruence. }
  unfold King_castle. mrun.
  set (pos := Figure._current_position self) in *.
  set (color := Figure._color self) in *.
  destruct (line_clear_ok s
    ((fun x => (x, Cell.y cell)) <$>
       range (Z.min (Cell.x pos) (Cell.x cell) + 1)
             (Z.max (Cell.x pos) (Cell.x cell)))) as [free ->].
  { apply Forall_fmap, Forall_forall. intros x Hin. unfold range in Hin.
    apply elem_of_seqZ in Hin. destruct Hp as [? ?], Hc as [? ?].
    split; simpl; lia. }
  destruct free; cbn [negb]; [|apply outcome_reject0].
  destruct (State__is_king_in_check_sound s color Hs Hcol) as [chk ->].
  destruct chk; [apply outcome_reject0|].
  assert (Hrn : in_board (Cell.x pos + sign (Cell.x cell - Cell.x pos))
                         (Cell.y cell)).
  { destruct Hp as [? ?], Hc as [? ?].
    destruct (sign_spec (Cell.x cell - Cell.x pos))
      as [[? ->]|[[? ->]|[? ->]]]; split; lia. }
  rewrite (Cell_init_in_board _ _ Hrn).
  set (rn := Cell.mk (Cell.x pos + sign (Cell.x cell - Cell.x pos))
                     (Cell.y cell)) in *.
  destruct (Cell_init_cases (Cell.x pos + 2 * sign (Cell.x cell - Cell.x pos))
              (Cell.y cell)) as [[Hkn ->]| ->]; [|apply outcome_reject0].
  set (kn := Cell.mk (Cell.x pos + 2 * sign (Cell.x cell - Cell.x pos))
                     (Cell.y cell)) in *.
  destruct (State__is_cell_under_attack_sound s rn (color * -1) Hs Hrn)
    as [att ->]; [lia|].
  destruct att; [apply outcome_reject0|].
  unbind.
  rewrite Figure__make_move_on_copied_run
    by (try exact (proj1 Hs); assumption).
  mrun. fold pos.
  set (em := mkEnumeratedMove (mkMove pos kn) (State.number_of_moves s + 1)).
  assert (Hcopy : sound_state (moved_state (as_copy s) self kn))
    by (apply sound_moved_state; assumption).
  destruct (State_change_king_position_by_color_run
              (moved_state (as_copy s) self kn) kn color Hcol)
    as (c1 & -> & Hb1 & _ & Hsound1).
  specialize (Hsound1 Hcopy Hkn).
  destruct (moved_state_occupied (as_copy s) self figure kn cell)
    as [x Hx]; [exact (proj1 Hs)|assumption..|].
  unfold on_copy. unbind. unfold run_on. cbn [fst snd].
  destruct (relocate_rook_run figure x rn c1 (h ++ [em]))
    as (c2 & -> & Hsound2 & _); [exact Hsound1|exact Hrn|congruence| |].
  { unfold State_get_by_cell in *. rewrite Hb1, Hfpos. exact Hx. }
  mrun.
  destruct (State__is_king_in_check_sound c2 color Hsound2 Hcol) as [chk ->].
  destruct chk; [apply outcome_reject1|].
  rewrite Figure__make_move_run. mrun. fold pos em.
  assert (Hmoved : sound_state (moved_state s self kn))
    by (apply sound_moved_state; assumption).
  destruct (State_change_king_position_by_color_run
              (moved_state s self kn) kn color Hcol)
    as (s1 & -> & Hbs1 & Hsame1 & Hsounds1).
  specialize (Hsounds1 Hmoved Hkn).
  destruct (moved_state_occupied s self figure kn cell)
    as [x' Hx']; [exact (proj1 Hs)|assumption..|].
  destruct (relocate_rook_run figure x' rn s1 ((h ++ [em]) ++ [em]))
    as (s2 & -> & Hsounds2 & Hsame2 & _);
    [exact Hsounds1|exact Hrn|congruence| |].
  { unfold State_get_by_cell in *. rewrite Hbs1, Hfpos. exact Hx'. }
  apply outcome_commit.
  apply (committed_same_game s s1 s2); [|exact Hsame2|exact Hsounds2].
  apply (committed_same_game s (moved_state s self kn) s1);
    [|exact Hsame1|exact Hsounds1].
  apply committed_moved_state; assumption.
Qed.

Lemma King_make_move_outcome (self : Figure) (cell : Cell)
  (s : State) (h : list EnumeratedMove) :
  sound_state s -> valid_cell cell ->
  valid_cell (Figure._current_position self) ->
  State_get_by_cell s (Figure._current_position self) = Some self ->
  Figure.kind self = King ->
  move_outcome s h (King_make_move self cell (s, h)).
Proof.
  intros Hs Hc Hp Hget Hkind. unfold King_make_move. mrun.
  unfold castling_rook.
  destruct (State_get_by_cell s cell) as [figure|] eqn:Hfig;
    [|apply King_step_outcome; assumption].
  destruct (Kind_eqb (Figure.kind figure) Rook) eqn:Hk; cbn [andb];
    [|apply King_step_outcome; assumption].
  destruct (Figure_is_initial_position figure
            && Figure_is_initial_position self);
    [|apply King_step_outcome; assumption].
  apply King_castle_outcome; try assumption.
  rewrite Hkind. intros E. rewrite <- E in Hk. discriminate.
Qed.

End Castling.

Section Pawns.

Lemma Pawn_transform_to_queen_run (t : State) (cell : Cell) (pawn : Figure) :
  sound_state t -> valid_cell cell ->
  State_get_by_cell t cell = Some pawn ->
  exists t',
    Pawn_transform_to_queen t cell = inr t' /\
    sound_state t' /\ same_game t t'.
Proof.
  intros Hs Hc Hget.
  destruct (sound_state_get t cell pawn Hs Hc Hget) as [Hpos [Hcol Hn]].
  unfold Pawn_transform_to_queen. rewrite Hget. unfold Figure_init.
  rewrite (proj2 (valid_color_cases _) Hcol). unbind.
  cbn [Figure.kind Figure._current_position Figure._color].
  eexists. split; [reflexivity|]. split; [|repeat split].
  rewrite Hpos. apply sound_state_board_set; [exact Hs|exact Hc|].
  intros f [= <-]. split; [reflexivity|]. split; [exact Hcol|exact Hn].
Qed.

Lemma Pawn_commit_run (self : Figure) (cell : Cell) (s : State)
  (h : list EnumeratedMove) :
  sound_state s -> valid_cell cell ->
  valid_cell (Figure._current_position self) ->
  Figure._current_position self <> cell -> sound_figure self ->
  exists s',
    Pawn_commit self cell (s, h) =
      (inr tt,
       (s', h ++ [mkEnumeratedMove (mkMove (Figure._current_position self) cell)
                    (State.number_of_moves s + 1)])) /\
    committed s s'.
Proof.
  intros Hs Hc Hp Hne Hself. unfold Pawn_commit. unbind.
  rewrite Figure__make_move_run.
  pose proof (committed_moved_state s self cell Hs Hc Hp Hself) as Hcm.
  destruct (is_transformation self cell); [|unfold ret; eauto].
  mrun.
  destruct (moved_state_cell s self cell (proj1 Hs) Hc Hp Hne) as [Hcell _].
  destruct (Pawn_transform_to_queen_run (moved_state s self cell) cell _
              (proj1 Hcm) Hc Hcell) as (s' & -> & Hs' & Hsame).
  eexists. split; [reflexivity|].
  exact (committed_same_game s _ s' Hcm Hsame Hs').
Qed.

Lemma Pawn_simulate_run (self : Figure) (cell : Cell) (s : State)
  (h : list EnumeratedMove) :
  sound_state s -> valid_cell cell ->
  valid_cell (Figure._current_position self) ->
  State_get_by_cell s (Figure._current_position self) = Some self ->
  Figure.kind self = Pawn ->
  Figure._current_position self <> cell ->
  exists b,
    Pawn_simulate self cell (s, h) =
      (inr b,
       (s, h ++ [mkEnumeratedMove (mkMove (Figure._current_position self) cell)
                   (State.number_of_moves s + 1)])).
Proof.
  intros Hs Hc Hp Hget Hkind Hne.
  destruct (sound_state_get s _ self Hs Hp Hget) as [_ Hself].
  unfold Pawn_simulate. unbind.
  rewrite Figure__make_move_on_copied_run
    by (try exact (proj1 Hs); assumption).
  assert (Hcopy : sound_state (moved_state (as_copy s) self cell))
    by (apply sound_moved_state; assumption).
  destruct (is_transformation self cell).
  - mrun. unfold transform_to_queen_at.
    destruct (moved_state_cell (as_copy s) self cell (proj1 Hs) Hc Hp Hne)
      as [Hcell _].
    rewrite Hcell. cbn [moved_figure Figure.kind]. rewrite Hkind.
    cbn [Kind_eqb].
    destruct (Pawn_transform_to_queen_run _ cell _ Hcopy Hc Hcell)
      as (t' & -> & Ht' & _).
    destruct (State__is_king_in_check_sound t' (Figure._color self) Ht'
                (proj1 Hself)) as [b ->].
    eauto.
  - mrun.
    destruct (State__is_king_in_check_sound _ (Figure._color self) Hcopy
                (proj1 Hself)) as [b ->].
    eauto.
Qed.

Lemma Pawn_simulate_and_move_outcome (self : Figure) (cell : Cell) (s : State)
  (h : list EnumeratedMove) :
  sound_state s -> valid_cell cell ->
  valid_cell (Figure._current_position self) ->
  State_get_by_cell s (Figure._current_position self) = Some self ->
  Figure.kind self = Pawn ->
  Figure._current_position self <> cell ->
  move_outcome s h (Pawn_simulate_and_move self cell (s, h)).
Proof.
  intros Hs Hc Hp Hget Hkind Hne.
  destruct (sound_state_get s _ self Hs Hp Hget) as [_ Hself].
  unfold Pawn_simulate_and_move. unbind.
  destruct (Pawn_simulate_run self cell s h Hs Hc Hp Hget Hkind Hne)
    as [b ->].
  destruct b; [apply outcome_reject1|].
  destruct (Pawn_commit_run self cell s
              (h ++ [mkEnumeratedMove
                       (mkMove (Figure._current_position self) cell)
                       (State.number_of_moves s + 1)]) Hs Hc Hp Hne Hself)
    as (s' & -> & Hcm).
  apply outcome_commit. exact Hcm.
Qed.

Lemma not_en_passant_ok (s : State) (self : Figure) (figure : option Figure) :
  (forall f, figure = Some f -> sound_figure f) ->
  exists b, not_en_passant s self figure = inr b.
Proof.
  intros Hf. unfold not_en_passant. destruct figure as [f|]; [|eauto].
  destruct (Hf f eq_refl) as [_ Hn].
  destruct (_ =? _); [eauto|].
  destruct (negb (Kind_eqb _ _)); [eauto|].
  destruct (Z.eqb_spec (Figure.number_of_moves f) 1) as [E|E];
    cbn [negb]; [|eauto].
  unfold Figure_last_move. rewrite E. cbn [Z.ltb Z.compare Z.sub Z.add
    Z.opp Z.pos_sub Z.to_nat].
  destruct (Figure.moves f) as [|m l]; [simpl in Hn; lia|].
  simpl. eauto.
Qed.

Lemma Pawn_en_passant_outcome (self : Figure) (cell : Cell) (s : State)
  (h : list EnumeratedMove) :
  sound_state s -> valid_cell cell ->
  valid_cell (Figure._current_position self) ->
  State_get_by_cell s (Figure._current_position self) = Some self ->
  move_outcome s h (Pawn_en_passant self cell (s, h)).
Proof.
  intros Hs Hc Hp Hget.
  destruct (sound_state_get s _ self Hs Hp Hget) as [_ Hself].
  unfold Pawn_en_passant. mrun.
  set (pos := Figure._current_position self) in *.
  assert (Hbehind : in_board (Cell.x cell) (Cell.y pos)).
  { destruct Hp as [? ?], Hc as [? ?]. split; assumption. }
  rewrite (Cell_init_in_board _ _ Hbehind).
  set (behind := Cell.mk (Cell.x cell) (Cell.y pos)) in *.
  destruct (State_get_by_cell s behind) as [figure|] eqn:Hfig.
  2:{ cbn [not_en_passant]. apply outcome_reject0. }
  destruct (sound_state_get s behind figure Hs Hbehind Hfig) as [Hfpos Hfs].
  destruct (not_en_passant_ok s self (Some figure)) as [refused ->].
  { intros f [= <-]. exact Hfs. }
  destruct refused; [apply outcome_reject0|].
  unbind.
  rewrite Figure__make_move_on_copied_run
    by (try exact (proj1 Hs); assumption).
  mrun. fold pos.
  assert (Hvf : valid_cell (Figure._current_position figure))
    by (rewrite Hfpos; exact Hbehind).
  destruct (State__is_king_in_check_sound
              (State_board_set (moved_state (as_copy s) self cell)
                 (Figure._current_position figure) None)
              (Figure._color self)) as [chk ->]; [|exact (proj1 Hself)|].
  { apply sound_state_board_set; [|exact Hvf|discriminate].
    apply sound_moved_state; assumption. }
  destruct chk; [apply outcome_reject1|].
  rewrite Figure__make_move_run. mrun. fold pos.
  apply outcome_commit.
  apply (committed_same_game s (moved_state s self cell));
    [apply committed_moved_state; assumption|repeat split|].
  apply sound_state_board_set; [|exact Hvf|discriminate].
  apply sound_moved_state; assumption.
Qed.

Lemma Pawn_make_move_outcome (self : Figure) (cell : Cell) (s : State)
  (h : list EnumeratedMove) :
  sound_state s -> valid_cell cell ->
  valid_cell (Figure._current_position self) ->
  State_get_by_cell s (Figure._current_position self) = Some self ->
  Figure.kind self = Pawn ->
  move_outcome s h (Pawn_make_move self cell (s, h)).
Proof.
  intros Hs Hc Hp Hget Hkind.
  destruct (sound_state_get s _ self Hs Hp Hget) as [_ Hself].
  pose proof (proj1 Hself) as Hcol.
  unfold Pawn_make_move. mrun.
  set (pos := Figure._current_position self) in *.
  set (color := Figure._color self) in *.
  destruct ((Cell.x pos =? Cell.x cell)
            && ((Cell.y pos + color =? Cell.y cell)
                || Figure_is_initial_position self
                   && (Cell.y pos + 2 * color =? Cell.y cell))) eqn:Hfwd.
  - destruct (State_get_by_cell s cell); [apply outcome_reject0|].
    apply Pawn_simulate_and_move_outcome; try assumption.
    fold pos. intros E. rewrite <- E in Hfwd.
    rewrite andb_true_iff, orb_true_iff, andb_true_iff, !Z.eqb_eq in Hfwd.
    lia.
  - destruct ((Z.abs (Cell.x pos - Cell.x cell) =? 1)
              && (Cell.y pos + color =? Cell.y cell)) eqn:Hcap;
      [|apply outcome_reject0].
    destruct (State_get_by_cell s cell) as [figure|];
      [|apply Pawn_en_passant_outcome; assumption].
    destruct (Figure._color figure =? color); [apply outcome_reject0|].
    apply Pawn_simulate_and_move_outcome; try assumption.
    fold pos. intros E. rewrite <- E in Hcap.
    rewrite andb_true_iff, !Z.eqb_eq in Hcap. lia.
Qed.

Lemma Figure_make_move_outcome (self : Figure) (cell : Cell) (s : State)
  (h : list EnumeratedMove) :
  sound_state s -> valid_cell cell ->
  valid_cell (Figure._current_position self) ->
  State_get_by_cell s (Figure._current_position self) = Some self ->
  move_outcome s h (Figure_make_move self cell (s, h)).
Proof.
  intros Hs Hc Hp Hget. unfold Figure_make_move.
  destruct (Figure.kind self) eqn:Hkind.
  - apply King_make_move_outcome; assumption.
  - apply pattern_make_move_outcome; assumption.
  - apply pattern_make_move_outcome; assumption.
  - apply pattern_make_move_outcome; assumption.
  - apply pattern_make_move_outcome; assumption.
  - apply Pawn_make_move_outcome; assumption.
Qed.

End Pawns.

Section MakeMove.

Lemma sound_state_ext (s s' : State) :
  State.board s' = State.board s ->
  State._white_king_position s' = State._white_king_position s ->
  State._black_king_position s' = State._black_king_position s ->
  sound_state s -> sound_state s'.
Proof.
  intros Hb Hw Hk ((Hwb & Hvw & Hvk) & Hfig).
  split; [split; [|split]|]; try congruence.
  intros c f. unfold State_get_by_cell. rewrite Hb. apply Hfig.
Qed.

Lemma State__check_on_game_over_run (s : State) (h : list EnumeratedMove) :
  sound_state s ->
  exists s' ext,
    State__check_on_game_over (s, h) = (inr tt, (s', h ++ ext)) /\
    sound_state s' /\
    State.number_of_moves s' = State.number_of_moves s /\
    State._is_original s' = State._is_original s /\
    (State.is_game_over s = true -> State.is_game_over s' = true).
Proof.
  intros Hs.
  destruct (grows_State__check_on_game_over (s, h)) as (ext & Hext).
  revert Hext.
  unfold State__check_on_game_over, get_self. unbind.
  unfold State__is_there_possible_moves_by_color. cbn [fst snd].
  assert (Hcol : State_whose_move s = -1 \/ State_whose_move s = 1).
  { unfold State_whose_move. destruct (_ =? _); auto. }
  rewrite (proj2 (valid_color_cases _) Hcol).
  destruct (possible_moves_scan_ok (State_whose_move s) all_cells
              all_cells_in_board (s, h)) as (b & h1 & ->).
  cbn [fst snd]. unfold lift.
  destruct (State__is_king_in_check_sound s (State_whose_move s) Hs Hcol)
    as (chk & ->).
  destruct b; cbn [negb]; [|destruct chk]; unfold ret, put_self;
    cbn [fst snd]; intros ->; eexists _, ext;
    (split; [reflexivity|]); (split; [|auto]);
    (apply (sound_state_ext s); [reflexivity..|exact Hs]).
Qed.

Lemma State_make_move_outcome (s : State) (h : list EnumeratedMove)
  (move : Move) :
  sound_state s -> valid_move move ->
  make_move_outcome s h (State_make_move move (s, h)).
Proof.
  intros Hs [Hfrom Hto].
  unfold State_make_move, State_make_move_with. mrun.
  destruct (State_get_by_cell s (cell_from move)) as [figure|] eqn:Hget.
  2:{ exists []. cbn [fst snd]. rewrite app_nil_r.
      split; [reflexivity|]. split; [eexists; reflexivity|reflexivity]. }
  destruct (sound_state_get s _ figure Hs Hfrom Hget) as [Hpos [Hcol _]].
  destruct (Figure._color figure =? State_whose_move s); cbn [negb].
  2:{ unfold COLORS.
      destruct Hcol as [-> | ->]; cbn [Z.eqb];
        exists []; cbn [fst snd]; rewrite app_nil_r;
        (split; [reflexivity|]);
        (split; [eexists; reflexivity|reflexivity]). }
  unbind.
  pose proof (Figure_make_move_outcome figure (cell_to move) s h Hs Hto) as Ho.
  rewrite Hpos in Ho. specialize (Ho Hfrom Hget).
  destruct (Figure_make_move figure (cell_to move) (s, h))
    as [[e|[]] [s1 h1]].
  - destruct Ho as (ext & Hh & Hv & Hst). exists ext. cbn [fst snd] in *.
    auto.
  - destruct Ho as (ext & Hh & (Hs1 & Hn & Hor & Hg & Hw) & Hlen).
    cbn [fst snd] in *. subst h1.
    destruct (State._is_original s1) eqn:Horig.
    + destruct (State__check_on_game_over_run s1 (h ++ ext) Hs1)
        as (s2 & ext2 & -> & Hs2 & Hn2 & Hor2 & Hg2).
      exists (ext ++ ext2). cbn [fst snd]. rewrite app_assoc.
      split; [reflexivity|]. split; [exact Hs2|].
      split; [congruence|]. split; [congruence|].
      split; [intros E; apply Hg2; congruence|].
      rewrite length_app. lia.
    + exists ext. cbn [fst snd]. split; [reflexivity|].
      split; [exact Hs1|]. split; [exact Hn|]. split; [congruence|].
      split; [congruence|exact Hlen].
Qed.

End MakeMove.

(** ** What [State.make_move] guarantees on a sound state *)

Lemma State_whose_move_next (s s' : State) :
  State.number_of_moves s' = State.number_of_moves s + 1 ->
  State_whose_move s' = - State_whose_move s.
Proof.
  intros E. unfold State_whose_move. rewrite E.
  generalize (State.number_of_moves s). intros n.
  destruct (Z.eqb_spec ((n + 1) mod 2) 0), (Z.eqb_spec (n mod 2) 0);
    try reflexivity; exfalso;
    pose proof (Z.mod_pos_bound n 2 ltac:(lia));
    pose proof (Z.mod_pos_bound (n + 1) 2 ltac:(lia));
    pose proof (Z.div_mod n 2 ltac:(lia));
    pose proof (Z.div_mod (n + 1) 2 ltac:(lia)); lia.
Qed.

Lemma play_outcome (moves : list Move) :
  forall w : World,
    sound_state (fst w) -> Forall valid_move moves ->
    sound_state (fst (snd (play moves w))) /\
    State._is_original (fst (snd (play moves w))) = State._is_original (fst w) /\
    (fst (play moves w) = inr tt ->
     ply (snd (play moves w)) = ply w + Z.of_nat (length moves)).
Proof.
  induction moves as [|m rest IH]; intros [s h] Hs Hall.
  - cbn [play fst snd length]. split; [exact Hs|]. split; [reflexivity|].
    intros _. lia.
  - apply Forall_cons in Hall. destruct Hall as [Hm Hrest].
    cbn [play]. pose proof (State_make_move_outcome s h m Hs Hm) as Ho.
    destruct (State_make_move m (s, h)) as [[e|[]] [s1 h1]];
      destruct Ho as (ext & _ & Ho); cbn [fst snd] in *.
    + destruct Ho as [_ ->]. split; [exact Hs|]. split; [reflexivity|].
      discriminate.
    + destruct Ho as (Hs1 & Hn & Hor & _).
      destruct (IH (s1, h1) Hs1 Hrest) as (H1 & H2 & H3). cbn [fst] in *.
      split; [exact H1|]. split; [congruence|].
      intros E. rewrite (H3 E). unfold ply. cbn [fst length]. lia.
Qed.

Lemma new_game_sound : sound_state (fst new_game).
Proof. apply sound_stateb_sound. vm_compute. reflexivity. Qed.

(** X8.  A [State.make_move] call that raises on a sound state leaves the
    state object exactly as it was: board, ply counter, king caches and
    game-over fields (the shared [moves] list is not part of it). *)
Theorem State_make_move_rejected_unchanged (w : World) (move : Move) (e : exn) :
  sound_state (fst w) -> valid_move move ->
  fst (State_make_move move w) = inl e ->
  fst (snd (State_make_move move w)) = fst w.
Proof.
  destruct w as [s h]. intros Hs Hm Hr.
  destruct (State_make_move_outcome s h move Hs Hm) as (ext & _ & Ho).
  rewrite Hr in Ho. exact (proj2 Ho).
Qed.

Lemma State_make_move_rejected_unchanged_witness :
  fst (snd (State_make_move (mv 1 7 1 6) (after game_check)))
    = fst (after game_check).
Proof.
  apply (State_make_move_rejected_unchanged (after game_check) (mv 1 7 1 6)
           (ValueError "You will be in check, you cannot make such move.")).
  - apply sound_stateb_sound. vm_compute. reflexivity.
  - split; split; simpl; lia.
  - vm_compute. reflexivity.
Defined.



(** X10.  An accepted [State.make_move] on a sound state leaves a sound
    state, adds exactly one to the ply counter, passes the turn to the other
    colour and keeps [_is_original]. *)
Theorem State_make_move_accepted_step (w : World) (move : Move) :
  sound_state (fst w) -> valid_move move ->
  fst (State_make_move move w) = inr tt ->
  let w' := snd (State_make_move move w) in
  sound_state (fst w') /\
  ply w' = ply w + 1 /\
  State_whose_move (fst w') = - State_whose_move (fst w) /\
  State._is_original (fst w') = State._is_original (fst w).
Proof.
  destruct w as [s h]. intros Hs Hm Hr w'. subst w'.
  destruct (State_make_move_outcome s h move Hs Hm) as (ext & _ & Ho).
  rewrite Hr in Ho. destruct Ho as (Hs' & Hn & Hor & _).
  split; [exact Hs'|]. split; [exact Hn|].
  split; [apply State_whose_move_next; exact Hn|exact Hor].
Qed.

Lemma State_make_move_accepted_step_witness :
  let w' := snd (State_make_move (mv 5 2 5 4) new_game) in
  sound_state (fst w') /\
  ply w' = ply new_game + 1 /\
  State_whose_move (fst w') = - State_whose_move (fst new_game) /\
  State._is_original (fst w') = State._is_original (fst new_game).
Proof.
  apply (State_make_move_accepted_step new_game (mv 5 2 5 4)).
  - apply sound_stateb_sound. vm_compute. reflexivity.
  - split; split; simpl; lia.
  - vm_compute. reflexivity.
Defined.

(** X11.  [State.make_move] on a sound state only appends to the [moves]
    list, and an accepted move appends at least two entries. *)
Theorem State_make_move_history (w : World) (move : Move) :
  sound_state (fst w) -> valid_move move ->
  exists ext,
    history (snd (State_make_move move w)) = history w ++ ext /\
    (fst (State_make_move move w) = inr tt -> (2 <= length ext)%nat).
Proof.
  destruct w as [s h]. intros Hs Hm.
  destruct (State_make_move_outcome s h move Hs Hm) as (ext & Hh & Ho).
  exists ext. split; [exact Hh|]. intros Hr. rewrite Hr in Ho.
  exact (proj2 (proj2 (proj2 (proj2 Ho)))).
Qed.

Lemma State_make_move_history_witness :
  exists ext,
    history (snd (State_make_move (mv 5 2 5 4) new_game))
      = history new_game ++ ext /\
    (fst (State_make_move (mv 5 2 5 4) new_game) = inr tt ->
     (2 <= length ext)%nat).
Proof.
  apply (State_make_move_history new_game (mv 5 2 5 4)).
  - apply sound_stateb_sound. vm_compute. reflexivity.
  - split; split; simpl; lia.
Defined.

(** X12.  [State.make_move] never clears [is_game_over]: if the flag is set
    before the call it is set after it, whether the move is accepted or
    rejected. *)
Theorem State_make_move_keeps_game_over (w : World) (move : Move) :
  sound_state (fst w) -> valid_move move ->
  State.is_game_over (fst w) = true ->
  State.is_game_over (fst (snd (State_make_move move w))) = true.
Proof.
  destruct w as [s h]. intros Hs Hm Hover.
  destruct (State_make_move_outcome s h move Hs Hm) as (ext & _ & Ho).
  destruct (fst (State_make_move move (s, h))).
  - destruct Ho as [_ ->]. exact Hover.
  - destruct Ho as (_ & _ & _ & Hg & _). exact (Hg Hover).
Qed.

Lemma State_make_move_keeps_game_over_witness :
  State.is_game_over
    (fst (snd (State_make_move (mv 4 7 4 5) (after game_false_mate)))) = true.
Proof.
  apply (State_make_move_keeps_game_over (after game_false_mate)
           (mv 4 7 4 5)).
  - apply sound_stateb_sound. vm_compute. reflexivity.
  - split; split; simpl; lia.
  - vm_compute. reflexivity.
Defined.

(** X13.  Every state reached from [State()] by a sequence of
    [make_move] calls between board cells is sound and still marked
    original; if every call was accepted, the ply counter equals the number
    of calls. *)
Theorem reachable_states_sound (moves : list Move) :
  Forall valid_move moves ->
  sound_state (fst (after moves)) /\
  State._is_original (fst (after moves)) = true /\
  (fst (play moves new_game) = inr tt ->
   ply (after moves) = Z.of_nat (length moves)).
Proof.
  intros Hall.
  destruct (play_outcome moves new_game new_game_sound Hall)
    as (H1 & H2 & H3).
  split; [exact H1|]. split; [exact H2|]. intros E. unfold after.
  rewrite (H3 E). reflexivity.
Qed.

Lemma reachable_states_sound_witness :
  sound_state (fst (after game_check)) /\
  State._is_original (fst (after game_check)) = true /\
  (fst (play game_check new_game) = inr tt ->
   ply (after game_check) = Z.of_nat (length game_check)).
Proof.
  apply (reachable_states_sound game_check).
  repeat constructor; simpl; lia.
Defined.

(** X14.  The two tests [State.make_move] makes before it consults the
    figure: an empty source cell and a figure of the side not to move are
    rejected with their [ValueError] messages, and then nothing changes,
    not even the [moves] list. *)
Theorem State_make_move_precheck (w : World) (move : Move) :
  match State_get_by_cell (fst w) (cell_from move) with
  | None =>
      State_make_move move w =
        (inl (ValueError "From cell has no figure on it."), w)
  | Some figure =>
      Figure._color figure <> State_whose_move (fst w) ->
      (Figure._color figure = 1 ->
       State_make_move move w = (inl (ValueError "It's not white turn."), w)) /\
      (Figure._color figure = -1 ->
       State_make_move move w = (inl (ValueError "It's not black turn."), w))
  end.
Proof.
  destruct w as [s h]. unfold State_make_move, State_make_move_with. mrun.
  destruct (State_get_by_cell s (cell_from move)) as [figure|];
    [|reflexivity].
  intros Hne. apply Z.eqb_neq in Hne. rewrite Hne. cbn [negb].
  unfold COLORS. split; intros ->; reflexivity.
Qed.

(** ** Moves do not read [_is_original] or the [moves] list *)

Section Tracks.

Context (g : bool -> bool).

Lemma reflag_id (s : State) : reflag (fun b => b) s = s.
Proof. destruct s. reflexivity. Qed.

Lemma tracks_ret {A} (s : State) (a : A) : tracks g s (ret a) (ret a).
Proof. intros h1 h2. split; reflexivity. Qed.

Lemma tracks_raise {A} (s : State) (e : exn) :
  tracks g s (@raise A e) (raise e).
Proof. intros h1 h2. split; reflexivity. Qed.

Lemma tracks_lift {A} (s : State) (r : result A) : tracks g s (lift r) (lift r).
Proof. intros h1 h2. split; reflexivity. Qed.

Lemma tracks_moves_append (s : State) (x : EnumeratedMove) :
  tracks g s (moves_append x) (moves_append x).
Proof. intros h1 h2. split; reflexivity. Qed.

Lemma tracks_put_self (s t : State) :
  tracks g s (put_self (reflag g t)) (put_self t).
Proof. intros h1 h2. split; reflexivity. Qed.

Lemma tracks_get_bind {A} (s : State) (k1 k2 : State -> M A) :
  tracks g s (k1 (reflag g s)) (k2 s) ->
  tracks g s (bind get_self k1) (bind get_self k2).
Proof. intros H h1 h2. exact (H h1 h2). Qed.

Lemma tracks_bind {A B} (s : State) (m1 m2 : M A) (f1 f2 : A -> M B) :
  tracks g s m1 m2 ->
  (forall a s', tracks g s' (f1 a) (f2 a)) ->
  tracks g s (bind m1 f1) (bind m2 f2).
Proof.
  intros Hm Hf h1 h2. unfold bind, M_bind.
  destruct (Hm h1 h2) as [Hr Hs].
  destruct (m1 (reflag g s, h1)) as [r1 [t1 l1]],
           (m2 (s, h2)) as [r2 [t2 l2]].
  cbn [fst snd] in Hr, Hs. subst r1 t1.
  destruct r2 as [e|a]; [split; reflexivity|].
  exact (Hf a t2 l1 l2).
Qed.

End Tracks.

Lemma tracks_run_on {A} (g : bool -> bool) (s c : State) (m1 m2 : M A) :
  tracks (fun b => b) c m1 m2 ->
  tracks g s (run_on c m1) (run_on c m2).
Proof.
  intros Hm h1 h2. unfold run_on. cbn [fst snd].
  destruct (Hm h1 h2) as [Hr Hs]. rewrite reflag_id in Hr, Hs.
  rewrite reflag_id in Hs.
  destruct (m1 (c, h1)) as [r1 [t1 l1]], (m2 (c, h2)) as [r2 [t2 l2]].
  cbn [fst snd] in *. subst. split; reflexivity.
Qed.

(** The attack tests read the board and the king caches only. *)
Section BoardOnly.

Context (s s' : State).
Hypothesis Hboard : State.board s' = State.board s.

Lemma get_by_cell_board (c : Cell) :
  State_get_by_cell s' c = State_get_by_cell s c.
Proof. unfold State_get_by_cell. rewrite Hboard. reflexivity. Qed.

Lemma line_clear_board (coords : list (Z * Z)) :
  line_clear s' coords = line_clear s coords.
Proof.
  induction coords as [|[x y] rest IH]; [reflexivity|]. cbn [line_clear].
  destruct (Cell_init x y) as [e|c]; [reflexivity|]. unbind.
  rewrite get_by_cell_board, IH. reflexivity.
Qed.

Lemma diagonal_walk_board (fuel : nat) (vx vy : Z) (cell : Cell) :
  forall x y,
    diagonal_walk fuel s' vx vy x y cell = diagonal_walk fuel s vx vy x y cell.
Proof.
  induction fuel as [|fuel IH]; intros x y; [reflexivity|].
  cbn [diagonal_walk].
  destruct (Cell_init (x + vx) (y + vy)) as [e|c]; [reflexivity|]. unbind.
  rewrite get_by_cell_board, IH. reflexivity.
Qed.

Lemma Figure__is_cell_under_attack_board (f : Figure) (cell : Cell) :
  Figure__is_cell_under_attack s' f cell = Figure__is_cell_under_attack s f cell.
Proof.
  unfold Figure__is_cell_under_attack, Queen__is_cell_under_attack,
    Bishop__is_cell_under_attack, Rook__is_cell_under_attack,
    diagonal_clear, vertical_clear, horizontal_clear.
  rewrite !line_clear_board, !diagonal_walk_board. reflexivity.
Qed.

Lemma attack_scan_board (cell : Cell) (color : Z) (coords : list (Z * Z)) :
  attack_scan s' cell color coords = attack_scan s cell color coords.
Proof.
  induction coords as [|[x y] rest IH]; [reflexivity|]. cbn [attack_scan].
  destruct (Cell_init x y) as [e|c]; [reflexivity|]. unbind.
  rewrite get_by_cell_board, IH.
  destruct (State_get_by_cell s c) as [f|]; [|reflexivity].
  rewrite Figure__is_cell_under_attack_board. reflexivity.
Qed.

Lemma State__is_cell_under_attack_board (cell : Cell) (color : Z) :
  State__is_cell_under_attack s' cell color
    = State__is_cell_under_attack s cell color.
Proof.
  unfold State__is_cell_under_attack. rewrite attack_scan_board. reflexivity.
Qed.

Lemma State__is_king_in_check_board (color : Z) :
  State._white_king_position s' = State._white_king_position s ->
  State._black_king_position s' = State._black_king_position s ->
  State__is_king_in_check s' color = State__is_king_in_check s color.
Proof.
  intros Hw Hk.
  unfold State__is_king_in_check, State_get_king_position_by_color.
  rewrite Hw, Hk.
  destruct (negb _); [reflexivity|].
  destruct (color =? 1); unbind; apply State__is_cell_under_attack_board.
Qed.

End BoardOnly.

Create HintDb tracks.
#[global] Hint Resolve tracks_ret tracks_raise tracks_lift tracks_moves_append
  tracks_put_self tracks_run_on : tracks.

Section Reflag.

Context (g : bool -> bool) (s : State).

Lemma reflag_attack (f : Figure) (cell : Cell) :
  Figure__is_cell_under_attack (reflag g s) f cell
    = Figure__is_cell_under_attack s f cell.
Proof. apply Figure__is_cell_under_attack_board. reflexivity. Qed.

Lemma reflag_line_clear (coords : list (Z * Z)) :
  line_clear (reflag g s) coords = line_clear s coords.
Proof. apply line_clear_board. reflexivity. Qed.

Lemma reflag_cell_attack (cell : Cell) (color : Z) :
  State__is_cell_under_attack (reflag g s) cell color
    = State__is_cell_under_attack s cell color.
Proof. apply State__is_cell_under_attack_board. reflexivity. Qed.

Lemma reflag_check (color : Z) :
  State__is_king_in_check (reflag g s) color = State__is_king_in_check s color.
Proof. apply State__is_king_in_check_board; reflexivity. Qed.

End Reflag.



Section Setters.

Context (g : bool -> bool).

Lemma tracks_change_king_bind {B} (s : State) (cell : Cell) (color : Z)
  (k1 k2 : State -> M B) :
  (forall t s', tracks g s' (k1 (reflag g t)) (k2 t)) ->
  tracks g s
    (bind (lift (State_change_king_position_by_color (reflag g s) cell color))
       k1)
    (bind (lift (State_change_king_position_by_color s cell color)) k2).
Proof.
  intros Hk. unfold State_change_king_position_by_color.
  destruct (negb _); [intros h1 h2; split; reflexivity|].
  destruct (color =? 1); intros h1 h2.
  - exact (Hk (State.mk (State.is_game_over s) (State.winning_side s)
                 cell (State._black_king_position s) (State.board s)
                 (State.number_of_moves s) (State._is_original s)) s h1 h2).
  - exact (Hk (State.mk (State.is_game_over s) (State.winning_side s)
                 (State._white_king_position s) cell (State.board s)
                 (State.number_of_moves s) (State._is_original s)) s h1 h2).
Qed.

Lemma tracks_transform_bind {B} (s : State) (cell : Cell)
  (k1 k2 : State -> M B) :
  (forall t s', tracks g s' (k1 (reflag g t)) (k2 t)) ->
  tracks g s
    (bind (lift (Pawn_transform_to_queen (reflag g s) cell)) k1)
    (bind (lift (Pawn_transform_to_queen s cell)) k2).
Proof.
  intros Hk. unfold Pawn_transform_to_queen.
  change (State_get_by_cell (reflag g s)) with (State_get_by_cell s).
  destruct (State_get_by_cell s cell) as [pawn|];
    [|intros h1 h2; split; reflexivity].
  destruct (Figure_init _ _ _) as [e|queen];
    [intros h1 h2; split; reflexivity|].
  intros h1 h2. unbind.
  exact (Hk (State_board_set s (Figure._current_position pawn)
               (Some (Figure.mk (Figure.kind queen)
                        (Figure._current_position queen)
                        (Figure._color queen) (Figure.moves pawn)
                        (Figure.number_of_moves pawn)))) s h1 h2).
Qed.

End Setters.

(** Bring the two sides of a [tracks] goal to the same shape. *)
Ltac reflag_norm :=
  repeat match goal with
  | |- context [State_get_by_cell (reflag ?g ?s)] =>
      change (State_get_by_cell (reflag g s)) with (State_get_by_cell s)
  | |- context [State.number_of_moves (reflag ?g ?s)] =>
      change (State.number_of_moves (reflag g s))
        with (State.number_of_moves s)
  | |- context [State_get_copy (reflag ?g ?s)] =>
      change (State_get_copy (reflag g s)) with (State_get_copy s)
  | |- context [State_whose_move (reflag ?g ?s)] =>
      change (State_whose_move (reflag g s)) with (State_whose_move s)
  | |- context [not_en_passant (reflag ?g ?s)] =>
      change (not_en_passant (reflag g s)) with (not_en_passant s)
  end;
  rewrite ?reflag_attack, ?reflag_line_clear, ?reflag_cell_attack,
    ?reflag_check.

Ltac tracks_step :=
  reflag_norm;
  lazymatch goal with
  | |- tracks _ _ (bind get_self _) (bind get_self _) =>
      apply tracks_get_bind; cbn beta
  | |- tracks _ _ (bind _ _) (bind _ _) =>
      first [ apply tracks_change_king_bind; intros ? ?; cbn beta
            | apply tracks_transform_bind; intros ? ?; cbn beta
            | apply tracks_bind;
              [solve [eauto with tracks]|intros ? ?; cbn beta] ]
  | |- tracks _ _ (if ?b then _ else _) _ => destruct b
  | |- tracks _ _ (match ?x with _ => _ end) _ => destruct x
  | |- tracks _ _ (put_self _) (put_self ?t) => exact (tracks_put_self _ _ t)
  | |- _ => solve [eauto with tracks]
  end.
Ltac tracks_auto := repeat tracks_step.

Section TracksProgram.

Context (g : bool -> bool).

Lemma tracks_Figure__make_move (s : State) (self : Figure) (cell : Cell) :
  tracks g s (Figure__make_move self cell) (Figure__make_move self cell).
Proof. intros h1 h2. split; reflexivity. Qed.

Lemma tracks_State__make_move (s : State) (move : Move) :
  tracks g s (State__make_move move) (State__make_move move).
Proof.
  unfold State__make_move. tracks_auto. apply tracks_Figure__make_move.
Qed.

End TracksProgram.

#[global] Hint Resolve tracks_State__make_move : tracks.

Lemma tracks_Figure__make_move_on_copied (g : bool -> bool) (s : State)
  (self : Figure) (cell : Cell) :
  tracks g s (Figure__make_move_on_copied self cell)
    (Figure__make_move_on_copied self cell).
Proof. unfold Figure__make_move_on_copied. tracks_auto. Qed.

#[global] Hint Resolve tracks_Figure__make_move
  tracks_Figure__make_move_on_copied : tracks.

Section TracksMoves.

Context (g : bool -> bool).

Lemma tracks_pattern_make_move (s : State) (msg : string) (self : Figure)
  (cell : Cell) :
  tracks g s (pattern_make_move msg self cell)
    (pattern_make_move msg self cell).
Proof. unfold pattern_make_move. tracks_auto. Qed.

Lemma tracks_relocate_rook (s : State) (figure : Figure) (rn : Cell) :
  tracks g s (relocate_rook figure rn) (relocate_rook figure rn).
Proof.
  unfold relocate_rook. intros h1 h2. unbind. unfold get_self, put_self.
  cbn [fst snd]. reflag_norm.
  change (State_get_by_cell
            (State_board_set (reflag g s) rn
               (State_get_by_cell s (Figure._current_position figure))) rn)
    with (State_get_by_cell
            (State_board_set s rn
               (State_get_by_cell s (Figure._current_position figure))) rn).
  destruct (State_get_by_cell _ rn); split; reflexivity.
Qed.

End TracksMoves.

Lemma tracks_on_copy {A} (g : bool -> bool) (s c : State) (m : M A) :
  tracks (fun b => b) c m m -> tracks g s (on_copy c m) (on_copy c m).
Proof.
  intros Hm. unfold on_copy. tracks_auto.
Qed.

#[global] Hint Resolve tracks_relocate_rook tracks_on_copy : tracks.

Section TracksFigures.

Context (g : bool -> bool).

Lemma tracks_King_step (s : State) (self : Figure) (figure : option Figure)
  (cell : Cell) :
  tracks g s (King_step self figure cell) (King_step self figure cell).
Proof. unfold King_step. tracks_auto. Qed.

Lemma tracks_King_castle (s : State) (self figure : Figure) (cell : Cell) :
  tracks g s (King_castle self figure cell) (King_castle self figure cell).
Proof. unfold King_castle. tracks_auto. Qed.

Lemma tracks_King_make_move (s : State) (self : Figure) (cell : Cell) :
  tracks g s (King_make_move self cell) (King_make_move self cell).
Proof.
  unfold King_make_move. tracks_step. tracks_step;
    [apply tracks_King_castle|apply tracks_King_step].
Qed.

Lemma tracks_Pawn_simulate (s : State) (self : Figure) (cell : Cell) :
  tracks g s (Pawn_simulate self cell) (Pawn_simulate self cell).
Proof.
  unfold Pawn_simulate. destruct (is_transformation self cell); tracks_auto.
Qed.

Lemma tracks_Pawn_commit (s : State) (self : Figure) (cell : Cell) :
  tracks g s (Pawn_commit self cell) (Pawn_commit self cell).
Proof. unfold Pawn_commit. tracks_auto. Qed.

Lemma tracks_Pawn_simulate_and_move (s : State) (self : Figure) (cell : Cell) :
  tracks g s (Pawn_simulate_and_move self cell)
    (Pawn_simulate_and_move self cell).
Proof.
  unfold Pawn_simulate_and_move. apply tracks_bind;
    [apply tracks_Pawn_simulate|].
  intros [|] s'; [apply tracks_raise|apply tracks_Pawn_commit].
Qed.

Lemma tracks_Pawn_en_passant (s : State) (self : Figure) (cell : Cell) :
  tracks g s (Pawn_en_passant self cell) (Pawn_en_passant self cell).
Proof. unfold Pawn_en_passant. tracks_auto. Qed.

Lemma tracks_Pawn_make_move (s : State) (self : Figure) (cell : Cell) :
  tracks g s (Pawn_make_move self cell) (Pawn_make_move self cell).
Proof.
  unfold Pawn_make_move. tracks_step.
  repeat (tracks_step;
          try apply tracks_Pawn_simulate_and_move;
          try apply tracks_Pawn_en_passant).
Qed.

Lemma tracks_Figure_make_move (s : State) (self : Figure) (cell : Cell) :
  tracks g s (Figure_make_move self cell) (Figure_make_move self cell).
Proof.
  unfold Figure_make_move, Queen_make_move, Bishop_make_move,
    Knight_make_move, Rook_make_move.
  destruct (Figure.kind self);
    auto using tracks_King_make_move, tracks_pattern_make_move,
      tracks_Pawn_make_move.
Qed.

End TracksFigures.

Section TracksState.

#[local] Abbreviation same := (fun b : bool => b).

Lemma tracks_State_make_move_with (s : State) (check : M unit) (move : Move) :
  (forall s', tracks same s' check check) ->
  tracks same s (State_make_move_with check move)
    (State_make_move_with check move).
Proof.
  intros Hc. unfold State_make_move_with. tracks_step.
  tracks_step; [|apply tracks_raise].
  tracks_step; [tracks_auto|].
  apply tracks_bind; [apply tracks_Figure_make_move|]. intros _ s1. cbn beta.
  tracks_step.
  change (State._is_original (reflag same s1)) with (State._is_original s1).
  destruct (State._is_original s1); [apply Hc|apply tracks_ret].
Qed.

Lemma tracks_try_candidate (s : State) (self : Figure) (xy : Z * Z) :
  tracks same s (try_candidate self xy) (try_candidate self xy).
Proof.
  unfold try_candidate. tracks_step. tracks_step; [tracks_auto|].
  apply tracks_bind.
  - apply tracks_run_on, tracks_State_make_move_with.
    intros s'. apply tracks_ret.
  - intros [r c] s'. apply tracks_ret.
Qed.

Lemma tracks_try_candidates (self : Figure) (candidates : list (Z * Z)) :
  forall s, tracks same s (try_candidates self candidates)
              (try_candidates self candidates).
Proof.
  induction candidates as [|xy rest IH]; intros s; cbn [try_candidates].
  - apply tracks_ret.
  - apply tracks_bind; [apply tracks_try_candidate|]. intros o s'.
    apply tracks_bind; [apply IH|]. intros l s''. apply tracks_ret.
Qed.

Lemma tracks_Figure_get_possible_moves (s : State) (self : Figure) :
  tracks same s (Figure_get_possible_moves self)
    (Figure_get_possible_moves self).
Proof.
  unfold Figure_get_possible_moves.
  destruct (Figure.kind self); apply tracks_try_candidates.
Qed.

Lemma tracks_possible_moves_scan (color : Z) (coords : list (Z * Z)) :
  forall s, tracks same s (possible_moves_scan color coords)
              (possible_moves_scan color coords).
Proof.
  induction coords as [|[x y] rest IH]; intros s; cbn [possible_moves_scan].
  - apply tracks_ret.
  - apply tracks_bind; [apply tracks_lift|]. intros c s'. cbn beta.
    tracks_step. tracks_step; [|apply IH].
    tracks_step; [apply IH|].
    apply tracks_bind; [apply tracks_Figure_get_possible_moves|].
    intros l s''. destruct (negb _); [apply tracks_ret|apply IH].
Qed.

Lemma tracks_State__check_on_game_over (s : State) :
  tracks same s State__check_on_game_over State__check_on_game_over.
Proof.
  unfold State__check_on_game_over, State__is_there_possible_moves_by_color.
  tracks_step. apply tracks_bind.
  { destruct (negb _); [apply tracks_raise|apply tracks_possible_moves_scan]. }
  intros b s'. cbn beta. tracks_auto.
Qed.

Lemma tracks_State_make_move (s : State) (move : Move) :
  tracks same s (State_make_move move) (State_make_move move).
Proof.
  apply tracks_State_make_move_with. intros s'.
  apply tracks_State__check_on_game_over.
Qed.

End TracksState.

(** X15.  Nothing [State.make_move] decides depends on the contents of
    the [moves] list: started on the same state with two different lists, the
    call returns or raises the same way and leaves the same state object. *)
Theorem State_make_move_ignores_history (s : State)
  (h1 h2 : list EnumeratedMove) (move : Move) :
  fst (State_make_move move (s, h1)) = fst (State_make_move move (s, h2)) /\
  fst (snd (State_make_move move (s, h1)))
    = fst (snd (State_make_move move (s, h2))).
Proof.
  destruct (tracks_State_make_move s move h1 h2) as [Hr Hs].
  rewrite reflag_id in Hr, Hs. rewrite reflag_id in Hs. auto.
Qed.

Section CopyAgrees.

Lemma accepts_any_history (s : State) (h : list EnumeratedMove) (move : Move) :
  is_ok (fst (State_make_move move (s, h))) = accepts s move.
Proof.
  unfold accepts.
  rewrite (proj1 (State_make_move_ignores_history s h [] move)).
  reflexivity.
Qed.

Lemma make_move_on_copy_agrees (s : State) (h1 : list EnumeratedMove)
  (move : Move) :
  sound_state s -> valid_move move ->
  is_ok (fst (State_make_move_on_copy move (State_get_copy s, h1)))
    = accepts s move.
Proof.
  intros Hs [Hfrom Hto]. unfold accepts.
  rewrite (State_get_copy_eq s (proj1 (proj1 Hs))).
  change (as_copy s) with (reflag (fun _ => false) s).
  unfold State_make_move_on_copy, State_make_move, State_make_move_with.
  mrun.
  change (State_get_by_cell (reflag (fun _ => false) s))
    with (State_get_by_cell s).
  destruct (State_get_by_cell s (cell_from move)) as [figure|] eqn:Hget;
    [|reflexivity].
  destruct (sound_state_get s _ figure Hs Hfrom Hget) as [Hpos _].
  change (State_whose_move (reflag (fun _ => false) s))
    with (State_whose_move s).
  destruct (negb _); [destruct (COLORS _); reflexivity|].
  unbind.
  destruct (tracks_Figure_make_move (fun _ => false) s figure (cell_to move)
              h1 []) as [Hr _].
  pose proof (Figure_make_move_outcome figure (cell_to move) s [] Hs Hto) as Ho.
  rewrite Hpos in Ho. specialize (Ho Hfrom Hget).
  destruct (Figure_make_move figure (cell_to move)
              (reflag (fun _ => false) s, h1)) as [r1 [t1 l1]],
           (Figure_make_move figure (cell_to move) (s, [])) as [r2 [t2 l2]].
  cbn [fst snd] in *. subst r1.
  destruct r2 as [e|[]]; [reflexivity|].
  destruct Ho as (ext & _ & (Hs2 & _) & _).
  destruct (State._is_original t1); cbn [fst is_ok];
    destruct (State._is_original t2); try reflexivity;
    destruct (State__check_on_game_over_run t2 l2 Hs2) as (s' & e' & -> & _);
    reflexivity.
Qed.

End CopyAgrees.

(** ** What the enumeration of moves returns *)

Section EnumerationSpec.

Lemma accepts_inv (s : State) (move : Move) :
  accepts s move = true ->
  exists figure,
    State_get_by_cell s (cell_from move) = Some figure /\
    Figure._color figure = State_whose_move s /\
    is_ok (fst (Figure_make_move figure (cell_to move) (s, []))) = true.
Proof.
  unfold accepts, State_make_move, State_make_move_with. mrun.
  destruct (State_get_by_cell s (cell_from move)) as [figure|];
    [|discriminate].
  destruct (Z.eqb_spec (Figure._color figure) (State_whose_move s)) as [E|E];
    cbn [negb].
  2:{ destruct (COLORS _); discriminate. }
  unbind. intros H. exists figure. split; [reflexivity|]. split; [exact E|].
  destruct (Figure_make_move figure (cell_to move) (s, [])) as [[e|u] w'];
    [discriminate|reflexivity].
Qed.

Lemma pattern_make_move_covered (msg : string) (self : Figure) (cell : Cell)
  (w : World) :
  is_ok (fst (pattern_make_move msg self cell w)) = true ->
  Figure__is_cell_under_attack (fst w) self cell = inr true.
Proof.
  destruct w as [s h]. unfold pattern_make_move. mrun.
  destruct (Figure__is_cell_under_attack s self cell) as [e|[|]];
    [discriminate|reflexivity|discriminate].
Qed.

Lemma Knight_candidate_of_attack (self : Figure) (cell : Cell) :
  Knight__is_cell_under_attack self cell = true ->
  In (Cell.x cell, Cell.y cell) (Knight_candidates self).
Proof.
  unfold Knight__is_cell_under_attack, Knight_candidates. cbn [In].
  rewrite andb_true_iff, !Z.eqb_eq, !pair_equal_spec.
  generalize (Cell.x (Figure._current_position self))
             (Cell.y (Figure._current_position self))
             (Cell.x cell) (Cell.y cell).
  intros x y cx cy [Hmin Hmax].
  assert (Hx : cx = x - 2 \/ cx = x - 1 \/ cx = x + 1 \/ cx = x + 2) by lia.
  assert (Hy : cy = y - 2 \/ cy = y - 1 \/ cy = y + 1 \/ cy = y + 2) by lia.
  destruct Hx as [-> | [-> | [-> | ->]]], Hy as [-> | [-> | [-> | ->]]];
    first [lia | tauto].
Qed.

Lemma Pawn_make_move_geometry (self : Figure) (cell : Cell) (w : World) :
  is_ok (fst (Pawn_make_move self cell w)) = true ->
  let pos := Figure._current_position self in
  let color := Figure._color self in
  (Cell.x cell = Cell.x pos /\
   (Cell.y cell = Cell.y pos + color \/ Cell.y cell = Cell.y pos + 2 * color))
  \/ (Z.abs (Cell.x pos - Cell.x cell) = 1 /\ Cell.y cell = Cell.y pos + color).
Proof.
  destruct w as [s h]. unfold Pawn_make_move. mrun.
  destruct ((Cell.x (Figure._current_position self) =? Cell.x cell)
            && _) eqn:Hfwd.
  - intros _. left.
    rewrite andb_true_iff, orb_true_iff, andb_true_iff, !Z.eqb_eq in Hfwd.
    lia.
  - destruct ((Z.abs _ =? 1) && _) eqn:Hcap; [|discriminate].
    intros _. right. rewrite andb_true_iff, !Z.eqb_eq in Hcap. lia.
Qed.

Context (s : State) (self : Figure).
Hypothesis Hs : sound_state s.
Hypothesis Hpos : valid_cell (Figure._current_position self).

Lemma try_candidate_spec (h : list EnumeratedMove) (xy : Z * Z) :
  exists o h',
    try_candidate self xy (s, h) = (inr o, (s, h')) /\
    forall c, o = Some c <->
      in_board (fst xy) (snd xy) /\ c = Cell.mk (fst xy) (snd xy) /\
      accepts s (mkMove (Figure._current_position self) c) = true.
Proof.
  unfold try_candidate. mrun.
  destruct (Cell_init_cases (fst xy) (snd xy)) as [[Hin E]|E]; rewrite E.
  2:{ eexists _, _. split; [reflexivity|]. intros c. split; [discriminate|].
      intros (Hin & _). rewrite (Cell_init_in_board _ _ Hin) in E.
      discriminate. }
  unbind. unfold run_on. cbn [fst snd].
  pose proof (make_move_on_copy_agrees s h
                (mkMove (Figure._current_position self)
                   (Cell.mk (fst xy) (snd xy))) Hs
                (conj Hpos Hin)) as Hag.
  destruct (State_make_move_on_copy _ (State_get_copy s, h)) as [r [c' h']].
  cbn [fst snd] in *. eexists _, _. split; [reflexivity|].
  intros c. rewrite Hag.
  destruct (accepts s _) eqn:Hacc; split.
  - intros [= <-]. auto.
  - intros (_ & -> & _). reflexivity.
  - discriminate.
  - intros (_ & -> & E'). congruence.
Qed.

Lemma try_candidates_spec (candidates : list (Z * Z)) :
  forall h,
    exists l h',
      try_candidates self candidates (s, h) = (inr l, (s, h')) /\
      forall c, In c l <->
        In (Cell.x c, Cell.y c) candidates /\ valid_cell c /\
        accepts s (mkMove (Figure._current_position self) c) = true.
Proof.
  induction candidates as [|xy rest IH]; intros h; cbn [try_candidates].
  - exists [], h. split; [reflexivity|]. intros c. cbn [In]. tauto.
  - unbind. destruct (try_candidate_spec h xy) as (o & h1 & -> & Ho).
    destruct (IH h1) as (l & h2 & -> & Hl). unfold ret.
    eexists _, _. split; [reflexivity|]. intros c. cbn [In].
    destruct o as [c0|].
    + destruct (proj1 (Ho c0) eq_refl) as (Hin & -> & Hacc).
      cbn [In]. rewrite Hl. split.
      * intros [<-|H]; [|tauto]. cbn [Cell.x Cell.y].
        destruct xy; auto.
      * intros ([E|H] & Hv & Ha); [|tauto]. left.
        destruct c, xy; cbn [Cell.x Cell.y fst snd] in *. congruence.
    + rewrite Hl. split; [tauto|].
      intros ([E|H] & Hv & Ha); [|tauto]. exfalso.
      assert (@None Cell = Some c); [|discriminate].
      apply Ho. subst xy. destruct c. cbn [fst snd Cell.x Cell.y] in *.
      auto.
Qed.

Hypothesis Hget :
  State_get_by_cell s (Figure._current_position self) = Some self.

Lemma accepts_self (c : Cell) :
  accepts s (mkMove (Figure._current_position self) c) = true ->
  is_ok (fst (Figure_make_move self c (s, []))) = true.
Proof.
  intros H. destruct (accepts_inv _ _ H) as (figure & Hf & _ & Hok).
  cbn [cell_from cell_to] in *. rewrite Hget in Hf.
  injection Hf as <-. exact Hok.
Qed.

Lemma Figure_get_possible_moves_spec (h : list EnumeratedMove) :
  exists l h',
    Figure_get_possible_moves self (s, h) = (inr l, (s, h')) /\
    forall c, In c l <->
      valid_cell c /\
      accepts s (mkMove (Figure._current_position self) c) = true /\
      (Figure.kind self = Pawn ->
       Cell.y c <> Cell.y (Figure._current_position self)
                   + 2 * Figure._color self).
Proof.
  assert (Hall : forall c, valid_cell c <-> In (Cell.x c, Cell.y c) all_cells).
  { intros c. split; [apply all_cells_complete|]. intros Hin.
    pose proof all_cells_in_board as Hb. rewrite Forall_forall in Hb.
    apply list_elem_of_In in Hin. exact (Hb _ Hin). }
  destruct (sound_state_get s _ self Hs Hpos Hget) as [_ [Hcol _]].
  unfold Figure_get_possible_moves.
  destruct (Figure.kind self) eqn:Hkind.
  1,2,3,5:
    destruct (try_candidates_spec all_cells h) as (l & h' & -> & Hl);
    exists l, h'; (split; [reflexivity|]); intros c; rewrite Hl, <- Hall;
    split; [intros (_ & Hv & Ha); (split; [exact Hv|]);
              (split; [exact Ha|discriminate])
           |intros (Hv & Ha & _); auto].
  - destruct (try_candidates_spec (Knight_candidates self) h)
      as (l & h' & -> & Hl).
    exists l, h'. split; [reflexivity|]. intros c. rewrite Hl. split.
    + intros (_ & Hv & Ha). split; [exact Hv|]. split; [exact Ha|discriminate].
    + intros (Hv & Ha & _). split; [|auto].
      apply Knight_candidate_of_attack.
      pose proof (accepts_self c Ha) as Hok.
      unfold Figure_make_move in Hok. rewrite Hkind in Hok.
      apply pattern_make_move_covered in Hok.
      unfold Figure__is_cell_under_attack in Hok. rewrite Hkind in Hok.
      congruence.
  - destruct (try_candidates_spec (Pawn_candidates self) h)
      as (l & h' & -> & Hl).
    exists l, h'. split; [reflexivity|]. intros c. rewrite Hl.
    unfold Pawn_candidates. cbn [In]. rewrite !pair_equal_spec. split.
    + intros (Hin & Hv & Ha). split; [exact Hv|]. split; [exact Ha|].
      intros _. lia.
    + intros (Hv & Ha & Hy). specialize (Hy eq_refl).
      split; [|auto].
      pose proof (accepts_self c Ha) as Hok.
      unfold Figure_make_move in Hok. rewrite Hkind in Hok.
      apply Pawn_make_move_geometry in Hok. cbv zeta in Hok. lia.
Qed.

End EnumerationSpec.

(** ** The enumeration and the game-over test, specified *)

Section ScanSpec.

Context (s : State).
Hypothesis Hs : sound_state s.

Lemma State_get_possible_moves_spec (h : list EnumeratedMove) (cell : Cell) :
  valid_cell cell ->
  exists l h',
    State_get_possible_moves cell (s, h) = (inr l, (s, h')) /\
    forall d, In d l <-> State.is_game_over s = false /\ enumerated_move s cell d.
Proof.
  intros Hc. unfold State_get_possible_moves. mrun.
  destruct (State.is_game_over s).
  { exists [], h. split; [reflexivity|]. intros d. cbn [In].
    split; [tauto|intros [? _]; discriminate]. }
  destruct (State_get_by_cell s cell) as [figure|] eqn:Hget.
  - destruct (sound_state_get s cell figure Hs Hc Hget) as [Hpos _].
    destruct (Figure_get_possible_moves_spec s figure Hs) with (h := h)
      as (l & h' & -> & Hl); [congruence..|].
    exists l, h'. split; [reflexivity|]. intros d. rewrite Hl, Hpos.
    unfold enumerated_move. split.
    + intros (Hv & Ha & Hp). split; [reflexivity|].
      split; [exact Hc|]. split; [exact Hv|]. split; [exact Ha|].
      intros f Hf. rewrite Hget in Hf. injection Hf as <-. exact Hp.
    + intros (_ & _ & Hv & Ha & Hp). split; [exact Hv|]. split; [exact Ha|].
      apply Hp. exact Hget.
  - exists [], h. split; [reflexivity|]. intros d. cbn [In].
    split; [tauto|]. intros (_ & _ & _ & Ha & _).
    apply accepts_inv in Ha. destruct Ha as (f & Hf & _).
    cbn [cell_from] in Hf. congruence.
Qed.



End ScanSpec.



(** X17.  For a figure other than a pawn, in a sound state that is not
    over, [State.get_possible_moves] returns exactly the board cells to which
    [make_move] accepts the move (the knight's restricted candidate list
    loses nothing). *)
Theorem State_get_possible_moves_exact (w : World) (cell : Cell)
  (figure : Figure) :
  sound_state (fst w) -> valid_cell cell ->
  State.is_game_over (fst w) = false ->
  State_get_by_cell (fst w) cell = Some figure ->
  Kind_eqb (Figure.kind figure) Pawn = false ->
  exists l h',
    State_get_possible_moves cell w = (inr l, (fst w, h')) /\
    forall d, In d l <->
      valid_cell d /\ accepts (fst w) (mkMove cell d) = true.
Proof.
  destruct w as [s h]. cbn [fst]. intros Hs Hc Hover Hget Hkind.
  destruct (State_get_possible_moves_spec s Hs h cell Hc)
    as (l & h' & -> & Hl).
  exists l, h'. split; [reflexivity|]. intros d. rewrite Hl.
  unfold enumerated_move. split.
  - intros (_ & _ & Hv & Ha & _). auto.
  - intros (Hv & Ha). split; [exact Hover|]. split; [exact Hc|].
    split; [exact Hv|]. split; [exact Ha|].
    intros f Hf Hp. rewrite Hget in Hf. injection Hf as <-.
    rewrite Hp in Hkind. discriminate.
Qed.

Lemma State_get_possible_moves_exact_witness :
  exists l h',
    State_get_possible_moves (Cell.mk 2 1) new_game
      = (inr l, (fst new_game, h')) /\
    forall d, In d l <->
      valid_cell d /\ accepts (fst new_game) (mkMove (Cell.mk 2 1) d) = true.
Proof.
  apply (State_get_possible_moves_exact new_game (Cell.mk 2 1)
           (Figure.mk Knight (Cell.mk 2 1) 1 [] 0)).
  - apply sound_stateb_sound. vm_compute. reflexivity.
  - split; simpl; lia.
  - vm_compute. reflexivity.
  - vm_compute. reflexivity.
  - reflexivity.
Defined.

(** X18.  For a pawn, in a sound state that is not over,
    [State.get_possible_moves] returns exactly the accepted destinations that
    are not two ranks ahead: the two-square advance is the only accepted pawn
    move it ever leaves out. *)
Theorem State_get_possible_moves_pawn (w : World) (cell : Cell)
  (pawn : Figure) :
  sound_state (fst w) -> valid_cell cell ->
  State.is_game_over (fst w) = false ->
  State_get_by_cell (fst w) cell = Some pawn ->
  Figure.kind pawn = Pawn ->
  exists l h',
    State_get_possible_moves cell w = (inr l, (fst w, h')) /\
    forall d, In d l <->
      valid_cell d /\ accepts (fst w) (mkMove cell d) = true /\
      Cell.y d <> Cell.y cell + 2 * Figure._color pawn.
Proof.
  destruct w as [s h]. cbn [fst]. intros Hs Hc Hover Hget Hkind.
  destruct (State_get_possible_moves_spec s Hs h cell Hc)
    as (l & h' & -> & Hl).
  exists l, h'. split; [reflexivity|]. intros d. rewrite Hl.
  unfold enumerated_move. split.
  - intros (_ & _ & Hv & Ha & Hp). split; [exact Hv|]. split; [exact Ha|].
    exact (Hp pawn Hget Hkind).
  - intros (Hv & Ha & Hp). split; [exact Hover|]. split; [exact Hc|].
    split; [exact Hv|]. split; [exact Ha|].
    intros f Hf _. rewrite Hget in Hf. injection Hf as <-. exact Hp.
Qed.

Lemma State_get_possible_moves_pawn_witness :
  exists l h',
    State_get_possible_moves (Cell.mk 5 2) new_game
      = (inr l, (fst new_game, h')) /\
    forall d, In d l <->
      valid_cell d /\ accepts (fst new_game) (mkMove (Cell.mk 5 2) d) = true /\
      Cell.y d <> 2 + 2 * 1.
Proof.
  apply (State_get_possible_moves_pawn new_game (Cell.mk 5 2)
           (Figure.mk Pawn (Cell.mk 5 2) 1 [] 0)).
  - apply sound_stateb_sound. vm_compute. reflexivity.
  - split; simpl; lia.
  - vm_compute. reflexivity.
  - vm_compute. reflexivity.
  - reflexivity.
Defined.



(** ** Moves of queen, bishop, knight and rook; moves on a copy *)

Section PatternMoves.

Lemma moved_state_check (s : State) (self : Figure) (cell : Cell) (color : Z) :
  State__is_king_in_check (moved_state (as_copy s) self cell) color
    = State__is_king_in_check (moved_state s self cell) color.
Proof. apply State__is_king_in_check_board; reflexivity. Qed.

Lemma pattern_make_move_run (msg : string) (self : Figure) (cell : Cell)
  (s : State) (h : list EnumeratedMove) :
  sound_state s -> valid_cell cell ->
  valid_cell (Figure._current_position self) ->
  State_get_by_cell s (Figure._current_position self) = Some self ->
  (is_ok (fst (pattern_make_move msg self cell (s, h))) = true <->
   Figure__is_cell_under_attack s self cell = inr true /\
   State__is_king_in_check (moved_state s self cell) (Figure._color self)
     = inr false) /\
  (is_ok (fst (pattern_make_move msg self cell (s, h))) = true ->
   fst (snd (pattern_make_move msg self cell (s, h)))
     = moved_state s self cell).
Proof.
  intros Hs Hc Hp Hget. unfold pattern_make_move. mrun.
  destruct (Figure__is_cell_under_attack s self cell) as [e|[|]];
    cbn [negb].
  - split; [|discriminate]. split; [discriminate|]. intros [E _].
    discriminate.
  - unbind.
    rewrite Figure__make_move_on_copied_run
      by (try exact (proj1 Hs); assumption).
    mrun. rewrite moved_state_check.
    destruct (State__is_king_in_check (moved_state s self cell) _)
      as [e|[|]]; cbn [fst snd is_ok].
    + split; [|discriminate]. split; [discriminate|]. intros [_ E].
      discriminate.
    + split; [|discriminate]. split; [discriminate|]. intros [_ E].
      discriminate.
    + rewrite Figure__make_move_run. cbn [fst snd is_ok].
      split; [split; auto|reflexivity].
  - split; [|discriminate]. split; [discriminate|]. intros [E _].
    discriminate.
Qed.



End PatternMoves.

(** X20.  A queen, bishop, knight or rook move on a sound state is accepted
    exactly when the figure is of the side to move, its attack test covers
    the target, and the king of its colour is not attacked on the board that
    [_make_move] leaves; no other condition is tested (the target may hold
    any figure).  When accepted, the board is that board. *)
Theorem pattern_move_accepted_iff (w : World) (source target : Cell)
  (figure : Figure) :
  sound_state (fst w) -> valid_cell source -> valid_cell target ->
  State_get_by_cell (fst w) source = Some figure ->
  Kind_eqb (Figure.kind figure) King = false ->
  Kind_eqb (Figure.kind figure) Pawn = false ->
  let s := fst w in
  let r := State_make_move (mkMove source target) w in
  (is_ok (fst r) = true <->
   Figure._color figure = State_whose_move s /\
   Figure__is_cell_under_attack s figure target = inr true /\
   State__is_king_in_check (moved_state s figure target)
     (Figure._color figure) = inr false) /\
  (is_ok (fst r) = true ->
   State.board (fst (snd r)) = State.board (moved_state s figure target)).
Proof.
  destruct w as [s h]. cbn [fst]. intros Hs Hfrom Hto Hget HK HP.
  cbv zeta.
  destruct (sound_state_get s _ figure Hs Hfrom Hget) as [Hpos _].
  unfold State_make_move, State_make_move_with. mrun.
  cbn [cell_from cell_to]. rewrite Hget.
  destruct (Z.eqb_spec (Figure._color figure) (State_whose_move s)) as [E|E];
    cbn [negb].
  2:{ destruct (COLORS _); cbn [fst is_ok];
        (split; [split; [discriminate|tauto]|discriminate]). }
  unbind.
  assert (Hrun : exists msg,
    Figure_make_move figure target = pattern_make_move msg figure target).
  { unfold Figure_make_move, Queen_make_move, Bishop_make_move,
      Knight_make_move, Rook_make_move.
    destruct (Figure.kind figure); try discriminate; eauto. }
  destruct Hrun as [msg ->].
  assert (Hvp : valid_cell (Figure._current_position figure))
    by (rewrite Hpos; exact Hfrom).
  assert (Hgp : State_get_by_cell s (Figure._current_position figure)
                = Some figure) by (rewrite Hpos; exact Hget).
  destruct (pattern_make_move_run msg figure target s h Hs Hto Hvp Hgp)
    as [Hiff Hst].
  pose proof (pattern_make_move_outcome msg figure target s h Hs Hto Hvp Hgp)
    as Ho.
  destruct (pattern_make_move msg figure target (s, h)) as [[e|[]] [s1 h1]];
    cbn [fst snd is_ok] in *.
  - split; [|discriminate]. split; [discriminate|].
    intros (_ & HA & HB). apply Hiff. auto.
  - destruct Ho as (ext & _ & (Hs1 & _) & _).
    specialize (Hst eq_refl). subst s1.
    assert (Hend : exists s2 h2,
      (if State._is_original (moved_state s figure target)
       then State__check_on_game_over else ret tt)
        (moved_state s figure target, h1) = (inr tt, (s2, h2)) /\
      State.board s2 = State.board (moved_state s figure target)).
    { destruct (State._is_original _).
      - destruct (State__check_on_game_over_ok
                    (moved_state s figure target, h1) (proj1 Hs1))
          as (s2 & h2 & -> & Hb & _). eauto.
      - unfold ret. eauto. }
    unfold ret in Hend.
    destruct Hend as (s2 & h2 & -> & Hb). cbn [fst snd is_ok].
    split; [|intros _; exact Hb].
    split; [intros _|reflexivity].
    split; [exact E|]. apply Hiff. reflexivity.
Qed.

Lemma pattern_move_accepted_iff_witness :
  let s := fst new_game in
  let knight := Figure.mk Knight (Cell.mk 2 1) 1 [] 0 in
  let r := State_make_move (mkMove (Cell.mk 2 1) (Cell.mk 3 3)) new_game in
  (is_ok (fst r) = true <->
   Figure._color knight = State_whose_move s /\
   Figure__is_cell_under_attack s knight (Cell.mk 3 3) = inr true /\
   State__is_king_in_check (moved_state s knight (Cell.mk 3 3))
     (Figure._color knight) = inr false) /\
  (is_ok (fst r) = true ->
   State.board (fst (snd r))
     = State.board (moved_state s knight (Cell.mk 3 3))).
Proof.
  apply (pattern_move_accepted_iff new_game (Cell.mk 2 1) (Cell.mk 3 3)
           (Figure.mk Knight (Cell.mk 2 1) 1 [] 0)).
  - apply sound_stateb_sound. vm_compute. reflexivity.
  - split; simpl; lia.
  - split; simpl; lia.
  - vm_compute. reflexivity.
  - reflexivity.
  - reflexivity.
Defined.



(** ** What an accepted pawn move does *)

Section PawnEffect.

Context (s : State) (self : Figure) (cell : Cell).
Hypothesis Hs : sound_state s.
Hypothesis Hc : valid_cell cell.
Hypothesis Hp : valid_cell (Figure._current_position self).
Hypothesis Hget :
  State_get_by_cell s (Figure._current_position self) = Some self.
Hypothesis Hkind : Figure.kind self = Pawn.
Hypothesis Hne : Figure._current_position self <> cell.

Lemma Pawn_commit_state (h : list EnumeratedMove) :
  fst (snd (Pawn_commit self cell (s, h))) = Pawn_committed s self cell.
Proof.
  destruct (sound_state_get s _ self Hs Hp Hget) as [_ [Hcol _]].
  unfold Pawn_commit, Pawn_committed. unbind. rewrite Figure__make_move_run.
  destruct (is_transformation self cell); [|reflexivity].
  mrun. unfold Pawn_transform_to_queen.
  destruct (moved_state_cell s self cell (proj1 Hs) Hc Hp Hne) as [Hcell _].
  rewrite Hcell. unfold Figure_init. cbn [moved_figure Figure._color].
  rewrite (proj2 (valid_color_cases _) Hcol). reflexivity.
Qed.

Lemma Pawn_simulate_and_move_state (h : list EnumeratedMove) :
  is_ok (fst (Pawn_simulate_and_move self cell (s, h))) = true ->
  fst (snd (Pawn_simulate_and_move self cell (s, h)))
    = Pawn_committed s self cell.
Proof.
  unfold Pawn_simulate_and_move. unbind.
  destruct (Pawn_simulate_run self cell s h Hs Hc Hp Hget Hkind Hne)
    as [b ->].
  destruct b; [discriminate|]. intros _. apply Pawn_commit_state.
Qed.

Lemma Pawn_committed_cells :
  State_get_by_cell (Pawn_committed s self cell)
    (Figure._current_position self) = None /\
  State_get_by_cell (Pawn_committed s self cell) cell =
    Some (landed (if is_transformation self cell then Queen else Pawn)
            s self cell) /\
  forall c, valid_cell c -> c <> Figure._current_position self -> c <> cell ->
    State_get_by_cell (Pawn_committed s self cell) c = State_get_by_cell s c.
Proof.
  destruct (moved_state_cell s self cell (proj1 Hs) Hc Hp Hne)
    as [Hcell Hsrc].
  pose proof (wf_moved_state s self cell (proj1 Hs) Hc Hp) as Hwf.
  unfold Pawn_committed. destruct (is_transformation self cell).
  - unfold State_get_by_cell in *.
    cbn [State_board_set set_board State.board].
    split; [|split].
    + rewrite Board_get_set_ne by (auto; congruence). exact Hsrc.
    + apply Board_get_set_eq; [exact (proj1 Hwf)|exact Hc].
    + intros c Hv Hn1 Hn2. rewrite Board_get_set_ne by (auto; congruence).
      apply (moved_state_frame s self cell c); assumption.
  - split; [exact Hsrc|]. split.
    + rewrite Hcell. unfold moved_figure, landed. rewrite Hkind. reflexivity.
    + intros c Hv Hn1 Hn2. apply moved_state_frame; assumption.
Qed.

End PawnEffect.

Section MakeMoveBoard.

(** The game-over test that ends an accepted [make_move] keeps the board. *)
Lemma State_make_move_board (s : State) (h : list EnumeratedMove)
  (move : Move) (figure : Figure) :
  sound_state s -> valid_move move ->
  State_get_by_cell s (cell_from move) = Some figure ->
  is_ok (fst (State_make_move move (s, h))) = true ->
  is_ok (fst (Figure_make_move figure (cell_to move) (s, h))) = true /\
  Figure._color figure = State_whose_move s /\
  State.board (fst (snd (State_make_move move (s, h))))
    = State.board (fst (snd (Figure_make_move figure (cell_to move) (s, h)))).
Proof.
  intros Hs [Hfrom Hto] Hget.
  destruct (sound_state_get s _ figure Hs Hfrom Hget) as [Hpos _].
  unfold State_make_move, State_make_move_with. mrun. rewrite Hget.
  destruct (Z.eqb_spec (Figure._color figure) (State_whose_move s)) as [E|E];
    cbn [negb]; [|destruct (COLORS _); discriminate].
  unbind.
  pose proof (Figure_make_move_outcome figure (cell_to move) s h Hs Hto) as Ho.
  rewrite Hpos in Ho. specialize (Ho Hfrom Hget).
  destruct (Figure_make_move figure (cell_to move) (s, h))
    as [[e|[]] [s1 h1]]; [discriminate|].
  destruct Ho as (ext & _ & (Hs1 & _) & _). cbn [fst snd] in *.
  destruct (State._is_original s1).
  - destruct (State__check_on_game_over_ok (s1, h1) (proj1 Hs1))
      as (s2 & h2 & -> & Hb & _). cbn [fst snd is_ok]. auto.
  - cbn [fst snd is_ok]. auto.
Qed.

End MakeMoveBoard.

(** X22.  An accepted pawn move straight ahead or onto an occupied cell on
    a sound state empties the source, leaves every other cell but the target
    as it was, and puts on the target a figure with the pawn's colour and
    its move list extended by this move: a Queen when the target is on the
    last rank of the pawn's colour, a Pawn otherwise. *)
Theorem Pawn_move_effect (w : World) (source target : Cell) (pawn : Figure) :
  sound_state (fst w) -> valid_cell source -> valid_cell target ->
  State_get_by_cell (fst w) source = Some pawn ->
  Figure.kind pawn = Pawn ->
  is_ok (fst (State_make_move (mkMove source target) w)) = true ->
  Cell.x target = Cell.x source \/
    State_get_by_cell (fst w) target <> None ->
  let s := fst w in
  let s' := fst (snd (State_make_move (mkMove source target) w)) in
  let promoted := is_transformation pawn target in
  State_get_by_cell s' source = None /\
  State_get_by_cell s' target =
    Some (Figure.mk (if promoted then Queen else Pawn) target
            (Figure._color pawn)
            (Figure.moves pawn ++
               [mkEnumeratedMove (mkMove source target)
                  (State.number_of_moves s + 1)])
            (Figure.number_of_moves pawn + 1)) /\
  forall c, valid_cell c -> c <> source -> c <> target ->
    State_get_by_cell s' c = State_get_by_cell s c.
Proof.
  destruct w as [s h]. cbn [fst]. intros Hs Hfrom Hto Hget Hkind Hok Hnep.
  cbv zeta.
  destruct (sound_state_get s _ pawn Hs Hfrom Hget) as [Hpos [Hcol _]].
  subst source.
  destruct (State_make_move_board s h
              (mkMove (Figure._current_position pawn) target) pawn Hs
              (conj Hfrom Hto) Hget Hok) as (Hfig & _ & Hb).
  cbn [cell_to] in *.
  assert (Hst : fst (snd (Figure_make_move pawn target (s, h)))
                = Pawn_committed s pawn target /\
                Figure._current_position pawn <> target).
  { revert Hfig. unfold Figure_make_move. rewrite Hkind.
    unfold Pawn_make_move. mrun.
    destruct ((Cell.x (Figure._current_position pawn) =? Cell.x target) && _)
      eqn:Hfwd.
    - assert (Hne : Figure._current_position pawn <> target).
      { intros E. rewrite <- E in Hfwd.
        rewrite andb_true_iff, orb_true_iff, andb_true_iff, !Z.eqb_eq
          in Hfwd. lia. }
      destruct (State_get_by_cell s target); [discriminate|].
      intros Hok'. split; [|exact Hne].
      apply Pawn_simulate_and_move_state; assumption.
    - destruct ((Z.abs _ =? 1) && _) eqn:Hcap; [|discriminate].
      assert (Hne : Figure._current_position pawn <> target).
      { intros E. rewrite <- E in Hcap.
        rewrite andb_true_iff, !Z.eqb_eq in Hcap. lia. }
      destruct (State_get_by_cell s target) as [victim|].
      + destruct (Figure._color victim =? Figure._color pawn);
          [cbn [fst is_ok]; discriminate|].
        intros Hok'. split; [|exact Hne].
        apply Pawn_simulate_and_move_state; assumption.
      + exfalso. rewrite andb_true_iff, !Z.eqb_eq in Hcap.
        destruct Hnep as [E|E]; [lia|congruence]. }
  destruct Hst as [Hst Hne].
  destruct (Pawn_committed_cells s pawn target Hs Hto Hfrom Hkind Hne)
    as (H1 & H2 & H3).
  rewrite Hst in Hb. unfold State_get_by_cell in *. rewrite Hb.
  split; [exact H1|]. split; [exact H2|exact H3].
Qed.

Section EnPassantEffect.

Context (s : State) (self : Figure) (cell : Cell).
Hypothesis Hs : sound_state s.
Hypothesis Hc : valid_cell cell.
Hypothesis Hp : valid_cell (Figure._current_position self).
Hypothesis Hget :
  State_get_by_cell s (Figure._current_position self) = Some self.

Lemma Pawn_en_passant_state (h : list EnumeratedMove) :
  is_ok (fst (Pawn_en_passant self cell (s, h))) = true ->
  let behind :=
    Cell.mk (Cell.x cell) (Cell.y (Figure._current_position self)) in
  exists victim last,
    State_get_by_cell s behind = Some victim /\
    Figure.kind victim = Pawn /\
    Figure._color victim <> Figure._color self /\
    Figure.moves victim = [last] /\
    move_number last = State.number_of_moves s /\
    fst (snd (Pawn_en_passant self cell (s, h)))
      = State_board_set (moved_state s self cell) behind None.
Proof.
  cbv zeta. unfold Pawn_en_passant. mrun.
  set (pos := Figure._current_position self) in *.
  assert (Hbehind : in_board (Cell.x cell) (Cell.y pos)).
  { destruct Hp as [? ?], Hc as [? ?]. split; assumption. }
  rewrite (Cell_init_in_board _ _ Hbehind).
  set (behind := Cell.mk (Cell.x cell) (Cell.y pos)) in *.
  destruct (State_get_by_cell s behind) as [victim|] eqn:Hv;
    [|cbn [not_en_passant]; mrun; cbn; intros Hbad; discriminate Hbad].
  destruct (sound_state_get s behind victim Hs Hbehind Hv)
    as [Hvpos [_ Hn]].
  unfold not_en_passant.
  destruct (Z.eqb_spec (Figure._color victim) (Figure._color self))
    as [Ecol|Ecol]; [mrun; cbn; intros Hbad; discriminate Hbad|].
  destruct (Kind_eqb (Figure.kind victim) Pawn) eqn:Hk; cbn [negb];
    [|mrun; cbn; intros Hbad; discriminate Hbad].
  destruct (Z.eqb_spec (Figure.number_of_moves victim) 1) as [E1|E1];
    cbn [negb]; [|mrun; cbn; intros Hbad; discriminate Hbad].
  unfold Figure_last_move. rewrite E1.
  cbn [Z.ltb Z.compare Z.sub Z.add Z.opp Z.pos_sub Z.to_nat].
  rewrite E1 in Hn.
  destruct (Figure.moves victim) as [|last [|x l]] eqn:Hm;
    cbn [length] in Hn; try lia.
  change (Z.to_nat (1 - 1)) with 0%nat. cbn [lookup list_lookup]. unbind.
  destruct (Z.eqb_spec (State.number_of_moves s) (move_number last))
    as [Eply|Eply]; cbn [negb]; [|mrun; cbn; intros Hbad; discriminate Hbad].
  unbind.
  rewrite Figure__make_move_on_copied_run
    by (try exact (proj1 Hs); assumption).
  mrun. fold pos.
  destruct (State__is_king_in_check _ _) as [e|[|]];
    try (cbn [fst is_ok]; intros Hbad; discriminate Hbad).
  rewrite Figure__make_move_run. mrun. intros _.
  exists victim, last. rewrite Hvpos.
  split; [reflexivity|]. split.
  { destruct (Figure.kind victim); try discriminate. reflexivity. }
  split; [exact Ecol|]. split; [exact Hm|]. split; [congruence|].
  reflexivity.
Qed.

End EnPassantEffect.

(** X23.  An accepted diagonal pawn move onto an empty cell (en passant) on
    a sound state: the cell beside the pawn, on the file of the target, held
    an enemy pawn with exactly one recorded move, numbered with the current
    ply; afterwards that cell and the source are empty, the pawn stands on
    the target with one more recorded move, and every other cell is as it
    was. *)
Theorem Pawn_en_passant_effect (w : World) (source target : Cell)
  (pawn : Figure) :
  sound_state (fst w) -> valid_cell source -> valid_cell target ->
  State_get_by_cell (fst w) source = Some pawn ->
  Figure.kind pawn = Pawn ->
  is_ok (fst (State_make_move (mkMove source target) w)) = true ->
  Cell.x target <> Cell.x source ->
  State_get_by_cell (fst w) target = None ->
  let s := fst w in
  let s' := fst (snd (State_make_move (mkMove source target) w)) in
  let behind := Cell.mk (Cell.x target) (Cell.y source) in
  exists victim last,
    State_get_by_cell s behind = Some victim /\
    Figure.kind victim = Pawn /\
    Figure._color victim <> Figure._color pawn /\
    Figure.moves victim = [last] /\
    move_number last = State.number_of_moves s /\
    State_get_by_cell s' source = None /\
    State_get_by_cell s' behind = None /\
    State_get_by_cell s' target =
      Some (Figure.mk Pawn target (Figure._color pawn)
              (Figure.moves pawn ++
                 [mkEnumeratedMove (mkMove source target)
                    (State.number_of_moves s + 1)])
              (Figure.number_of_moves pawn + 1)) /\
    forall c, valid_cell c -> c <> source -> c <> target -> c <> behind ->
      State_get_by_cell s' c = State_get_by_cell s c.
Proof.
  destruct w as [s h]. cbn [fst].
  intros Hs Hfrom Hto Hget Hkind Hok Hx Hempty. cbv zeta.
  destruct (sound_state_get s _ pawn Hs Hfrom Hget) as [Hpos [Hcol _]].
  subst source.
  destruct (State_make_move_board s h
              (mkMove (Figure._current_position pawn) target) pawn Hs
              (conj Hfrom Hto) Hget Hok) as (Hfig & _ & Hb).
  cbn [cell_to] in *.
  assert (Hep : is_ok (fst (Pawn_en_passant pawn target (s, h))) = true /\
                fst (snd (Figure_make_move pawn target (s, h)))
                  = fst (snd (Pawn_en_passant pawn target (s, h))) /\
                Cell.y target
                  = Cell.y (Figure._current_position pawn)
                    + Figure._color pawn).
  { revert Hfig. unfold Figure_make_move. rewrite Hkind.
    unfold Pawn_make_move. mrun. rewrite Hempty.
    destruct (Z.eqb_spec (Cell.x (Figure._current_position pawn))
                (Cell.x target)) as [E|E]; [congruence|].
    cbn [andb].
    destruct ((Z.abs _ =? 1) && _) eqn:Hcap; [|discriminate].
    rewrite andb_true_iff, !Z.eqb_eq in Hcap. intros H.
    split; [exact H|]. split; [reflexivity|]. lia. }
  destruct Hep as (Hok' & Hst & Hy).
  destruct (Pawn_en_passant_state s pawn target Hs Hto Hfrom Hget h Hok')
    as (victim & last & Hv & Hvk & Hvc & Hvm & Hvn & Hstate).
  exists victim, last.
  split; [exact Hv|]. split; [exact Hvk|]. split; [exact Hvc|].
  split; [exact Hvm|]. split; [exact Hvn|].
  set (behind := Cell.mk (Cell.x target)
                   (Cell.y (Figure._current_position pawn))) in *.
  assert (Hvb : valid_cell behind).
  { destruct Hfrom as [? ?], Hto as [? ?]. split; assumption. }
  assert (Hnb1 : behind <> Figure._current_position pawn).
  { intros E. apply Hx. rewrite <- E. reflexivity. }
  assert (Hnb2 : behind <> target).
  { intros E. apply (f_equal Cell.y) in E. cbn [behind Cell.y] in E.
    destruct Hcol as [Hc1|Hc1]; rewrite Hc1 in Hy; lia. }
  assert (Hne : Figure._current_position pawn <> target).
  { intros E. apply Hx. rewrite E. reflexivity. }
  destruct (moved_state_cell s pawn target (proj1 Hs) Hto Hfrom Hne)
    as [Hcell Hsrc].
  pose proof (wf_moved_state s pawn target (proj1 Hs) Hto Hfrom) as Hwf.
  rewrite Hst, Hstate in Hb. unfold State_get_by_cell in *. rewrite Hb.
  cbn [State_board_set set_board State.board].
  split; [rewrite Board_get_set_ne by auto; exact Hsrc|].
  split; [apply Board_get_set_eq; [exact (proj1 Hwf)|exact Hvb]|].
  split.
  { rewrite Board_get_set_ne by auto. rewrite Hcell.
    unfold moved_figure. rewrite Hkind. reflexivity. }
  intros c Hvc' Hn1 Hn2 Hn3. rewrite Board_get_set_ne by auto.
  apply (moved_state_frame s pawn target c); assumption.
Qed.

Lemma Pawn_en_passant_effect_witness :
  let w := after game_double_step in
  let source := Cell.mk 5 5 in
  let target := Cell.mk 4 6 in
  let pawn := Figure.mk Pawn source 1
                [mkEnumeratedMove (mv 5 2 5 4) 1;
                 mkEnumeratedMove (mv 5 4 5 5) 3] 2 in
  let s := fst w in
  let s' := fst (snd (State_make_move (mkMove source target) w)) in
  let behind := Cell.mk (Cell.x target) (Cell.y source) in
  exists victim last,
    State_get_by_cell s behind = Some victim /\
    Figure.kind victim = Pawn /\
    Figure._color victim <> Figure._color pawn /\
    Figure.moves victim = [last] /\
    move_number last = State.number_of_moves s /\
    State_get_by_cell s' source = None /\
    State_get_by_cell s' behind = None /\
    State_get_by_cell s' target =
      Some (Figure.mk Pawn target (Figure._color pawn)
              (Figure.moves pawn ++
                 [mkEnumeratedMove (mkMove source target)
                    (State.number_of_moves s + 1)])
              (Figure.number_of_moves pawn + 1)) /\
    forall c, valid_cell c -> c <> source -> c <> target -> c <> behind ->
      State_get_by_cell s' c = State_get_by_cell s c.
Proof.
  apply (Pawn_en_passant_effect (after game_double_step)
           (Cell.mk 5 5) (Cell.mk 4 6)
           (Figure.mk Pawn (Cell.mk 5 5) 1
              [mkEnumeratedMove (mv 5 2 5 4) 1;
               mkEnumeratedMove (mv 5 4 5 5) 3] 2)).
  - apply sound_stateb_sound. vm_compute. reflexivity.
  - split; simpl; lia.
  - split; simpl; lia.
  - vm_compute. reflexivity.
  - reflexivity.
  - vm_compute. reflexivity.
  - simpl. lia.
  - vm_compute. reflexivity.
Defined.

Lemma Pawn_move_effect_witness :
  let w := after game_promotion in
  let source := Cell.mk 2 7 in
  let target := Cell.mk 2 8 in
  let pawn := Figure.mk Pawn source 1
                [mkEnumeratedMove (mv 1 2 1 4) 1;
                 mkEnumeratedMove (mv 1 4 2 5) 3;
                 mkEnumeratedMove (mv 2 5 2 6) 5;
                 mkEnumeratedMove (mv 2 6 2 7) 7] 4 in
  let s := fst w in
  let s' := fst (snd (State_make_move (mkMove source target) w)) in
  let promoted := is_transformation pawn target in
  State_get_by_cell s' source = None /\
  State_get_by_cell s' target =
    Some (Figure.mk (if promoted then Queen else Pawn) target
            (Figure._color pawn)
            (Figure.moves pawn ++
               [mkEnumeratedMove (mkMove source target)
                  (State.number_of_moves s + 1)])
            (Figure.number_of_moves pawn + 1)) /\
  forall c, valid_cell c -> c <> source -> c <> target ->
    State_get_by_cell s' c = State_get_by_cell s c.
Proof.
  apply (Pawn_move_effect (after game_promotion) (Cell.mk 2 7) (Cell.mk 2 8)
           (Figure.mk Pawn (Cell.mk 2 7) 1
              [mkEnumeratedMove (mv 1 2 1 4) 1;
               mkEnumeratedMove (mv 1 4 2 5) 3;
               mkEnumeratedMove (mv 2 5 2 6) 5;
               mkEnumeratedMove (mv 2 6 2 7) 7] 4)).
  - apply sound_stateb_sound. vm_compute. reflexivity.
  - split; simpl; lia.
  - split; simpl; lia.
  - vm_compute. reflexivity.
  - reflexivity.
  - vm_compute. reflexivity.
  - left. reflexivity.
Defined.

(** ** What an accepted king move does *)

Section KingEffect.

Lemma change_king_with_king (s : State) (cell : Cell) (color : Z) :
  color = -1 \/ color = 1 ->
  State_change_king_position_by_color s cell color
    = inr (with_king s cell color).
Proof.
  intros Hcol. unfold State_change_king_position_by_color, with_king.
  rewrite (proj2 (valid_color_cases color) Hcol).
  destruct (color =? 1); reflexivity.
Qed.

Lemma with_king_board (s : State) (cell : Cell) (color : Z) :
  State.board (with_king s cell color) = State.board s.
Proof. unfold with_king. destruct (color =? 1); reflexivity. Qed.

Lemma with_king_check (s : State) (cell : Cell) (color c : Z) :
  State__is_king_in_check (with_king (as_copy s) cell color) c
    = State__is_king_in_check (with_king s cell color) c.
Proof.
  apply State__is_king_in_check_board; unfold with_king;
    destruct (color =? 1); reflexivity.
Qed.

Context (s : State) (self : Figure) (cell : Cell).
Hypothesis Hs : sound_state s.
Hypothesis Hc : valid_cell cell.
Hypothesis Hp : valid_cell (Figure._current_position self).
Hypothesis Hget :
  State_get_by_cell s (Figure._current_position self) = Some self.

Lemma King_step_run (figure : option Figure) (h : list EnumeratedMove) :
  let after := with_king (moved_state s self cell) cell (Figure._color self) in
  (is_ok (fst (King_step self figure cell (s, h))) = true <->
   King__is_cell_under_attack self cell = true /\
   own_figure self figure = false /\
   State__is_king_in_check after (Figure._color self) = inr false) /\
  (is_ok (fst (King_step self figure cell (s, h))) = true ->
   fst (snd (King_step self figure cell (s, h))) = after).
Proof.
  cbv zeta.
  destruct (sound_state_get s _ self Hs Hp Hget) as [_ [Hcol _]].
  unfold King_step.
  destruct (King__is_cell_under_attack self cell); cbn [negb].
  2:{ cbn [fst is_ok raise]. split; [|discriminate].
      split; [discriminate|]. intros [E _]. discriminate. }
  destruct (own_figure self figure).
  { cbn [fst is_ok raise]. split; [|discriminate].
    split; [discriminate|]. intros (_ & E & _). discriminate. }
  unbind.
  rewrite Figure__make_move_on_copied_run
    by (try exact (proj1 Hs); assumption).
  mrun. rewrite (change_king_with_king _ cell _ Hcol).
  change (moved_state (as_copy s) self cell)
    with (as_copy (moved_state s self cell)).
  rewrite with_king_check.
  destruct (State__is_king_in_check _ _) as [e|[|]]; cbn [fst snd is_ok].
  - split; [|discriminate]. split; [discriminate|]. intros (_ & _ & E).
    discriminate.
  - split; [|discriminate]. split; [discriminate|]. intros (_ & _ & E).
    discriminate.
  - rewrite Figure__make_move_run. mrun.
    rewrite (change_king_with_king _ cell _ Hcol). cbn [fst snd is_ok].
    split; [split; auto|reflexivity].
Qed.

End KingEffect.

(** X24.  A king move that is not taken as castling is accepted on a sound
    state exactly when the king is of the side to move, the target is one of
    the eight neighbouring cells, it does not hold a figure of the king's
    colour, and the king is not attacked on the target once it stands there.
    When accepted, the board is the one [_make_move] leaves and the king
    cache of the colour is the target. *)
Theorem King_step_accepted_iff (w : World) (source target : Cell)
  (king : Figure) :
  sound_state (fst w) -> valid_cell source -> valid_cell target ->
  State_get_by_cell (fst w) source = Some king ->
  Figure.kind king = King ->
  castling_rook king (State_get_by_cell (fst w) target) = None ->
  let s := fst w in
  let r := State_make_move (mkMove source target) w in
  let after := with_king (moved_state s king target) target
                 (Figure._color king) in
  (is_ok (fst r) = true <->
   Figure._color king = State_whose_move s /\
   King__is_cell_under_attack king target = true /\
   own_figure king (State_get_by_cell s target) = false /\
   State__is_king_in_check after (Figure._color king) = inr false) /\
  (is_ok (fst r) = true ->
   State.board (fst (snd r)) = State.board after /\
   State._white_king_position (fst (snd r))
     = State._white_king_position after /\
   State._black_king_position (fst (snd r))
     = State._black_king_position after).
Proof.
  destruct w as [s h]. cbn [fst]. intros Hs Hfrom Hto Hget Hkind Hrook.
  cbv zeta.
  destruct (sound_state_get s _ king Hs Hfrom Hget) as [Hpos _].
  subst source.
  unfold State_make_move, State_make_move_with. mrun.
  cbn [cell_from cell_to]. rewrite Hget.
  destruct (Z.eqb_spec (Figure._color king) (State_whose_move s)) as [E|E];
    cbn [negb].
  2:{ destruct (COLORS _); cbn [fst is_ok];
        (split; [split; [discriminate|tauto]|discriminate]). }
  unbind. unfold Figure_make_move. rewrite Hkind.
  unfold King_make_move. mrun. rewrite Hrook.
  destruct (King_step_run s king target Hs Hfrom Hget
              (State_get_by_cell s target) h) as [Hiff Hst].
  pose proof (King_step_outcome king (State_get_by_cell s target) target s h
                Hs Hto Hfrom Hget) as Ho.
  destruct (King_step king (State_get_by_cell s target) target (s, h))
    as [[e|[]] [s1 h1]]; cbn [fst snd is_ok] in *.
  - split; [|discriminate]. split; [discriminate|].
    intros (_ & H). apply Hiff. exact H.
  - destruct Ho as (ext & _ & (Hs1 & _) & _).
    specialize (Hst eq_refl). subst s1.
    set (t := with_king (moved_state s king target) target
                (Figure._color king)) in *.
    assert (Hend : exists s2 h2,
      (if State._is_original t then State__check_on_game_over else ret tt)
        (t, h1) = (inr tt, (s2, h2)) /\
      State.board s2 = State.board t /\
      State._white_king_position s2 = State._white_king_position t /\
      State._black_king_position s2 = State._black_king_position t).
    { destruct (State._is_original t).
      - destruct (State__check_on_game_over_ok (t, h1) (proj1 Hs1))
          as (s2 & h2 & -> & Hb & _ & Hw & Hk & _). eauto 10.
      - unfold ret. eauto 10. }
    unfold ret in Hend.
    destruct Hend as (s2 & h2 & -> & Hb & Hw & Hk). cbn [fst snd is_ok].
    split; [|intros _; auto].
    split; [intros _|reflexivity].
    split; [exact E|]. apply Hiff. reflexivity.
Qed.

Lemma King_step_accepted_iff_witness :
  let w := after game_before_castling in
  let source := Cell.mk 5 1 in
  let target := Cell.mk 5 2 in
  let king := Figure.mk King source 1 [] 0 in
  let s := fst w in
  let r := State_make_move (mkMove source target) w in
  let after := with_king (moved_state s king target) target
                 (Figure._color king) in
  (is_ok (fst r) = true <->
   Figure._color king = State_whose_move s /\
   King__is_cell_under_attack king target = true /\
   own_figure king (State_get_by_cell s target) = false /\
   State__is_king_in_check after (Figure._color king) = inr false) /\
  (is_ok (fst r) = true ->
   State.board (fst (snd r)) = State.board after /\
   State._white_king_position (fst (snd r))
     = State._white_king_position after /\
   State._black_king_position (fst (snd r))
     = State._black_king_position after).
Proof.
  apply (King_step_accepted_iff (after game_before_castling)
           (Cell.mk 5 1) (Cell.mk 5 2) (Figure.mk King (Cell.mk 5 1) 1 [] 0)).
  - apply sound_stateb_sound. vm_compute. reflexivity.
  - split; simpl; lia.
  - split; simpl; lia.
  - vm_compute. reflexivity.
  - reflexivity.
  - vm_compute. reflexivity.
Defined.

Section CastlingEffect.

Lemma relocate_rook_exact (figure x : Figure) (rn : Cell) (t : State)
  (h : list EnumeratedMove) :
  wf_board (State.board t) -> valid_cell rn ->
  State_get_by_cell t (Figure._current_position figure) = Some x ->
  relocate_rook figure rn (t, h) =
    (inr tt,
     (State_board_set
        (State_board_set t rn
           (Some (Figure.mk (Figure.kind x) rn (Figure._color x)
                    (Figure.moves x) (Figure.number_of_moves x))))
        (Figure._current_position figure) None, h)).
Proof.
  intros Hb Hrn Hx. unfold relocate_rook. mrun. rewrite Hx.
  unfold State_get_by_cell at 1.
  cbn [State_board_set set_board State.board].
  rewrite Board_get_set_eq by assumption. mrun.
  rewrite State_board_set_set. reflexivity.
Qed.

Context (s : State) (self rook : Figure) (cell : Cell).
Hypothesis Hs : sound_state s.
Hypothesis Hc : valid_cell cell.
Hypothesis Hp : valid_cell (Figure._current_position self).
Hypothesis Hget :
  State_get_by_cell s (Figure._current_position self) = Some self.
Hypothesis Hrook : State_get_by_cell s cell = Some rook.
Hypothesis Hkind : Figure.kind self <> Figure.kind rook.

Lemma King_castle_state (h : list EnumeratedMove) :
  is_ok (fst (King_castle self rook cell (s, h))) = true ->
  let pos := Figure._current_position self in
  let dir := sign (Cell.x cell - Cell.x pos) in
  let rn := Cell.mk (Cell.x pos + dir) (Cell.y cell) in
  let kn := Cell.mk (Cell.x pos + 2 * dir) (Cell.y cell) in
  valid_cell rn /\ valid_cell kn /\
  line_clear s
    ((fun x => (x, Cell.y cell)) <$>
       range (Z.min (Cell.x pos) (Cell.x cell) + 1)
             (Z.max (Cell.x pos) (Cell.x cell))) = inr true /\
  State__is_king_in_check s (Figure._color self) = inr false /\
  State__is_cell_under_attack s rn (Figure._color self * -1) = inr false /\
  fst (snd (King_castle self rook cell (s, h))) = castled s self rook kn rn.
Proof.
  cbv zeta.
  destruct (sound_state_get s _ self Hs Hp Hget) as [_ Hself].
  destruct (sound_state_get s _ rook Hs Hc Hrook) as [Hfpos _].
  pose proof (proj1 Hself) as Hcol.
  assert (Hne : cell <> Figure._current_position self).
  { intros E. rewrite E in Hrook. congruence. }
  unfold King_castle. mrun.
  set (pos := Figure._current_position self) in *.
  set (color := Figure._color self) in *.
  destruct (line_clear s _) as [e|[|]]; cbn [negb];
    try (cbn; intros Hbad; discriminate Hbad).
  destruct (State__is_king_in_check s color) as [e|[|]];
    try (cbn; intros Hbad; discriminate Hbad).
  assert (Hrn : in_board (Cell.x pos + sign (Cell.x cell - Cell.x pos))
                         (Cell.y cell)).
  { destruct Hp as [? ?], Hc as [? ?].
    destruct (sign_spec (Cell.x cell - Cell.x pos))
      as [[? ->]|[[? ->]|[? ->]]]; split; lia. }
  rewrite (Cell_init_in_board _ _ Hrn).
  set (rn := Cell.mk (Cell.x pos + sign (Cell.x cell - Cell.x pos))
                     (Cell.y cell)) in *.
  destruct (Cell_init_cases (Cell.x pos + 2 * sign (Cell.x cell - Cell.x pos))
              (Cell.y cell)) as [[Hkn ->]| ->];
    [|cbn; intros Hbad; discriminate Hbad].
  set (kn := Cell.mk (Cell.x pos + 2 * sign (Cell.x cell - Cell.x pos))
                     (Cell.y cell)) in *.
  destruct (State__is_cell_under_attack s rn (color * -1)) as [e|[|]];
    try (cbn; intros Hbad; discriminate Hbad).
  unbind.
  rewrite Figure__make_move_on_copied_run
    by (try exact (proj1 Hs); assumption).
  mrun. fold pos.
  rewrite (change_king_with_king _ kn color Hcol).
  destruct (moved_state_occupied (as_copy s) self rook kn cell)
    as [x Hx]; [exact (proj1 Hs)|assumption..|].
  unfold on_copy. unbind. unfold run_on. cbn [fst snd].
  assert (Hcopy : sound_state (moved_state (as_copy s) self kn))
    by (apply sound_moved_state; assumption).
  rewrite (relocate_rook_exact rook x rn).
  2:{ rewrite with_king_board. exact (proj1 (proj1 Hcopy)). }
  2:{ exact Hrn. }
  2:{ unfold State_get_by_cell. rewrite with_king_board, Hfpos. exact Hx. }
  mrun.
  destruct (State__is_king_in_check _ color) as [e|[|]];
    try (cbn; intros Hbad; discriminate Hbad).
  rewrite Figure__make_move_run. mrun. fold pos.
  rewrite (change_king_with_king _ kn color Hcol).
  destruct (moved_state_occupied s self rook kn cell)
    as [x' Hx']; [exact (proj1 Hs)|assumption..|].
  assert (Hmoved : sound_state (moved_state s self kn))
    by (apply sound_moved_state; assumption).
  assert (Hx'' : State_get_by_cell (with_king (moved_state s self kn) kn color)
                   (Figure._current_position rook) = Some x').
  { unfold State_get_by_cell. rewrite with_king_board, Hfpos. exact Hx'. }
  rewrite (relocate_rook_exact rook x' rn);
    [|rewrite with_king_board; exact (proj1 (proj1 Hmoved))|exact Hrn
     |exact Hx''].
  intros _. cbn [fst snd].
  split; [exact Hrn|]. split; [exact Hkn|].
  split; [reflexivity|]. split; [reflexivity|]. split; [reflexivity|].
  unfold castled. fold pos color. rewrite Hx''. reflexivity.
Qed.

End CastlingEffect.

Section MakeMoveKings.

(** The game-over test that ends an accepted [make_move] keeps the board
    and the king caches. *)
Lemma State_make_move_kings (s : State) (h : list EnumeratedMove)
  (move : Move) (figure : Figure) :
  sound_state s -> valid_move move ->
  State_get_by_cell s (cell_from move) = Some figure ->
  is_ok (fst (State_make_move move (s, h))) = true ->
  let s1 := fst (snd (Figure_make_move figure (cell_to move) (s, h))) in
  let s' := fst (snd (State_make_move move (s, h))) in
  is_ok (fst (Figure_make_move figure (cell_to move) (s, h))) = true /\
  State.board s' = State.board s1 /\
  State._white_king_position s' = State._white_king_position s1 /\
  State._black_king_position s' = State._black_king_position s1.
Proof.
  intros Hs [Hfrom Hto] Hget. cbv zeta.
  destruct (sound_state_get s _ figure Hs Hfrom Hget) as [Hpos _].
  unfold State_make_move, State_make_move_with. mrun. rewrite Hget.
  destruct (Z.eqb_spec (Figure._color figure) (State_whose_move s)) as [E|E];
    cbn [negb]; [|destruct (COLORS _); discriminate].
  unbind.
  pose proof (Figure_make_move_outcome figure (cell_to move) s h Hs Hto) as Ho.
  rewrite Hpos in Ho. specialize (Ho Hfrom Hget).
  destruct (Figure_make_move figure (cell_to move) (s, h))
    as [[e|[]] [s1 h1]]; [discriminate|].
  destruct Ho as (ext & _ & (Hs1 & _) & _). cbn [fst snd] in *.
  destruct (State._is_original s1).
  - destruct (State__check_on_game_over_ok (s1, h1) (proj1 Hs1))
      as (s2 & h2 & -> & Hb & _ & Hw & Hk & _). cbn [fst snd is_ok]. auto.
  - cbn [fst snd is_ok]. auto.
Qed.

End MakeMoveKings.

(** X25.  An accepted castling on a sound state, king and rook on one rank
    at least three files apart: the cells between them were empty, the king
    was not attacked and neither was the cell next to it towards the rook.
    Afterwards the king stands two files towards the rook with the move
    recorded, the rook stands on the cell the king passed over with its move
    list and [number_of_moves] untouched, both former cells are empty, the
    king cache of the colour holds the king's new cell, and every other cell
    is as it was. *)
Theorem castling_effect (w : World) (source target : Cell)
  (king rook : Figure) :
  sound_state (fst w) -> valid_cell source -> valid_cell target ->
  State_get_by_cell (fst w) source = Some king ->
  Figure.kind king = King ->
  State_get_by_cell (fst w) target = Some rook ->
  castling_rook king (Some rook) = Some rook ->
  Cell.y target = Cell.y source ->
  3 <= Z.abs (Cell.x target - Cell.x source) ->
  is_ok (fst (State_make_move (mkMove source target) w)) = true ->
  let s := fst w in
  let s' := fst (snd (State_make_move (mkMove source target) w)) in
  let color := Figure._color king in
  let dir := sign (Cell.x target - Cell.x source) in
  let rn := Cell.mk (Cell.x source + dir) (Cell.y source) in
  let kn := Cell.mk (Cell.x source + 2 * dir) (Cell.y source) in
  (forall x, Z.min (Cell.x source) (Cell.x target) < x
             < Z.max (Cell.x source) (Cell.x target) ->
     State_get_by_cell s (Cell.mk x (Cell.y source)) = None) /\
  State__is_king_in_check s color = inr false /\
  State__is_cell_under_attack s rn (color * -1) = inr false /\
  State_get_by_cell s' source = None /\
  State_get_by_cell s' target = None /\
  State_get_by_cell s' kn =
    Some (Figure.mk King kn color
            (Figure.moves king ++
               [mkEnumeratedMove (mkMove source kn)
                  (State.number_of_moves s + 1)])
            (Figure.number_of_moves king + 1)) /\
  State_get_by_cell s' rn =
    Some (Figure.mk Rook rn (Figure._color rook) (Figure.moves rook)
            (Figure.number_of_moves rook)) /\
  State_get_king_position_by_color s' color = inr kn /\
  forall c, valid_cell c ->
    c <> source -> c <> target -> c <> kn -> c <> rn ->
    State_get_by_cell s' c = State_get_by_cell s c.
Proof.
  destruct w as [s h]. cbn [fst].
  intros Hs Hfrom Hto Hget Hkind Hrook Hguard Hy Hdx Hok. cbv zeta.
  destruct (sound_state_get s _ king Hs Hfrom Hget) as [Hpos [Hcol _]].
  subst source.
  set (pos := Figure._current_position king) in *.
  assert (Hrk : Figure.kind rook = Rook).
  { unfold castling_rook in Hguard.
    destruct (Figure.kind rook); try discriminate. reflexivity. }
  destruct (State_make_move_kings s h (mkMove pos target) king Hs
              (conj Hfrom Hto) Hget Hok) as (Hfig & Hb & Hw & Hk).
  cbn [cell_to] in *.
  assert (Hcastle :
    Figure_make_move king target (s, h) = King_castle king rook target (s, h)).
  { unfold Figure_make_move. rewrite Hkind. unfold King_make_move. mrun.
    rewrite Hrook, Hguard. reflexivity. }
  rewrite Hcastle in Hfig, Hb, Hw, Hk.
  destruct (King_castle_state s king rook target Hs Hto Hfrom Hget Hrook
              ltac:(congruence) h Hfig)
    as (Hrn & Hkn & Hline & Hchk & Hatt & Hst).
  fold pos in Hrn, Hkn, Hline, Hatt, Hst.
  rewrite Hy in Hrn, Hkn, Hline, Hatt, Hst.
  set (dir := sign (Cell.x target - Cell.x pos)) in *.
  set (rn := Cell.mk (Cell.x pos + dir) (Cell.y pos)) in *.
  set (kn := Cell.mk (Cell.x pos + 2 * dir) (Cell.y pos)) in *.
  assert (Hdir : dir = 1 \/ dir = -1).
  { subst dir. destruct (sign_spec (Cell.x target - Cell.x pos))
      as [[? ->]|[[? ->]|[? ?]]]; auto; lia. }
  assert (Hdirx : (dir = 1 /\ 3 <= Cell.x target - Cell.x pos) \/
                  (dir = -1 /\ Cell.x target - Cell.x pos <= -3)).
  { subst dir. destruct (sign_spec (Cell.x target - Cell.x pos))
      as [[? ->]|[[? ->]|[? ?]]]; lia. }
  assert (Hne_tp : target <> pos).
  { intros E. rewrite E in Hdx. lia. }
  assert (Hne_tk : target <> kn).
  { intros E. apply (f_equal Cell.x) in E. cbn [kn Cell.x] in E. lia. }
  assert (Hne_tr : target <> rn).
  { intros E. apply (f_equal Cell.x) in E. cbn [rn Cell.x] in E. lia. }
  assert (Hne_pk : pos <> kn).
  { intros E. apply (f_equal Cell.x) in E. cbn [kn Cell.x] in E. lia. }
  assert (Hne_pr : pos <> rn).
  { intros E. apply (f_equal Cell.x) in E. cbn [rn Cell.x] in E. lia. }
  assert (Hne_kr : kn <> rn).
  { intros E. apply (f_equal Cell.x) in E. cbn [kn rn Cell.x] in E. lia. }
  destruct (sound_state_get s _ rook Hs Hto Hrook) as [Hfpos _].
  (* the board after the move *)
  set (t := with_king (moved_state s king kn) kn (Figure._color king)) in *.
  assert (Ht : forall c, State_get_by_cell t c
                         = State_get_by_cell (moved_state s king kn) c).
  { intros c. unfold State_get_by_cell, t. rewrite with_king_board.
    reflexivity. }
  assert (Hx : State_get_by_cell t target = Some rook).
  { rewrite Ht, moved_state_frame by (auto; congruence). exact Hrook. }
  unfold castled in Hst. fold t in Hst. rewrite Hfpos, Hx, Hrk in Hst.
  pose proof (wf_moved_state s king kn (proj1 Hs) Hkn Hfrom) as Hwf.
  assert (Hwfb : wf_board (State.board t)).
  { unfold t. rewrite with_king_board. exact (proj1 Hwf). }
  destruct (moved_state_cell s king kn (proj1 Hs) Hkn Hfrom Hne_pk)
    as [Hcell Hsrc].
  assert (Hget' : forall c,
    State_get_by_cell
      (fst (snd (State_make_move (mkMove pos target) (s, h)))) c =
    Board_get
      (Board_set
         (Board_set (State.board t) rn
            (Some (Figure.mk Rook rn (Figure._color rook)
                     (Figure.moves rook) (Figure.number_of_moves rook))))
         target None) c).
  { intros c. unfold State_get_by_cell. rewrite Hb, Hst. reflexivity. }
  split.
  { destruct (line_clear_spec s
      ((fun x => (x, Cell.y pos)) <$>
         range (Z.min (Cell.x pos) (Cell.x target) + 1)
               (Z.max (Cell.x pos) (Cell.x target)))) as (b & Hlb & Hspec).
    { apply Forall_fmap, Forall_forall. intros x Hin. unfold range in Hin.
      apply elem_of_seqZ in Hin. destruct Hfrom as [? ?], Hto as [? ?].
      split; simpl; lia. }
    rewrite Hline in Hlb. injection Hlb as <-.
    intros x Hx'. apply (proj1 Hspec eq_refl (x, Cell.y pos)).
    apply list_elem_of_In, list_elem_of_fmap. exists x.
    split; [reflexivity|]. unfold range. apply elem_of_seqZ. lia. }
  split; [exact Hchk|]. split; [exact Hatt|].
  split.
  { rewrite Hget'. rewrite !Board_get_set_ne by auto.
    change (State_get_by_cell t pos = None). rewrite Ht. exact Hsrc. }
  split.
  { rewrite Hget'. apply Board_get_set_eq; [|exact Hto].
    apply wf_board_set; [exact Hwfb|exact Hrn|]. intros f [= <-]. reflexivity. }
  split.
  { rewrite Hget'. rewrite !Board_get_set_ne by auto.
    change (State_get_by_cell t kn = Some
      (Figure.mk King kn (Figure._color king)
         (Figure.moves king ++
            [mkEnumeratedMove (mkMove pos kn) (State.number_of_moves s + 1)])
         (Figure.number_of_moves king + 1))).
    rewrite Ht, Hcell. unfold moved_figure. rewrite Hkind. reflexivity. }
  split.
  { rewrite Hget'. rewrite Board_get_set_ne by auto.
    apply Board_get_set_eq; assumption. }
  split.
  { unfold State_get_king_position_by_color.
    rewrite (proj2 (valid_color_cases _) Hcol). rewrite Hw, Hk, Hst.
    cbn [State_board_set set_board State._white_king_position
         State._black_king_position].
    unfold t, with_king. destruct (Figure._color king =? 1); reflexivity. }
  intros c Hvc Hn1 Hn2 Hn3 Hn4. rewrite Hget'.
  rewrite !Board_get_set_ne by auto.
  change (State_get_by_cell t c = State_get_by_cell s c).
  rewrite Ht. apply moved_state_frame; assumption.
Qed.

Lemma castling_effect_witness :
  let w := after game_before_castling in
  let source := Cell.mk 5 1 in
  let target := Cell.mk 8 1 in
  let king := Figure.mk King source 1 [] 0 in
  let rook := Figure.mk Rook target 1 [] 0 in
  let s := fst w in
  let s' := fst (snd (State_make_move (mkMove source target) w)) in
  let color := Figure._color king in
  let dir := sign (Cell.x target - Cell.x source) in
  let rn := Cell.mk (Cell.x source + dir) (Cell.y source) in
  let kn := Cell.mk (Cell.x source + 2 * dir) (Cell.y source) in
  (forall x, Z.min (Cell.x source) (Cell.x target) < x
             < Z.max (Cell.x source) (Cell.x target) ->
     State_get_by_cell s (Cell.mk x (Cell.y source)) = None) /\
  State__is_king_in_check s color = inr false /\
  State__is_cell_under_attack s rn (color * -1) = inr false /\
  State_get_by_cell s' source = None /\
  State_get_by_cell s' target = None /\
  State_get_by_cell s' kn =
    Some (Figure.mk King kn color
            (Figure.moves king ++
               [mkEnumeratedMove (mkMove source kn)
                  (State.number_of_moves s + 1)])
            (Figure.number_of_moves king + 1)) /\
  State_get_by_cell s' rn =
    Some (Figure.mk Rook rn (Figure._color rook) (Figure.moves rook)
            (Figure.number_of_moves rook)) /\
  State_get_king_position_by_color s' color = inr kn /\
  forall c, valid_cell c ->
    c <> source -> c <> target -> c <> kn -> c <> rn ->
    State_get_by_cell s' c = State_get_by_cell s c.
Proof.
  apply (castling_effect (after game_before_castling)
           (Cell.mk 5 1) (Cell.mk 8 1)
           (Figure.mk King (Cell.mk 5 1) 1 [] 0)
           (Figure.mk Rook (Cell.mk 8 1) 1 [] 0)).
  - apply sound_stateb_sound. vm_compute. reflexivity.
  - split; simpl; lia.
  - split; simpl; lia.
  - vm_compute. reflexivity.
  - reflexivity.
  - vm_compute. reflexivity.
  - reflexivity.
  - reflexivity.
  - simpl. lia.
  - vm_compute. reflexivity.
Defined.

(** ** Checkmate, stalemate and the last move *)



Lemma play_history (moves : list Move) :
  forall w : World,
    sound_state (fst w) -> Forall valid_move moves ->
    0 <= ply w -> 2 * ply w <= Z.of_nat (length (history w)) ->
    0 <= ply (snd (play moves w)) /\
    2 * ply (snd (play moves w))
      <= Z.of_nat (length (history (snd (play moves w)))).
Proof.
  induction moves as [|m rest IH]; intros [s h] Hs Hall H0 Hlen.
  - cbn [play snd]. auto.
  - apply Forall_cons in Hall. destruct Hall as [Hm Hrest].
    cbn [play]. pose proof (State_make_move_outcome s h m Hs Hm) as Ho.
    unfold ply, history in *. cbn [fst snd] in *.
    destruct (State_make_move m (s, h)) as [[e|[]] [s1 h1]];
      destruct Ho as (ext & Hh & Ho); cbn [fst snd] in *.
    + destruct Ho as [_ ->]. subst h1. rewrite length_app. lia.
    + destruct Ho as (Hs1 & Hn & _ & _ & Hext).
      apply (IH (s1, h1)); cbn [fst snd]; try assumption; [lia|].
      subst h1. rewrite length_app. lia.
Qed.

(** X27.  In every world reached from [State()] by [make_move] calls
    between board cells the [moves] list holds at least two entries per
    accepted move, so [State.last_move] never raises: it returns [None]
    exactly when no move has been accepted and an entry of the list
    otherwise. *)
Theorem State_last_move_reachable (moves : list Move) :
  Forall valid_move moves ->
  let w := after moves in
  2 * ply w <= Z.of_nat (length (history w)) /\
  exists r,
    State_last_move w = (inr r, w) /\
    (r = None <-> ply w = 0) /\
    (forall m, r = Some m -> In m (history w)).
Proof.
  intros Hall. cbv zeta.
  destruct (play_history moves new_game new_game_sound Hall)
    as [H0 Hlen]; [vm_compute; discriminate..|].
  fold (after moves) in H0, Hlen. split; [exact Hlen|].
  unfold State_last_move. unfold ply, history in *.
  destruct (Z.ltb_spec 0 (State.number_of_moves (fst (after moves))))
    as [Hpos|Hzero].
  - destruct (lookup_lt_is_Some_2 (snd (after moves))
                (Z.to_nat (State.number_of_moves (fst (after moves)) - 1)))
      as [m Hm]; [lia|].
    rewrite Hm. exists (Some m). split; [reflexivity|].
    split; [split; [discriminate|lia]|].
    intros m' [= <-]. apply list_elem_of_In.
    exact (list_elem_of_lookup_2 _ _ _ Hm).
  - exists None. split; [reflexivity|]. split; [split; [lia|reflexivity]|].
    discriminate.
Qed.

Lemma State_last_move_reachable_witness :
  let w := after game_check in
  2 * ply w <= Z.of_nat (length (history w)) /\
  exists r,
    State_last_move w = (inr r, w) /\
    (r = None <-> ply w = 0) /\
    (forall m, r = Some m -> In m (history w)).
Proof.
  apply (State_last_move_reachable game_check).
  repeat constructor; simpl; lia.
Defined.

(** ** The text form of the board *)

Lemma split_lines_app (l : list ascii) (rest : string) (line : list ascii) :
  Forall (fun c => Ascii.eqb c "010" = false) l ->
  split_lines (string_of_list_ascii l ++ rest) line
  = split_lines rest (line ++ l).
Proof.
  revert line. induction l as [|c l IH]; intros line Hl.
  - cbn. rewrite app_nil_r. reflexivity.
  - apply Forall_cons in Hl. destruct Hl as [Hc Hl].
    cbn [string_of_list_ascii String.append split_lines]. rewrite Hc.
    rewrite (IH _ Hl), <- app_assoc. reflexivity.
Qed.

Lemma split_lines_last (l line : list ascii) :
  Forall (fun c => Ascii.eqb c "010" = false) l ->
  split_lines (string_of_list_ascii l) line = [line ++ l].
Proof.
  revert line. induction l as [|c l IH]; intros line Hl.
  - cbn. rewrite app_nil_r. reflexivity.
  - apply Forall_cons in Hl. destruct Hl as [Hc Hl].
    cbn [string_of_list_ascii split_lines]. rewrite Hc.
    rewrite (IH _ Hl), <- app_assoc. reflexivity.
Qed.

Lemma split_lines_concat (ls : list (list ascii)) :
  forall (l line : list ascii),
    Forall (Forall (fun c => Ascii.eqb c "010" = false)) (l :: ls) ->
    split_lines
      (String.concat (String "010" EmptyString)
         (string_of_list_ascii <$> l :: ls)) line
    = (line ++ l) :: ls.
Proof.
  induction ls as [|l' ls IH]; intros l line Hall;
    apply Forall_cons in Hall; destruct Hall as [Hl Hall].
  - cbn [fmap list_fmap String.concat].
    apply split_lines_last. exact Hl.
  - change (String.concat (String "010" EmptyString)
              (string_of_list_ascii <$> l :: l' :: ls))
      with (string_of_list_ascii l ++
            String "010" (String.concat (String "010" EmptyString)
                            (string_of_list_ascii <$> l' :: ls)))%string.
    rewrite (split_lines_app _ _ _ Hl).
    change (split_lines (String "010" ?r) ?acc) with (acc :: split_lines r []).
    rewrite (IH l' [] Hall). reflexivity.
Qed.

Lemma map_result_ok {A B} (f : A -> result B) (g : A -> B) (l : list A) :
  Forall (fun a => f a = inr (g a)) l -> map_result f l = inr (g <$> l).
Proof.
  induction 1 as [|a l Ha _ IH]; [reflexivity|].
  cbn [map_result]. rewrite Ha, IH. reflexivity.
Qed.

(** The letter of a figure is neither a dot nor a newline, and
    [_get_figure_by_letter] reads the class and the colour back from it. *)
Lemma letter_not_dot (f : Figure) :
  Figure._color f = -1 \/ Figure._color f = 1 ->
  Ascii.eqb (letter f) "." = false /\
  Ascii.eqb (letter f) "010" = false /\
  forall c, _get_figure_by_letter c (letter f) = inr (fresh_figure c f).
Proof.
  destruct f as [k pos col ms n]. cbn [Figure._color]. unfold fresh_figure.
  cbn [Figure.kind Figure._color].
  intros [-> | ->]; destruct k; repeat split; intros; reflexivity.
Qed.

Lemma letter_fresh (c : Cell) (f : Figure) :
  letter (fresh_figure c f) = letter f.
Proof. reflexivity. Qed.

Lemma range_cases (a n x : Z) :
  In x (range a (a + n)) <-> a <= x < a + n.
Proof.
  unfold range. rewrite <- list_elem_of_In, elem_of_seqZ. lia.
Qed.

Lemma index_cases (x : Z) :
  0 <= x < 8 ->
  x = 0 \/ x = 1 \/ x = 2 \/ x = 3 \/ x = 4 \/ x = 5 \/ x = 6 \/ x = 7.
Proof. lia. Qed.

Lemma lookup_ranks {A} (f : Z -> A) (y : Z) :
  0 <= y < 8 ->
  (f <$> reverse (range 1 9)) !! Z.to_nat y = Some (f (8 - y)).
Proof.
  intros Hy.
  destruct (index_cases y Hy) as [-> | [-> | [-> | [-> | [-> | [-> | [-> | ->]]]]]]];
    reflexivity.
Qed.

Lemma lookup_files {A} (f : Z -> A) (x : Z) :
  0 <= x < 8 -> (f <$> range 1 9) !! Z.to_nat x = Some (f (x + 1)).
Proof.
  intros Hx.
  destruct (index_cases x Hx) as [-> | [-> | [-> | [-> | [-> | [-> | [-> | ->]]]]]]];
    reflexivity.
Qed.

Lemma Board_get_decoded (f : Z -> Z -> option Figure) (x y : Z) :
  0 <= x < 8 -> 0 <= y < 8 ->
  Board_get
    (reverse ((fun y => (fun x => f x y) <$> range 0 8) <$> range 0 8))
    (Cell.mk (x + 1) (y + 1))
  = f x (7 - y).
Proof.
  intros Hx Hy.
  destruct (index_cases y Hy) as [-> | [-> | [-> | [-> | [-> | [-> | [-> | ->]]]]]]];
    destruct (index_cases x Hx) as [-> | [-> | [-> | [-> | [-> | [-> | [-> | ->]]]]]]];
    reflexivity.
Qed.

(** X28.  [board_from_text] reads back the text [board_to_str] writes for
    a sound state: it returns an 8x8 board that has on each cell a figure of
    the same class and colour as the state has there, placed on that cell
    with no move recorded, and nothing on the empty cells; writing that
    board out gives the same text again. *)
Theorem board_text_round_trip (s : State) :
  sound_state s ->
  exists b,
    board_from_text (State_board_to_str s) = inr b /\
    wf_board b /\
    (forall c, valid_cell c ->
       Board_get b c = fresh_figure c <$> State_get_by_cell s c) /\
    State_board_to_str (set_board s b) = State_board_to_str s.
Proof.
  intros [_ Hfig].
  set (char := fun x y =>
         match State_get_by_cell s (Cell.mk x y) with
         | None => "."%char
         | Some figure => letter figure
         end).
  set (decoded := fun x y =>
         fresh_figure (Cell.mk (x + 1) (8 - y))
           <$> State_get_by_cell s (Cell.mk (x + 1) (8 - y))).
  exists (reverse ((fun y => (fun x => decoded x y) <$> range 0 8)
                     <$> range 0 8)).
  assert (Hget : forall c, valid_cell c ->
            Board_get
              (reverse ((fun y => (fun x => decoded x y) <$> range 0 8)
                          <$> range 0 8)) c
            = fresh_figure c <$> State_get_by_cell s c).
  { intros [x y] [Hx Hy]. cbn [Cell.x Cell.y] in Hx, Hy.
    pose proof (Board_get_decoded decoded (x - 1) (y - 1)
                  ltac:(lia) ltac:(lia)) as E.
    replace (x - 1 + 1) with x in E by lia.
    replace (y - 1 + 1) with y in E by lia.
    rewrite E. unfold decoded.
    replace (x - 1 + 1) with x by lia.
    replace (8 - (7 - (y - 1))) with y by lia. reflexivity. }
  assert (Hlines : split_lines (State_board_to_str s) []
            = (fun y => (fun x => char x y) <$> range 1 9)
                <$> reverse (range 1 9)).
  { unfold State_board_to_str.
    change (board_to_str s)
      with (string_of_list_ascii
              <$> ((fun x => char x 8) <$> range 1 9)
                  :: ((fun y => (fun x => char x y) <$> range 1 9)
                        <$> [7; 6; 5; 4; 3; 2; 1])).
    rewrite split_lines_concat; [reflexivity|].
    change (Forall (Forall (fun c => Ascii.eqb c "010" = false))
              ((fun y => (fun x => char x y) <$> range 1 9)
                 <$> reverse (range 1 9))).
    apply Forall_forall. intros row Hrow.
    apply list_elem_of_fmap in Hrow. destruct Hrow as (y & -> & Hy).
    apply Forall_forall. intros c Hc.
    apply list_elem_of_fmap in Hc. destruct Hc as (x & -> & Hx).
    apply elem_of_reverse, list_elem_of_In, (range_cases 1 8) in Hy.
    apply list_elem_of_In, (range_cases 1 8) in Hx.
    unfold char.
    destruct (State_get_by_cell s (Cell.mk x y)) as [f|] eqn:Hf;
      [|reflexivity].
    apply (letter_not_dot f).
    exact (proj1 (Hfig (Cell.mk x y) f ltac:(split; cbn; lia) Hf)). }
  split.
  { unfold board_from_text. rewrite Hlines.
    rewrite (map_result_ok _ (fun y => (fun x => decoded x y) <$> range 0 8));
      [reflexivity|].
    apply Forall_forall. intros y Hy.
    apply list_elem_of_In, (range_cases 0 8) in Hy.
    apply map_result_ok. apply Forall_forall. intros x Hx.
    apply list_elem_of_In, (range_cases 0 8) in Hx.
    rewrite (lookup_ranks _ y Hy), (lookup_files _ x Hx).
    unfold char, decoded.
    destruct (State_get_by_cell s (Cell.mk (x + 1) (8 - y))) as [f|] eqn:Hf;
      [|reflexivity].
    destruct (letter_not_dot f
                (proj1 (Hfig (Cell.mk (x + 1) (8 - y)) f
                          ltac:(split; cbn; lia) Hf))) as (-> & _ & Hl).
    unfold Cell_init.
    replace ((1 <=? x + 1) && (x + 1 <=? 8)) with true by lia.
    replace ((1 <=? 8 - y) && (8 - y <=? 8)) with true by lia.
    cbn [negb orb]. unbind. rewrite Hl. reflexivity. }
  split.
  { split; [reflexivity|]. split.
    - repeat constructor.
    - intros c f Hc. rewrite (Hget c Hc).
      destruct (State_get_by_cell s c); [|discriminate].
      intros [= <-]. reflexivity. }
  split; [exact Hget|].
  unfold State_board_to_str, board_to_str. f_equal.
  apply list_fmap_ext. intros _ y Hy%list_elem_of_lookup_2.
  apply elem_of_reverse, list_elem_of_In, (range_cases 1 8) in Hy.
  f_equal. apply list_fmap_ext. intros _ x Hx%list_elem_of_lookup_2.
  apply list_elem_of_In, (range_cases 1 8) in Hx.
  unfold State_get_by_cell at 1. cbn [set_board State.board].
  rewrite (Hget (Cell.mk x y) ltac:(split; cbn; lia)).
  destruct (State_get_by_cell s (Cell.mk x y)); reflexivity.
Qed.

Lemma board_text_round_trip_witness :
  exists b,
    board_from_text (State_board_to_str (fst (after game_check))) = inr b /\
    wf_board b /\
    (forall c, valid_cell c ->
       Board_get b c
       = fresh_figure c <$> State_get_by_cell (fst (after game_check)) c) /\
    State_board_to_str (set_board (fst (after game_check)) b)
    = State_board_to_str (fst (after game_check)).
Proof.
  apply (board_text_round_trip (fst (after game_check))).
  apply sound_stateb_sound. vm_compute. reflexivity.
Defined.

(** ** Moves given as text *)

Lemma Cell_from_abbreviation_ok (c : Cell) :
  valid_cell c -> Cell_from_abbreviation (abbreviation_of c) = inr c.
Proof.
  destruct c as [x y]. intros [Hx Hy]. cbn [Cell.x Cell.y] in Hx, Hy.
  assert (Hx' : x = 1 \/ x = 2 \/ x = 3 \/ x = 4 \/ x = 5 \/ x = 6 \/ x = 7
                \/ x = 8) by lia.
  assert (Hy' : y = 1 \/ y = 2 \/ y = 3 \/ y = 4 \/ y = 5 \/ y = 6 \/ y = 7
                \/ y = 8) by lia.
  clear Hx Hy.
  destruct Hx' as [-> | [-> | [-> | [-> | [-> | [-> | [-> | ->]]]]]]];
    destruct Hy' as [-> | [-> | [-> | [-> | [-> | [-> | [-> | ->]]]]]]];
    reflexivity.
Qed.

Lemma Cell_from_abbreviation_inv (text : string) (c : Cell) :
  Cell_from_abbreviation text = inr c ->
  valid_cell c /\ text = abbreviation_of c.
Proof.
  unfold Cell_from_abbreviation.
  destruct text as [|c0 [|c1 [|c2 rest]]]; cbn [String.length Nat.eqb negb];
    try discriminate.
  unfold int_char.
  destruct ((48 <=? N_of_ascii c1)%N && (N_of_ascii c1 <=? 57)%N) eqn:Hd;
    [|discriminate].
  unbind. intros Hc.
  destruct (Cell_init_inv _ _ _ Hc) as [-> Hin].
  split; [exact Hin|].
  destruct Hin as [Hx Hy]. cbn [Cell.x Cell.y] in *.
  unfold abbreviation_of. cbn [Cell.x Cell.y].
  replace (Z.to_N (96 + (Z.of_N (N_of_ascii c0) - 97 + 1)))
    with (N_of_ascii c0) by lia.
  replace (Z.to_N (48 + (Z.of_N (N_of_ascii c1) - 48)))
    with (N_of_ascii c1) by lia.
  rewrite !ascii_N_embedding. reflexivity.
Qed.

Lemma Cell_from_abbreviation_error (text : string) (e : exn) :
  Cell_from_abbreviation text = inl e -> exists msg, e = ValueError msg.
Proof.
  unfold Cell_from_abbreviation.
  destruct text as [|c0 [|c1 [|c2 rest]]]; cbn [String.length Nat.eqb negb];
    try (intros [= <-]; eexists; reflexivity).
  unfold int_char.
  destruct ((48 <=? N_of_ascii c1)%N && (N_of_ascii c1 <=? 57)%N);
    [|intros [= <-]; eexists; reflexivity].
  unbind. intros E. rewrite (Cell_init_error _ _ _ E). eexists; reflexivity.
Qed.

(** X29.  [Cell.from_abbreviation] returns a cell exactly for the
    two-character names of the 64 cells, a file letter from [a] to [h]
    followed by a rank digit from [1] to [8], and then it returns the cell
    so named; on every other string it raises [ValueError]. *)
Theorem Cell_from_abbreviation_spec (text : string) :
  (forall c : Cell,
     Cell_from_abbreviation text = inr c <->
     valid_cell c /\ text = abbreviation_of c) /\
  (is_ok (Cell_from_abbreviation text) = false ->
   exists msg, Cell_from_abbreviation text = inl (ValueError msg)).
Proof.
  split.
  - intros c. split; [apply Cell_from_abbreviation_inv|].
    intros [Hc ->]. exact (Cell_from_abbreviation_ok c Hc).
  - destruct (Cell_from_abbreviation text) as [e|c] eqn:E; [|discriminate].
    intros _. destruct (Cell_from_abbreviation_error text e E) as [msg ->].
    exists msg. reflexivity.
Qed.

Lemma abbreviation_of_chars (c : Cell) :
  valid_cell c ->
  exists a b,
    abbreviation_of c = String a (String b EmptyString) /\
    isspace a = false /\ isspace b = false.
Proof.
  destruct c as [x y]. intros [Hx Hy]. cbn [Cell.x Cell.y] in Hx, Hy.
  unfold abbreviation_of. cbn [Cell.x Cell.y].
  eexists _, _. split; [reflexivity|].
  assert (Hx' : x = 1 \/ x = 2 \/ x = 3 \/ x = 4 \/ x = 5 \/ x = 6 \/ x = 7
                \/ x = 8) by lia.
  assert (Hy' : y = 1 \/ y = 2 \/ y = 3 \/ y = 4 \/ y = 5 \/ y = 6 \/ y = 7
                \/ y = 8) by lia.
  clear Hx Hy. split.
  - destruct Hx' as [-> | [-> | [-> | [-> | [-> | [-> | [-> | ->]]]]]]];
      reflexivity.
  - destruct Hy' as [-> | [-> | [-> | [-> | [-> | [-> | [-> | ->]]]]]]];
      reflexivity.
Qed.

Lemma split_two_cells (c d : Cell) :
  valid_cell c -> valid_cell d ->
  split_whitespace (abbreviation_of c ++ String " " (abbreviation_of d))
    EmptyString
  = [abbreviation_of c; abbreviation_of d].
Proof.
  intros Hc Hd.
  destruct (abbreviation_of_chars c Hc) as (a & b & -> & Ha & Hb).
  destruct (abbreviation_of_chars d Hd) as (a' & b' & -> & Ha' & Hb').
  cbn [String.append split_whitespace].
  rewrite Ha, Hb, Ha', Hb'. reflexivity.
Qed.

(** X30.  [State.make_move_by_abbreviation] on the names of two cells
    separated by a blank is [State.make_move] on the move between them.  On
    any text it either reads two cell names as its first two words and makes
    that move, or raises [IndexError] or [ValueError] and changes nothing. *)
Theorem State_make_move_by_abbreviation_spec (c d : Cell) (w : World) :
  valid_cell c -> valid_cell d ->
  State_make_move_by_abbreviation
    (abbreviation_of c ++ String " " (abbreviation_of d)) w
  = State_make_move (mkMove c d) w /\
  forall text : string,
    (exists c' d' rest,
        split_whitespace text EmptyString
        = abbreviation_of c' :: abbreviation_of d' :: rest /\
        valid_cell c' /\ valid_cell d' /\
        State_make_move_by_abbreviation text w
        = State_make_move (mkMove c' d') w) \/
    (exists e,
        State_make_move_by_abbreviation text w = (inl e, w) /\
        (e = IndexError \/ exists msg, e = ValueError msg)).
Proof.
  intros Hc Hd. split.
  - unfold State_make_move_by_abbreviation.
    rewrite (split_two_cells c d Hc Hd). unfold list_index.
    cbn [lookup list_lookup]. mrun.
    rewrite (Cell_from_abbreviation_ok c Hc),
      (Cell_from_abbreviation_ok d Hd). reflexivity.
  - intros text. unfold State_make_move_by_abbreviation.
    destruct (split_whitespace text EmptyString) as [|t1 words].
    { right. exists IndexError. split; [reflexivity|]. left. reflexivity. }
    unfold list_index. cbn [lookup list_lookup]. mrun.
    destruct (Cell_from_abbreviation t1) as [e1|c'] eqn:E1.
    { right. exists e1. split; [reflexivity|]. right.
      exact (Cell_from_abbreviation_error t1 e1 E1). }
    destruct words as [|t2 rest].
    { right. exists IndexError. split; [reflexivity|]. left. reflexivity. }
    cbn [lookup list_lookup].
    destruct (Cell_from_abbreviation t2) as [e2|d'] eqn:E2.
    { right. exists e2. split; [reflexivity|]. right.
      exact (Cell_from_abbreviation_error t2 e2 E2). }
    left. exists c', d', rest.
    destruct (Cell_from_abbreviation_inv t1 c' E1) as [Hc' ->].
    destruct (Cell_from_abbreviation_inv t2 d' E2) as [Hd' ->].
    split; [reflexivity|]. split; [exact Hc'|]. split; [exact Hd'|].
    reflexivity.
Qed.

Lemma State_make_move_by_abbreviation_spec_witness :
  State_make_move_by_abbreviation
    (abbreviation_of (Cell.mk 5 2) ++ String " " (abbreviation_of (Cell.mk 5 4)))
    new_game
  = State_make_move (mkMove (Cell.mk 5 2) (Cell.mk 5 4)) new_game /\
  forall text : string,
    (exists c' d' rest,
        split_whitespace text EmptyString
        = abbreviation_of c' :: abbreviation_of d' :: rest /\
        valid_cell c' /\ valid_cell d' /\
        State_make_move_by_abbreviation text new_game
        = State_make_move (mkMove c' d') new_game) \/
    (exists e,
        State_make_move_by_abbreviation text new_game = (inl e, new_game) /\
        (e = IndexError \/ exists msg, e = ValueError msg)).
Proof.
  apply (State_make_move_by_abbreviation_spec (Cell.mk 5 2) (Cell.mk 5 4)
           new_game); split; simpl; lia.
Defined.
